(** * drizzle-prisma-generator: the translation engine, embedded and verified

    The development follows the TypeScript sources:
    - [Escape]: the escaper, [src/util/escape/index.ts];
    - [ManyToMany]: the synthesizer of join models,
      [src/util/extract-many-to-many-models.ts] (the second file of
      [src/unnamed/part_002], from line 259);
    - [MySql]: the MySQL generator that opens
      [src/util/generators/mysql.ts] (lines 1 to 266); the later
      revision kept in the same file differs from it as the Postgres
      generator does: it applies the escaper and has no shortcut for
      relations of one column;
    - [Pg]: the Postgres generator (the first file of
      [src/unnamed/part_001], lines 1 to 320);
    - [SQLite]: the SQLite generator (the first file of
      [src/unnamed/part_002], lines 1 to 258);
    with the pieces of text that the three generators spell alike in
    [Common], and the runtime of the host (strings, sets, objects,
    sorting) in [Js] and [JsObject].

    JavaScript strings are modelled as [string] (byte strings); every
    operation the generators perform on them (concatenation, replacement
    of the ASCII characters backslash, quote and backtick, ASCII case
    folding against ASCII keywords, cutting a four character ASCII
    suffix) acts the same on bytes as on UTF-16 code units. *)

From Stdlib Require Import String Ascii List Bool Arith ZArith Lia DecimalString.
Import ListNotations.
Local Open Scope list_scope.
Local Open Scope string_scope.

Set Implicit Arguments.

(** ** Characters and strings of the JavaScript runtime *)

Module Js.

Definition chr (n : nat) : string := String (ascii_of_nat n) EmptyString.

Definition nl : string := chr 10.       (* "\n" *)
Definition tab : string := chr 9.       (* "\t" *)
Definition dquote : string := chr 34.
Definition backslash : string := chr 92.

(** [Array.prototype.join]. *)
Fixpoint join (sep : string) (l : list string) : string :=
  match l with
  | [] => EmptyString
  | [x] => x
  | x :: rest => x ++ sep ++ join sep rest
  end.

Definition lower_ascii (c : ascii) : ascii :=
  let n := nat_of_ascii c in
  if ((65 <=? n) && (n <=? 90))%nat then ascii_of_nat (n + 32) else c.

(** [String.prototype.toLowerCase]; the generators compare its result
    with ASCII keywords that contain no letter k, and no character
    outside ASCII folds to one of their letters. *)
Fixpoint toLowerCase (s : string) : string :=
  match s with
  | EmptyString => EmptyString
  | String c r => String (lower_ascii c) (toLowerCase r)
  end.

Fixpoint rev_string (s acc : string) : string :=
  match s with
  | EmptyString => acc
  | String c r => rev_string r (String c acc)
  end.

(** [String.prototype.endsWith]. *)
Definition endsWith (s suffix : string) : bool :=
  prefix (rev_string suffix EmptyString) (rev_string s EmptyString).

(** [s.slice(0, n)] for [0 <= n]. *)
Definition take (n : nat) (s : string) : string := substring 0 n s.

(** [s.slice(0, s.length - k)]. For a string shorter than [k] the end
    index is negative and counts from the end of the string, and an
    index before the start counts as the start. *)
Definition drop_last (k : nat) (s : string) : string :=
  let len := String.length s in
  if (k <=? len)%nat then take (len - k) s else take (2 * len - k) s.

(** [String.prototype.includes]. *)
Fixpoint includes (needle hay : string) : bool :=
  prefix needle hay ||
  match hay with
  | EmptyString => false
  | String _ r => includes needle r
  end.

(** [str.replace(/c/g, by)] for a one character pattern [c]. *)
Fixpoint replace_all (c : ascii) (by_ : string) (s : string) : string :=
  match s with
  | EmptyString => EmptyString
  | String d r =>
      (if Ascii.eqb d c then by_ else String d EmptyString) ++ replace_all c by_ r
  end.

(** The scalar values a DMMF default or function argument can hold.  A
    number is held as the decimal [m * 10^e]: with at most fifteen
    significant digits and within the range of the doubles, this is the
    shortest decimal that reads back as the number, the one that
    [Number::toString] prints. *)
Inductive scalar :=
| JNum (m e : Z)
| JStr (s : string)
| JBool (b : bool).

(** The decimal digits of [|z|]. *)
Definition digits (z : Z) : string :=
  NilZero.string_of_int (Z.to_int (Z.abs z)).

Fixpoint zeros (n : nat) : string :=
  match n with
  | O => EmptyString
  | S k => String "0" (zeros k)
  end.

(** The significand without its trailing zeros. *)
Fixpoint strip_zeros (fuel : nat) (m e : Z) : Z * Z :=
  match fuel with
  | O => (m, e)
  | S fuel' =>
      if (m =? 0)%Z then (0%Z, 0%Z)
      else if (m mod 10 =? 0)%Z then strip_zeros fuel' (m / 10)%Z (e + 1)%Z
      else (m, e)
  end.

(** [Number::toString(x)] for [x = m * 10^e].  With [s] the digits of
    the significand, [k] their number and [n = k + e]: the digits
    followed by zeros when [k <= n <= 21], a decimal point inside the
    digits when [0 < n <= 21], [0.] and zeros before them when
    [-6 < n <= 0], and the exponent notation otherwise. *)
Definition number_to_string (m e : Z) : string :=
  let '(m, e) := strip_zeros (String.length (digits m)) m e in
  if (m =? 0)%Z then "0"
  else
    let s := digits m in
    let k := Z.of_nat (String.length s) in
    let n := (k + e)%Z in
    (if (m <? 0)%Z then "-" else EmptyString)
    ++ (if ((k <=? n) && (n <=? 21))%Z then s ++ zeros (Z.to_nat (n - k))
        else if ((0 <? n) && (n <=? 21))%Z then
          substring 0 (Z.to_nat n) s ++ "."
          ++ substring (Z.to_nat n) (String.length s - Z.to_nat n) s
        else if ((-6 <? n) && (n <=? 0))%Z then "0." ++ zeros (Z.to_nat (- n)) ++ s
        else
          (if (k =? 1)%Z then s
           else substring 0 1 s ++ "." ++ substring 1 (String.length s - 1) s)
          ++ "e" ++ (if (n - 1 <? 0)%Z then "-" else "+") ++ digits (n - 1)).

(** [String(v)]. *)
Definition to_String (v : scalar) : string :=
  match v with
  | JNum m e => number_to_string m e
  | JStr s => s
  | JBool true => "true"
  | JBool false => "false"
  end.

Definition hex_digit (n : nat) : string :=
  chr (if (n <? 10)%nat then 48 + n else 87 + n).

Definition json_char (c : ascii) : string :=
  let n := nat_of_ascii c in
  if (n =? 34)%nat then backslash ++ dquote
  else if (n =? 92)%nat then backslash ++ backslash
  else if (n =? 8)%nat then backslash ++ "b"
  else if (n =? 12)%nat then backslash ++ "f"
  else if (n =? 10)%nat then backslash ++ "n"
  else if (n =? 13)%nat then backslash ++ "r"
  else if (n =? 9)%nat then backslash ++ "t"
  else if (n <? 32)%nat then backslash ++ "u00" ++ hex_digit (n / 16) ++ hex_digit (n mod 16)
  else String c EmptyString.

Fixpoint json_chars (s : string) : string :=
  match s with
  | EmptyString => EmptyString
  | String c r => json_char c ++ json_chars r
  end.

(** [JSON.stringify(v)] on a scalar. *)
Definition JSON_stringify (v : scalar) : string :=
  match v with
  | JStr s => dquote ++ json_chars s ++ dquote
  | _ => to_String v
  end.

(** Truthiness of a scalar: zero, the empty string and [false] are falsy. *)
Definition truthy (v : scalar) : bool :=
  match v with
  | JNum m _ => negb (Z.eqb m 0)
  | JStr s => negb (String.eqb s EmptyString)
  | JBool b => b
  end.

(** Truthiness of an optional string ([undefined], [null] and the empty
    string are falsy). *)
Definition truthy_str (o : option string) : bool :=
  match o with
  | Some s => negb (String.eqb s EmptyString)
  | None => false
  end.

(** [a === b] on strings that may be [undefined]. *)
Definition opt_string_eqb (a b : option string) : bool :=
  match a, b with
  | Some x, Some y => String.eqb x y
  | None, None => true
  | _, _ => false
  end.

(** [a ?? b]. *)
Definition nullish (A : Type) (o : option A) (d : A) : A :=
  match o with Some x => x | None => d end.

(** Template interpolation of a possibly undefined string. *)
Definition show_undefined (o : option string) : string :=
  match o with Some s => s | None => "undefined" end.

(** The collation of the host: [a.localeCompare(b)], reduced to its sign.
    It belongs to the JavaScript engine, not to the repository, so the
    development is parametric in it. *)
Class Collation := { localeCompare : string -> string -> comparison }.

Section Sorting.
Context {C : Collation}.
Variable A : Type.
Variable key : A -> string.

(** [Array.prototype.sort] is stable; for a comparator [(a, b) =>
    key(a).localeCompare(key(b))] it agrees with stable insertion. *)
Fixpoint insert_sorted (x : A) (l : list A) : list A :=
  match l with
  | [] => [x]
  | y :: r =>
      match localeCompare (key x) (key y) with
      | Gt => y :: insert_sorted x r
      | _ => x :: l
      end
  end.

Definition sort_by (l : list A) : list A := fold_right insert_sorted [] l.

End Sorting.

(** [Set<string>]: membership with insertion order. *)
Definition set := list string.

Definition set_has (x : string) (s : set) : bool :=
  existsb (String.eqb x) s.

Definition set_add (x : string) (s : set) : set :=
  if set_has x s then s else (s ++ [x])%list.

(** [new Set(l)]. *)
Definition set_of_list (l : list string) : set :=
  fold_left (fun s x => set_add x s) l [].

End Js.

(** ** Plain objects used as string-keyed maps

    [Object.fromEntries] and property assignment keep the keys in
    creation order, and [Object.values] lists the values of keys that
    are canonical array indices first, in ascending numeric order, then
    the values of all other keys in creation order.  A read of a key
    the object does not own gives [undefined]; the names that every
    object inherits ([constructor], [toString], ...) are not modelled. *)

Module JsObject.

Definition t := list (string * string).

Fixpoint get (k : string) (o : t) : option string :=
  match o with
  | [] => None
  | (k', v) :: r => if String.eqb k k' then Some v else get k r
  end.

Fixpoint has (k : string) (o : t) : bool :=
  match o with
  | [] => false
  | (k', _) :: r => String.eqb k k' || has k r
  end.

Fixpoint replace (k v : string) (o : t) : t :=
  match o with
  | [] => []
  | (k', v') :: r =>
      if String.eqb k k' then (k', v) :: r else (k', v') :: replace k v r
  end.

(** [Object.defineProperty]-like creation of an own property, as
    [Object.fromEntries] does for each entry. *)
Definition set (k v : string) (o : t) : t :=
  if has k o then replace k v o else (o ++ [(k, v)])%list.

(** The properties that a plain object inherits from
    [Object.prototype], each as the text it gives in a concatenation:
    a built-in function as Node prints it, and the prototype itself for
    the accessor [__proto__]. *)
Definition inherited (k : string) : option string :=
  if String.eqb k "constructor" then Some "function Object() { [native code] }"
  else if String.eqb k "__proto__" then Some "[object Object]"
  else if existsb (String.eqb k)
            ["__defineGetter__"; "__defineSetter__"; "hasOwnProperty";
             "__lookupGetter__"; "__lookupSetter__"; "isPrototypeOf";
             "propertyIsEnumerable"; "toString"; "valueOf"; "toLocaleString"]
       then Some ("function " ++ k ++ "() { [native code] }")
  else None.

(** [o[k] + text], up to the [+ text]: the own property, else the
    inherited one, else [undefined]. *)
Definition read (k : string) (o : t) : string :=
  match get k o with
  | Some v => v
  | None =>
      match inherited k with
      | Some v => v
      | None => "undefined"
      end
  end.

(** [o[k] = v] for a string [v]: the own property is written or
    created, but for the setter [__proto__], which ignores a string. *)
Definition assign (k v : string) (o : t) : t :=
  if has k o then replace k v o
  else if String.eqb k "__proto__" then o
  else (o ++ [(k, v)])%list.

(** [Object.fromEntries(entries)]. *)
Definition fromEntries (entries : list (string * string)) : t :=
  fold_left (fun o e => set (fst e) (snd e) o) entries [].

Fixpoint digits_value (s : string) (acc : N) : option N :=
  match s with
  | EmptyString => Some acc
  | String c r =>
      let n := nat_of_ascii c in
      if ((48 <=? n) && (n <=? 57))%nat
      then digits_value r (10 * acc + N.of_nat (n - 48))%N
      else None
  end.

(** The value of a key that is a canonical array index. *)
Definition array_index (k : string) : option N :=
  match k with
  | EmptyString => None
  | String c r =>
      if Ascii.eqb c "0" && negb (String.eqb r EmptyString) then None
      else match digits_value k 0 with
           | Some v => if (v <? 4294967295)%N then Some v else None
           | None => None
           end
  end.

Fixpoint insert_index (e : N * string) (l : list (N * string)) : list (N * string) :=
  match l with
  | [] => [e]
  | e' :: r => if (fst e <=? fst e')%N then e :: l else e' :: insert_index e r
  end.

Fixpoint index_entries (o : t) : list (N * string) :=
  match o with
  | [] => []
  | (k, v) :: r =>
      match array_index k with
      | Some n => insert_index (n, v) (index_entries r)
      | None => index_entries r
      end
  end.

Fixpoint named_values (o : t) : list string :=
  match o with
  | [] => []
  | (k, v) :: r =>
      match array_index k with
      | Some _ => named_values r
      | None => v :: named_values r
      end
  end.

(** [Object.values(o)]. *)
Definition values (o : t) : list string :=
  (map snd (index_entries o) ++ named_values o)%list.

End JsObject.

(** ** The escaper ([src/util/escape/index.ts]) *)

Module Escape.

Inductive StringContainer := Quote | Backtick | DoubleQuote.

Definition container_char (c : StringContainer) : ascii :=
  match c with
  | Quote => "'"%char
  | Backtick => "`"%char
  | DoubleQuote => ascii_of_nat 34
  end.

(** [s(src, container)]: every backslash is doubled, then every
    occurrence of the container character gets a backslash in front. *)
Definition s (src : string) (container : StringContainer) : string :=
  Js.replace_all (container_char container)
    (Js.backslash ++ String (container_char container) EmptyString)
    (Js.replace_all (ascii_of_nat 92) (Js.backslash ++ Js.backslash) src).

End Escape.

(** ** The canonical data model (DMMF), as far as the generators read it *)

Inductive FieldKind := scalar | object | enum | unsupported.

Definition FieldKind_eqb (a b : FieldKind) : bool :=
  match a, b with
  | scalar, scalar | object, object | enum, enum | unsupported, unsupported => true
  | _, _ => false
  end.

(** [field.default]: a scalar, a list of scalars, or a function call
    [{ name, args }]. *)
Inductive FieldDefault :=
| DefScalar (v : Js.scalar)
| DefList (l : list Js.scalar)
| DefCall (name : string) (args : list Js.scalar).

Module Field.
Record t := mk {
  name : string;
  dbName : option string;
  kind : FieldKind;
  type : string;
  isRequired : bool;
  isList : bool;
  isUnique : bool;
  isId : bool;
  default : option FieldDefault;
  relationName : option string;
  relationFromFields : option (list string);
  relationToFields : option (list string);
  relationOnDelete : option string
}.
End Field.

Module Index.
Record t := mk {
  name : option string;
  fields : list string
}.
End Index.

Module Model.
Record t := mk {
  name : string;
  dbName : option string;
  fields : list Field.t;
  primaryKey : option Index.t;
  uniqueIndexes : list Index.t
}.

(** The model with another list of fields. *)
Definition with_fields (fs : list Field.t) (m : t) : t :=
  mk (name m) (dbName m) fs (primaryKey m) (uniqueIndexes m).
End Model.

Module EnumValue.
Record t := mk {
  name : string;
  dbName : option string
}.
End EnumValue.

Module DatamodelEnum.
Record t := mk {
  name : string;
  dbName : option string;
  values : list EnumValue.t
}.
End DatamodelEnum.

(** The schema text as the AST collaborator ([@mrleebo/prisma-ast])
    presents it to [findByType]: the model blocks with their field
    properties and the attributes of each field. *)
Module Ast.
Record Attribute := mkAttribute {
  attr_group : option string;
  attr_name : string
}.
Record FieldNode := mkField {
  field_name : string;
  attributes : option (list Attribute)
}.
Record ModelNode := mkModel {
  model_name : string;
  properties : list FieldNode
}.

(** [builder.findByType('model', { name })]. *)
Definition findModel (schema : list ModelNode) (name : string) : option ModelNode :=
  find (fun m => String.eqb (model_name m) name) schema.

(** [builder.findByType('field', { name, within })]. *)
Definition findField (within : list FieldNode) (name : string) : option FieldNode :=
  find (fun f => String.eqb (field_name f) name) within.
End Ast.

(** [GeneratorOptions], reduced to [dmmf.datamodel] and [datamodel]. *)
Module GeneratorOptions.
Record t := mk {
  models : list Model.t;
  enums : list DatamodelEnum.t;
  datamodel : list Ast.ModelNode
}.
End GeneratorOptions.

(** ** Exceptions and the module-level import sets *)

Inductive exn :=
| GeneratorError (msg : string)
| Error (msg : string)
| TypeError (msg : string).

(** The two module-scope [Set<string>] constants of a generator module:
    the names imported from the dialect core and from [drizzle-orm]. *)
Record Imports := mkImports {
  coreImports : Js.set;
  drizzleImports : Js.set
}.

(** A computation of a generator module: it reads and extends the import
    sets, and either returns or throws; what was added before a throw
    stays in the sets. *)
Definition M (A : Type) : Type := Imports -> (exn + A) * Imports.

Definition ret {A} (a : A) : M A := fun st => (inr a, st).

Definition throw {A} (e : exn) : M A := fun st => (inl e, st).

Definition bind {A B} (m : M A) (k : A -> M B) : M B :=
  fun st =>
    match m st with
    | (inl e, st') => (inl e, st')
    | (inr a, st') => k a st'
    end.

Declare Scope gen_scope.
Delimit Scope gen_scope with gen.
Notation "x <- m ;; k" := (bind m (fun x => k))
  (at level 61, m at next level, right associativity) : gen_scope.
Notation "m ;;; k" := (bind m (fun _ => k))
  (at level 61, right associativity) : gen_scope.
Local Open Scope gen_scope.

Definition add_core (x : string) : M unit :=
  fun st => (inr tt, mkImports (Js.set_add x (coreImports st)) (drizzleImports st)).

Definition add_drizzle (x : string) : M unit :=
  fun st => (inr tt, mkImports (coreImports st) (Js.set_add x (drizzleImports st))).

Definition get_imports : M Imports := fun st => (inr st, st).

(** The computation throws, whatever the import sets hold. *)
Definition fails {A} (m : M A) : Prop := forall st, exists e, fst (m st) = inl e.

(** [list.map(f)] for a callback with effects. *)
Fixpoint mapM {A B} (f : A -> M B) (l : list A) : M (list B) :=
  match l with
  | [] => ret []
  | x :: r => y <- f x ;; ys <- mapM f r ;; ret (y :: ys)
  end.

(** [list.map(f)] for a callback that also assigns to a local variable
    of the enclosing function. *)
Fixpoint mapAccumM {A B C} (f : A -> C -> M (B * C)) (l : list A) (c : C)
  : M (list B * C) :=
  match l with
  | [] => ret ([], c)
  | x :: r =>
      yc <- f x c ;;
      ysc <- mapAccumM f r (snd yc) ;;
      ret (fst yc :: fst ysc, snd ysc)
  end.

(** [list.filter((e) => e !== undefined)]. *)
Fixpoint somes {A} (l : list (option A)) : list A :=
  match l with
  | [] => []
  | Some x :: r => x :: somes r
  | None :: r => somes r
  end.

(** ** What a run leaves in the import sets

    The vocabulary for statements about successive runs in one process:
    the names a computation adds, and whether its result depends on the
    sets it found. *)

Module Accumulation.

Inductive target := Core | Drizzle.

Definition add_to (e : target * string) (st : Imports) : Imports :=
  match fst e with
  | Core => mkImports (Js.set_add (snd e) (coreImports st)) (drizzleImports st)
  | Drizzle => mkImports (coreImports st) (Js.set_add (snd e) (drizzleImports st))
  end.

Definition adds (w : list (target * string)) (st : Imports) : Imports :=
  fold_left (fun st e => add_to e st) w st.

Definition present (e : target * string) (st : Imports) : bool :=
  match fst e with
  | Core => Js.set_has (snd e) (coreImports st)
  | Drizzle => Js.set_has (snd e) (drizzleImports st)
  end.

(** A computation that adds a fixed list of names and whose result does
    not depend on the sets it started from. *)
Definition accumulates {A} (m : M A) : Prop :=
  exists r w, forall st, m st = (r, adds w st).

(** A computation that adds a fixed list of names and whose result
    depends on the sets only as they are at its end. *)
Definition reads_at_end {A} (m : M A) : Prop :=
  exists (f : Imports -> exn + A) w, forall st, m st = (f (adds w st), adds w st).

End Accumulation.

(** ** The many-to-many synthesizer
    ([src/util/extract-many-to-many-models.ts], in [src/unnamed/part_002]
    from line 259)

    The synthesizer receives the cloned model array and assigns to
    properties of field objects that the array still holds.  A field
    object is therefore named by its place [(model index, field index)]
    in the array, and the array itself is the store that the assignments
    update and that later reads see. *)

Module ManyToMany.

Definition FieldRef := (nat * nat)%type.
Definition Store := list Model.t.

Definition deref (models : Store) (r : FieldRef) : option Field.t :=
  match nth_error models (fst r) with
  | Some m => nth_error (Model.fields m) (snd r)
  | None => None
  end.

Fixpoint update_nth {A} (n : nat) (f : A -> A) (l : list A) : list A :=
  match l, n with
  | [], _ => []
  | x :: r, O => f x :: r
  | x :: r, S n' => x :: update_nth n' f r
  end.

(** Assignment to properties of the field object [r]. *)
Definition assign (r : FieldRef) (f : Field.t -> Field.t) (models : Store) : Store :=
  update_nth (fst r)
    (fun m => Model.with_fields (update_nth (snd r) f (Model.fields m)) m) models.

Definition refs_of_model (i : nat) (m : Model.t) : list FieldRef :=
  map (fun j => (i, j)) (seq 0 (length (Model.fields m))).

Fixpoint refs_from (i : nat) (models : list Model.t) : list FieldRef :=
  match models with
  | [] => []
  | m :: r => (refs_of_model i m ++ refs_from (S i) r)%list
  end.

(** [models.flatMap((model) => model.fields)], as field objects. *)
Definition all_fields (models : Store) : list FieldRef := refs_from 0 models.

Definition relationName_of (models : Store) (r : FieldRef) : option string :=
  match deref models r with
  | Some f => Field.relationName f
  | None => None
  end.

Definition type_of (models : Store) (r : FieldRef) : string :=
  match deref models r with
  | Some f => Field.type f
  | None => "undefined"
  end.

(** [filterManyToManyRelationFields]: the relation fields whose relation
    name is carried by list-valued fields only. *)
Definition filterManyToManyRelationFields (models : Store) : list FieldRef :=
  let fields := all_fields models in
  let relationFields :=
    filter (fun r => Js.truthy_str (relationName_of models r)) fields in
  let nonManyToManyRelationNames :=
    map (fun r => Js.nullish (relationName_of models r) EmptyString)
      (filter (fun r => match deref models r with
                        | Some f => negb (Field.isList f)
                        | None => false
                        end) relationFields) in
  let notManyToMany := Js.set_of_list nonManyToManyRelationNames in
  filter (fun r => negb (Js.set_has (Js.nullish (relationName_of models r) EmptyString)
                           notManyToMany)) relationFields.

Definition find_model (typeName : string) (models : Store) : option Model.t :=
  find (fun m => String.eqb (Model.name m) typeName) models.

Definition find_id (m : Model.t) : option Field.t :=
  find Field.isId (Model.fields m).

Definition getJoinIdType (typeName : string) (models : Store) : exn + string :=
  match find_model typeName models with
  | None => inl (Error "Could not find referenced model of many-to-many relation")
  | Some joinedModel =>
      match find_id joinedModel with
      | None => inl (Error "No ID field on referenced model of many-to-many relation")
      | Some idField => inr (Field.type idField)
      end
  end.

Definition getJoinIdName (typeName : string) (models : Store) : exn + string :=
  match find_model typeName models with
  | None => inl (Error "Could not find referenced model of many-to-many relation")
  | Some joinedModel =>
      match find_id joinedModel with
      | None => inl (Error "No ID field on referenced model of many-to-many relation")
      | Some idField => inr (Field.name idField)
      end
  end.

(** The assignments of [generateJoinFields] to the first field of the
    sorted pair: [isList], [type], [relationName], [relationFromFields]
    and [relationToFields]. *)
Definition rewrite_A (ty rel : string) (f : Field.t) : Field.t :=
  Field.mk (Field.name f) (Field.dbName f) (Field.kind f) ty
    (Field.isRequired f) true (Field.isUnique f) (Field.isId f)
    (Field.default f) (Some rel) (Some []) (Some [])
    (Field.relationOnDelete f).

(** The assignments to the second field: [isList], [type] and
    [relationName] only. *)
Definition rewrite_B (ty rel : string) (f : Field.t) : Field.t :=
  Field.mk (Field.name f) (Field.dbName f) (Field.kind f) ty
    (Field.isRequired f) true (Field.isUnique f) (Field.isId f)
    (Field.default f) (Some rel) (Field.relationFromFields f)
    (Field.relationToFields f) (Field.relationOnDelete f).

(** The second pair of assignments to [A.relationFromFields] and
    [A.relationToFields]. *)
Definition clear_relation_fields (f : Field.t) : Field.t :=
  Field.mk (Field.name f) (Field.dbName f) (Field.kind f) (Field.type f)
    (Field.isRequired f) (Field.isList f) (Field.isUnique f) (Field.isId f)
    (Field.default f) (Field.relationName f) (Some []) (Some [])
    (Field.relationOnDelete f).

Definition join_scalar (name dbName type : string) : Field.t :=
  Field.mk name (Some dbName) scalar type true false false false
    None None None None None.

Definition join_object (name relationName fromField toField : string) : Field.t :=
  Field.mk name None object name true false false false
    None (Some relationName) (Some [fromField]) (Some [toField]) None.

Section WithCollation.
Context {C : Js.Collation}.

(** [sorted(fields, (a, b) => a.type.localeCompare(b.type))] on a pair. *)
Definition sorted_pair (models : Store) (f1 f2 : FieldRef) : FieldRef * FieldRef :=
  match Js.sort_by (type_of models) [f1; f2] with
  | [A; B] => (A, B)
  | _ => (f1, f2)
  end.

Definition generateJoinFields (fields : FieldRef * FieldRef) (models : Store)
  : exn + (list Field.t * Store) :=
  let '(A, B) := sorted_pair models (fst fields) (snd fields) in
  let aTableName := type_of models B in
  let bTableName := type_of models A in
  let manyTableName := type_of models A ++ "To" ++ type_of models B in
  let models1 :=
    assign A (rewrite_A (bTableName ++ "To" ++ aTableName)
                (aTableName ++ "To" ++ manyTableName)) models in
  let models2 :=
    assign B (rewrite_B (bTableName ++ "To" ++ aTableName)
                (bTableName ++ "To" ++ manyTableName)) models1 in
  let models3 := assign A clear_relation_fields models2 in
  match getJoinIdType aTableName models3 with
  | inl e => inl e
  | inr aType =>
  match getJoinIdName aTableName models3 with
  | inl e => inl e
  | inr aId =>
  match getJoinIdType bTableName models3 with
  | inl e => inl e
  | inr bType =>
  match getJoinIdName bTableName models3 with
  | inl e => inl e
  | inr bId =>
      inr ([ join_scalar (aTableName ++ "Id") "A" aType;
             join_object aTableName (aTableName ++ "To" ++ manyTableName)
               (aTableName ++ "Id") aId;
             join_scalar (bTableName ++ "Id") "B" bType;
             join_object bTableName (bTableName ++ "To" ++ manyTableName)
               (bTableName ++ "Id") bId ],
           models3)
  end end end end.

(** [generateModels].  Each call removes the head of the list before it
    recurses on a sublist of the rest, so the recursion is bounded by the
    length of the list, which [extractManyToManyModels] passes as
    [fuel]. *)
Fixpoint generateModels (fuel : nat) (manyToManyFields : list FieldRef)
  (models : Store) (manyToManyTables : list Model.t)
  : exn + (list Model.t * Store) :=
  match fuel with
  | O => inr (manyToManyTables, models)
  | S fuel' =>
  match manyToManyFields with
  | [] => inr (manyToManyTables, models)
  | manyFirst :: rest =>
      match find (fun field => Js.opt_string_eqb (relationName_of models field)
                                 (relationName_of models manyFirst)) rest with
      | None => inr (manyToManyTables, models)
      | Some manySecond =>
          let dbName := "_" ++ Js.show_undefined (relationName_of models manyFirst) in
          let name := type_of models manySecond ++ "To" ++ type_of models manyFirst in
          match generateJoinFields (manyFirst, manySecond) models with
          | inl e => inl e
          | inr (fields, models') =>
              generateModels fuel'
                (filter (fun field =>
                           negb (Js.opt_string_eqb (relationName_of models' field)
                                   (relationName_of models' manyFirst))) rest)
                models'
                (manyToManyTables ++ [Model.mk name (Some dbName) fields None []])%list
          end
      end
  end
  end.

(** [extractManyToManyModels]: the synthesized join models, together
    with the model array after the assignments. *)
Definition extractManyToManyModels (models : Store) : exn + (list Model.t * Store) :=
  let manyToManyFields := filterManyToManyRelationFields models in
  match manyToManyFields with
  | [] => inr ([], models)
  | _ => generateModels (S (length manyToManyFields)) manyToManyFields models []
  end.

End WithCollation.

End ManyToMany.

(** ** A collation for concrete runs

    On identifiers (ASCII letters, digits and the underscore) the default
    collation of the host orders by letters without regard to case, the
    underscore before the digits and the digits before the letters, and
    lets a lower case letter precede its upper case form only when the
    strings are otherwise equal.  The general theorems below hold for
    every collation; this one evaluates the concrete runs. *)

Module IdentifierCollation.

Definition weight (c : ascii) : nat :=
  let n := nat_of_ascii c in
  if (n =? 95)%nat then 200
  else if ((48 <=? n) && (n <=? 57))%nat then 201 + (n - 48)
  else if ((65 <=? n) && (n <=? 90))%nat then 211 + (n - 65)
  else if ((97 <=? n) && (n <=? 122))%nat then 211 + (n - 97)
  else if (n <? 128)%nat then n
  else 1000 + n.

Fixpoint primary (a b : string) : comparison :=
  match a, b with
  | EmptyString, EmptyString => Eq
  | EmptyString, String _ _ => Lt
  | String _ _, EmptyString => Gt
  | String x a', String y b' =>
      match Nat.compare (weight x) (weight y) with
      | Eq => primary a' b'
      | c => c
      end
  end.

(** Among strings equal up to case: at the first difference the lower
    case letter (the larger code) comes first. *)
Fixpoint tertiary (a b : string) : comparison :=
  match a, b with
  | String x a', String y b' =>
      match Nat.compare (nat_of_ascii y) (nat_of_ascii x) with
      | Eq => tertiary a' b'
      | c => c
      end
  | _, _ => Eq
  end.

Definition compare (a b : string) : comparison :=
  match primary a b with
  | Eq => tertiary a b
  | c => c
  end.

Definition collation : Js.Collation := {| Js.localeCompare := compare |}.

End IdentifierCollation.

(** ** Text fragments that the three generator modules spell alike *)

Module Common.

(** [list.map((rel) => `${table}.${rel}`).join(', ')]. *)
Definition qualified (table : string) (cols : list string) : string :=
  Js.join ", " (map (fun rel => table ++ "." ++ rel) cols).

(** The [switch (field.relationOnDelete)] of the foreign-key callback;
    [None] stands for the [default:] branch, which throws. *)
Definition deleteAction_of (dialectHasSetDefault : bool)
  (relationOnDelete : option string) : option string :=
  match relationOnDelete with
  | None => Some "cascade"
  | Some a =>
      if String.eqb a "Cascade" then Some "cascade"
      else if String.eqb a "SetNull" then Some "set null"
      else if dialectHasSetDefault && String.eqb a "SetDefault" then Some "set default"
      else if String.eqb a "Restrict" then Some "restrict"
      else if String.eqb a "NoAction" then Some "no action"
      else None
  end.

(** What [field.relationToFields!.map(...)] throws on a field without
    that list. *)
Definition undefined_map : exn :=
  TypeError "Cannot read properties of undefined (reading 'map')".

(** The object literal of a foreign-key declaration:
    [foreignKey({ name, columns, foreignColumns })]. *)
Definition fk_object (fkeyName table : string) (fromFields : list string)
  (otherTable : string) (toFields : list string) : string :=
  "foreignKey({" ++ Js.nl ++ Js.tab ++ Js.tab ++ "name: '" ++ fkeyName ++ "',"
  ++ Js.nl ++ Js.tab ++ Js.tab ++ "columns: [" ++ qualified table fromFields ++ "],"
  ++ Js.nl ++ Js.tab ++ Js.tab ++ "foreignColumns: ["
  ++ qualified otherTable toFields ++ "]" ++ Js.nl ++ Js.tab ++ "})".

(** The calls chained on the declaration:
    [${deleteAction && deleteAction !== 'no action'
        ? `\n\t\t.onDelete('${deleteAction}')` : ''}\n\t\t.onUpdate('cascade')]. *)
Definition fk_actions (deleteAction : string) : string :=
  (if negb (String.eqb deleteAction EmptyString)
      && negb (String.eqb deleteAction "no action")
   then Js.nl ++ Js.tab ++ Js.tab ++ ".onDelete('" ++ deleteAction ++ "')"
   else EmptyString)
  ++ Js.nl ++ Js.tab ++ Js.tab ++ ".onUpdate('cascade')".

(** The key of a unique-index declaration:
    [idx.name ? idxName : `${idxName.slice(0, idxName.length - 4)}_unique_idx`]. *)
Definition unique_key (name : option string) (idxName : string) : string :=
  if Js.truthy_str name then idxName
  else Js.drop_last 4 idxName ++ "_unique_idx".

(** [`${schemaTable.name}_${idx.fields.join('_')}_key`], the name of a
    unique index that has none. *)
Definition default_unique_name (table : string) (fields : list string) : string :=
  table ++ "_" ++ Js.join "_" fields ++ "_key".

Definition unique_decl (key idxName table : string) (fields : list string) : string :=
  Js.tab ++ "'" ++ key ++ "': uniqueIndex('" ++ idxName ++ "')"
  ++ Js.nl ++ Js.tab ++ Js.tab ++ ".on(" ++ qualified table fields ++ ")".

Definition primaryKey_decl (pkName table : string) (fields : list string) : string :=
  Js.tab ++ "'" ++ pkName ++ "': primaryKey({" ++ Js.nl ++ Js.tab ++ Js.tab
  ++ "name: '" ++ pkName ++ "'," ++ Js.nl ++ Js.tab ++ Js.tab ++ "columns: ["
  ++ qualified table fields ++ "]" ++ Js.nl ++ Js.tab ++ "})".

(** [export const T = ctor('db', { columns }, (T) => ({ indexes }));]. *)
Definition table_decl (ctor name tableDbName : string) (columns indexes : list string)
  : string :=
  "export const " ++ name ++ " = " ++ ctor ++ "('" ++ tableDbName ++ "', {" ++ Js.nl
  ++ Js.join ("," ++ Js.nl) columns ++ Js.nl ++ "}"
  ++ (if (0 <? length indexes)%nat
      then ", (" ++ name ++ ") => ({" ++ Js.nl ++ Js.join ("," ++ Js.nl) indexes
           ++ Js.nl ++ "})"
      else EmptyString)
  ++ ");".

(** [field.relationFromFields?.length] as a condition. *)
Definition owns_keys (field : Field.t) : bool :=
  match Field.relationFromFields field with
  | Some (_ :: _) => true
  | _ => false
  end.

(** [schemaTable.fields.filter((field) => field.relationToFields &&
    field.relationFromFields)]. *)
Definition is_relField (field : Field.t) : bool :=
  match Field.relationToFields field, Field.relationFromFields field with
  | Some _, Some _ => true
  | _, _ => false
  end.

(** The body of a relation-query entry: [one(...)] for the owning side,
    [many(...)] otherwise. The generators build it for the elements of
    [relFields] only, which have both lists of field names. *)
Definition rqb_body (table : string) (field : Field.t) (relName : string) : string :=
  if owns_keys field
  then "one(" ++ Field.type field ++ ", {" ++ Js.nl ++ Js.tab ++ Js.tab
       ++ "relationName: '" ++ relName ++ "'," ++ Js.nl ++ Js.tab ++ Js.tab
       ++ "fields: [" ++ qualified table (Js.nullish (Field.relationFromFields field) [])
       ++ "]," ++ Js.nl ++ Js.tab ++ Js.tab ++ "references: ["
       ++ qualified (Field.type field) (Js.nullish (Field.relationToFields field) [])
       ++ "]" ++ Js.nl ++ Js.tab ++ "})"
  else "many(" ++ Field.type field ++ ", {" ++ Js.nl ++ Js.tab ++ Js.tab
       ++ "relationName: '" ++ relName ++ "'" ++ Js.nl ++ Js.tab ++ "})".

(** [relationArgs]: the set of combinators the entries of a table use. *)
Definition relationArgs (relFields : list Field.t) : Js.set :=
  fold_left (fun s field => Js.set_add (if owns_keys field then "one" else "many") s)
    relFields [].

Definition rqb_decl (name argString rqbFields : string) : string :=
  "export const " ++ name ++ "Relations = relations(" ++ name ++ ", ({ "
  ++ argString ++ " }) => ({" ++ Js.nl ++ rqbFields ++ Js.nl ++ "}));".

(** The flag modifiers shared by every branch of [addColumnModifiers]. *)
Definition flag_modifiers (field : Field.t) (column : string) : string :=
  let column := if Field.isRequired field then column ++ ".notNull()" else column in
  let column := if Field.isId field then column ++ ".primaryKey()" else column in
  if Field.isUnique field then column ++ ".unique()" else column.

Definition tabs6 : string :=
  Js.tab ++ Js.tab ++ Js.tab ++ Js.tab ++ Js.tab ++ Js.tab.

(** [s(value.args[0], '`')]: the escaper calls [src.replace], which
    exists on strings only. *)
Definition escaped_first_arg (args : list Js.scalar) : M string :=
  match args with
  | Js.JStr a :: _ => ret (Escape.s a Escape.Backtick)
  | [] => throw (TypeError "Cannot read properties of undefined (reading 'replace')")
  | _ => throw (TypeError "src.replace is not a function")
  end.

(** The condition of the one-column shortcut of the MySQL and SQLite
    modules: [field.relationFromFields.length == 1 &&
    field.relationToFields?.length == 1]. *)
Definition one_column (field : Field.t) : bool :=
  match Field.relationFromFields field, Field.relationToFields field with
  | Some [_], Some [_] => true
  | _, _ => false
  end.

(** [s(`${schemaTable.dbName ?? schemaTable.name}_${field.dbName ?? field.name}_fkey`)]
    of the Postgres and SQLite modules. *)
Definition escaped_fkeyName (schemaTable : Model.t) (field : Field.t) : string :=
  Escape.s (Js.nullish (Model.dbName schemaTable) (Model.name schemaTable) ++ "_"
            ++ Js.nullish (Field.dbName field) (Field.name field) ++ "_fkey")
    Escape.Quote.

(** The unique-index, primary-key and relation-query callbacks as the
    Postgres and SQLite modules spell them, with the escaper applied to
    the names. *)
Definition escaped_unique_decl (schemaTable : Model.t) (idx : Index.t) : string :=
  let idxName :=
    Escape.s (Js.nullish (Index.name idx)
                (default_unique_name (Model.name schemaTable) (Index.fields idx)))
      Escape.Quote in
  unique_decl (unique_key (Index.name idx) idxName) idxName
    (Model.name schemaTable) (Index.fields idx).

Definition escaped_uniques (schemaTable : Model.t) : M (list string) :=
  match Model.uniqueIndexes schemaTable with
  | [] => ret []
  | idxs => add_core "uniqueIndex" ;;; ret (map (escaped_unique_decl schemaTable) idxs)
  end.

Definition escaped_primaryKey (schemaTable : Model.t) : M (list string) :=
  match Model.primaryKey schemaTable with
  | None => ret []
  | Some pk =>
      add_core "primaryKey" ;;;
      let pkName :=
        Escape.s (Js.nullish (Index.name pk) (Model.name schemaTable ++ "_cpk"))
          Escape.Quote in
      ret [primaryKey_decl pkName (Model.name schemaTable) (Index.fields pk)]
  end.

Definition escaped_rqb_field (schemaTable : Model.t) (field : Field.t) : string :=
  let relName := Escape.s (Js.nullish (Field.relationName field) EmptyString) Escape.Quote in
  Js.tab ++ Field.name field ++ ": "
  ++ rqb_body (Model.name schemaTable) field relName.

Section WithCollation.
Context {C : Js.Collation}.

(** [Array.from(set.values()).sort((a, b) => a.localeCompare(b))]. *)
Definition sorted_names (s : Js.set) : list string := Js.sort_by (fun x => x) s.

Definition import_line (names : Js.set) (source : string) : option string :=
  match sorted_names names with
  | [] => None
  | arr => Some ("import { " ++ Js.join ", " arr ++ " } from '" ++ source ++ "'")
  end.

(** The import block: both lines joined by a line break, [undefined]
    when empty. *)
Definition importsStr (st : Imports) (coreSource : string) : option string :=
  let str := Js.join Js.nl
               (somes [import_line (drizzleImports st) "drizzle-orm";
                       import_line (coreImports st) coreSource]) in
  if (String.length str =? 0)%nat then None else Some str.

(** [[importsStr, ...blocks].filter((e) => e !== undefined).join('\n\n')]. *)
Definition emit (st : Imports) (coreSource : string) (blocks : list string) : string :=
  Js.join (Js.nl ++ Js.nl)
    (somes (importsStr st coreSource :: map Some blocks)).

End WithCollation.

End Common.

(** ** The MySQL generator ([src/util/generators/mysql.ts], lines 1 to 266) *)

Module MySql.

(** [const mySqlImports = new Set(['mysqlTable'])] and
    [const drizzleImports = new Set([])], as the module is loaded. *)
Definition initial : Imports := mkImports (Js.set_of_list ["mysqlTable"]) [].

(** The [case] labels of the [switch (type)] of [prismaToDrizzleType]. *)
Definition case_labels : list string :=
  ["BigInt"; "Boolean"; "Bytes"; "DateTime"; "Decimal"; "Float"; "JSON"; "Int"; "String"].

Definition enum_values (prismaEnum : DatamodelEnum.t) : string :=
  Js.join ", "
    (map (fun val => "'" ++ Js.nullish (EnumValue.dbName val) (EnumValue.name val) ++ "'")
       (DatamodelEnum.values prismaEnum)).

Definition prismaToDrizzleType (type colDbName : string)
  (prismaEnum : option DatamodelEnum.t) : M (option string) :=
  match prismaEnum with
  | Some prismaEnum =>
      add_core "mysqlEnum" ;;;
      ret (Some ("mysqlEnum('" ++ colDbName ++ "', [" ++ enum_values prismaEnum ++ "])"))
  | None =>
      if String.eqb type "BigInt" then
        add_core "bigint" ;;;
        ret (Some ("bigint('" ++ colDbName ++ "', { mode: 'bigint' })"))
      else if String.eqb type "Boolean" then
        add_core "boolean" ;;;
        ret (Some ("boolean('" ++ colDbName ++ "')"))
      else if String.eqb type "Bytes" then
        throw (GeneratorError "Drizzle ORM doesn't support binary data type for MySQL")
      else if String.eqb type "DateTime" then
        add_core "datetime" ;;;
        ret (Some ("datetime('" ++ colDbName ++ "', { fsp: 3 })"))
      else if String.eqb type "Decimal" then
        add_core "decimal" ;;;
        ret (Some ("decimal('" ++ colDbName ++ "', { precision: 65, scale: 30 })"))
      else if String.eqb type "Float" then
        add_core "double" ;;;
        ret (Some ("double('" ++ colDbName ++ "')"))
      else if String.eqb type "JSON" then
        add_core "json" ;;;
        ret (Some ("json('" ++ colDbName ++ "')"))
      else if String.eqb type "Int" then
        add_core "int" ;;;
        ret (Some ("int('" ++ colDbName ++ "')"))
      else if String.eqb type "String" then
        add_core "varchar" ;;;
        ret (Some ("varchar('" ++ colDbName ++ "', { length: 191 })"))
      else ret None
  end.

Definition addColumnModifiers (field : Field.t) (column : string) : M string :=
  let column := Common.flag_modifiers field column in
  match Field.default field with
  | None => ret column
  | Some (DefScalar defVal) =>
      if Js.truthy defVal
      then ret (column ++ ".default(" ++ Js.JSON_stringify defVal ++ ")")
      else ret column
  | Some (DefList defVal) =>
      add_drizzle "sql" ;;;
      ret (column ++ ".default(" ++ Js.nl ++ Common.tabs6 ++ "sql`ARRAY["
           ++ Js.join "," (map Js.to_String defVal) ++ "]`))")
  | Some (DefCall name args) =>
      if String.eqb name "now" then
        ret (column ++ ".default(sql`CURRENT_TIMESTAMP`)")
      else if String.eqb name "autoincrement" then
        ret (column ++ ".autoincrement()")
      else if String.eqb name "dbgenerated" then
        add_drizzle "sql" ;;;
        ret (column ++ ".default(sql`"
             ++ Js.show_undefined (option_map Js.to_String (hd_error args)) ++ "`)")
      else
        let stringified := name ++ "(" ++ Js.join ", " (map Js.to_String args) ++ ")" in
        let sequel := "sql`" ++ stringified ++ "`" in
        add_drizzle "sql" ;;;
        ret (column ++ ".default(" ++ sequel ++ ")")
  end.

Definition find_enum (enums : list DatamodelEnum.t) (type : string)
  : option DatamodelEnum.t :=
  find (fun e => String.eqb (DatamodelEnum.name e) type) enums.

Definition prismaToDrizzleColumn (field : Field.t) (enums : list DatamodelEnum.t)
  : M (option string) :=
  let colDbName := Js.nullish (Field.dbName field) (Field.name field) in
  let column := Js.tab ++ Field.name field ++ ": " in
  drizzleType <-
    prismaToDrizzleType (Field.type field) colDbName
      (if FieldKind_eqb (Field.kind field) enum
       then find_enum enums (Field.type field) else None) ;;
  match drizzleType with
  | None => ret None
  | Some drizzleType =>
      column <- addColumnModifiers field (column ++ drizzleType) ;;
      ret (Some column)
  end.

(** [schemaTable.fields.map((e) => [e.name, prismaToDrizzleColumn(e, enums)])
      .filter((e) => e[1] !== undefined)]. *)
Definition column_entries (fields : list Field.t) (enums : list DatamodelEnum.t)
  : M (list (string * string)) :=
  cols <- mapM (fun e => c <- prismaToDrizzleColumn e enums ;;
                         ret (option_map (fun c => (Field.name e, c)) c)) fields ;;
  ret (somes cols).

(** [`${schemaTable.dbName ?? schemaTable.name}_${field.dbName ?? field.name}_fkey`]. *)
Definition fkeyName (schemaTable : Model.t) (field : Field.t) : string :=
  Js.nullish (Model.dbName schemaTable) (Model.name schemaTable) ++ "_"
  ++ Js.nullish (Field.dbName field) (Field.name field) ++ "_fkey".

(** The callback of [relFields.map]: a relation from one column to one
    column is appended to that column as [.references(...)] and yields
    no declaration; any other owning relation yields a [foreignKey]
    declaration. *)
Definition relation_decl (schemaTable : Model.t) (field : Field.t)
  (columnFields : JsObject.t) : M (option string * JsObject.t) :=
  match Field.relationFromFields field with
  | None | Some [] => ret (None, columnFields)
  | Some ((thisField :: moreFrom) as fromFields) =>
      match moreFrom, Field.relationToFields field with
      | [], Some [otherField] =>
          let otherTable := Field.type field in
          ret (None,
               JsObject.assign thisField
                 (JsObject.read thisField columnFields
                  ++ ".references(() => " ++ otherTable ++ "." ++ otherField ++ ")")
                 columnFields)
      | _, toFields =>
          let fkeyName := fkeyName schemaTable field in
          match Common.deleteAction_of false (Field.relationOnDelete field) with
          | None =>
              throw (GeneratorError
                       ("Unknown delete action on relation " ++ fkeyName ++ ": "
                        ++ Js.show_undefined (Field.relationOnDelete field)))
          | Some deleteAction =>
              add_core "foreignKey" ;;;
              match toFields with
              | None => throw Common.undefined_map
              | Some toFields =>
                  ret (Some (Js.tab ++ fkeyName ++ ": "
                             ++ Common.fk_object fkeyName (Model.name schemaTable)
                                  fromFields (Field.type field) toFields
                             ++ Common.fk_actions deleteAction),
                       columnFields)
              end
          end
      end
  end.

Definition unique_decl (schemaTable : Model.t) (idx : Index.t) : string :=
  let idxName :=
    Js.nullish (Index.name idx)
      (Common.default_unique_name (Model.name schemaTable) (Index.fields idx)) in
  Common.unique_decl (Common.unique_key (Index.name idx) idxName) idxName
    (Model.name schemaTable) (Index.fields idx).

Definition uniques (schemaTable : Model.t) : M (list string) :=
  match Model.uniqueIndexes schemaTable with
  | [] => ret []
  | idxs => add_core "uniqueIndex" ;;; ret (map (unique_decl schemaTable) idxs)
  end.

Definition primaryKey (schemaTable : Model.t) : M (list string) :=
  match Model.primaryKey schemaTable with
  | None => ret []
  | Some pk =>
      add_core "primaryKey" ;;;
      let pkName := Js.nullish (Index.name pk) (Model.name schemaTable ++ "_cpk") in
      ret [Common.primaryKey_decl pkName (Model.name schemaTable) (Index.fields pk)]
  end.

Definition rqb_field (schemaTable : Model.t) (field : Field.t) : string :=
  Js.tab ++ "'" ++ Js.show_undefined (Field.relationName field) ++ "': "
  ++ Common.rqb_body (Model.name schemaTable) field
       (Js.show_undefined (Field.relationName field)).

(** One turn of the loop over [modelsWithImplicit]: the table
    declaration and, when the table has relation fields, its relations
    declaration. *)
Definition table_step (enums : list DatamodelEnum.t) (schemaTable : Model.t)
  : M (string * option string) :=
  let tableDbName := Js.nullish (Model.dbName schemaTable) (Model.name schemaTable) in
  entries <- column_entries (Model.fields schemaTable) enums ;;
  let columnFields := JsObject.fromEntries entries in
  let relFields := filter Common.is_relField (Model.fields schemaTable) in
  rels <- mapAccumM (relation_decl schemaTable) relFields columnFields ;;
  let relations := somes (fst rels) in
  let columnFields := snd rels in
  uniq <- uniques schemaTable ;;
  pk <- primaryKey schemaTable ;;
  let indexes := (relations ++ uniq ++ pk)%list in
  let table :=
    Common.table_decl "mysqlTable" (Model.name schemaTable) tableDbName
      (JsObject.values columnFields) indexes in
  match relFields with
  | [] => ret (table, None)
  | _ =>
      add_drizzle "relations" ;;;
      let rqbFields := Js.join ("," ++ Js.nl) (map (rqb_field schemaTable) relFields) in
      let argString := Js.join ", " (Common.relationArgs relFields) in
      ret (table, Some (Common.rqb_decl (Model.name schemaTable) argString rqbFields))
  end.

Section WithCollation.
Context {C : Js.Collation}.

(** [generateMySqlSchema]. The loop pushes to [tables] and [rqb]; the
    output lists the import block, all tables, then all relations. *)
Definition generateMySqlSchema (options : GeneratorOptions.t) : M string :=
  match ManyToMany.extractManyToManyModels (GeneratorOptions.models options) with
  | inl e => throw e
  | inr (manyToManyModels, clonedModels) =>
      let modelsWithImplicit := (clonedModels ++ manyToManyModels)%list in
      steps <- mapM (table_step (GeneratorOptions.enums options)) modelsWithImplicit ;;
      let tables := map fst steps in
      let rqb := somes (map snd steps) in
      st <- get_imports ;;
      ret (Common.emit st "drizzle-orm/mysql-core" (tables ++ rqb)%list)
  end.

End WithCollation.

End MySql.

(** ** The Postgres generator ([src/unnamed/part_001], lines 1 to 320) *)

Module Pg.

(** [const pgImports = new Set(); pgImports.add('pgTable')] and
    [const drizzleImports = new Set()]. *)
Definition initial : Imports := mkImports (Js.set_add "pgTable" []) [].

(** The [case] labels of the [switch (type.toLowerCase())] of
    [prismaToDrizzleType]. *)
Definition case_labels : list string :=
  ["bigint"; "boolean"; "bytes"; "datetime"; "decimal"; "float"; "json"; "int"; "string"].

Definition prismaToDrizzleType (type colDbName : string) (defVal nativeType : option string)
  : M (option string) :=
  let type := Js.toLowerCase type in
  if String.eqb type "bigint" then
    add_core "bigint" ;;;
    ret (Some ("bigint('" ++ colDbName ++ "', { mode: 'bigint' })"))
  else if String.eqb type "boolean" then
    add_core "boolean" ;;;
    ret (Some ("boolean('" ++ colDbName ++ "')"))
  else if String.eqb type "bytes" then
    throw (GeneratorError "Drizzle ORM doesn't support binary data type for PostgreSQL")
  else if String.eqb type "datetime" then
    if Js.truthy_str nativeType then
      let nativeType := Js.nullish nativeType EmptyString in
      add_core nativeType ;;;
      ret (Some (nativeType ++ "('" ++ colDbName ++ "', { precision: 3 })"))
    else
      add_core "timestamp" ;;;
      ret (Some ("timestamp('" ++ colDbName ++ "', { precision: 3 })"))
  else if String.eqb type "decimal" then
    add_core "decimal" ;;;
    ret (Some ("decimal('" ++ colDbName ++ "', { precision: 65, scale: 30 })"))
  else if String.eqb type "float" then
    add_core "doublePrecision" ;;;
    ret (Some ("doublePrecision('" ++ colDbName ++ "')"))
  else if String.eqb type "json" then
    add_core "jsonb" ;;;
    ret (Some ("jsonb('" ++ colDbName ++ "')"))
  else if String.eqb type "int" then
    if Js.opt_string_eqb defVal (Some "autoincrement") then
      add_core "serial" ;;;
      ret (Some ("serial('" ++ colDbName ++ "')"))
    else
      add_core "integer" ;;;
      ret (Some ("integer('" ++ colDbName ++ "')"))
  else if String.eqb type "string" then
    add_core "text" ;;;
    ret (Some ("text('" ++ colDbName ++ "')"))
  else ret None.

Definition flag_modifiers (field : Field.t) (column : string) : string :=
  let column := if Field.isList field then column ++ ".array()" else column in
  Common.flag_modifiers field column.

Fixpoint all_digits (s : string) : bool :=
  match s with
  | EmptyString => true
  | String c r =>
      let n := nat_of_ascii c in
      ((48 <=? n) && (n <=? 57))%nat && all_digits r
  end.

(** [/^uuid\([0-9]*\)$/.test(name)]. *)
Definition is_uuid_call (name : string) : bool :=
  prefix "uuid(" name && Js.endsWith name ")"
  && all_digits (substring 5 (String.length name - 6) name).

(** The text of a call of an unrecognised default function. *)
Definition stringified_call (name : string) (args : list Js.scalar) : string :=
  name ++ match args with
          | _ :: _ => "(" ++ Js.join ", " (map Js.to_String args) ++ ")"
          | [] => if Js.endsWith name ")" then EmptyString else "()"
          end.

Definition addColumnModifiers (field : Field.t) (column : string) : M string :=
  let column := flag_modifiers field column in
  match Field.default field with
  | None => ret column
  | Some (DefScalar defVal) =>
      if Js.truthy defVal
      then ret (column ++ ".default(" ++ Js.JSON_stringify defVal ++ ")")
      else ret column
  | Some (DefList defVal) =>
      ret (column ++ ".default([" ++ Js.join ", " (map Js.JSON_stringify defVal) ++ "])")
  | Some (DefCall name args) =>
      if String.eqb name "now" then ret (column ++ ".defaultNow()")
      else if String.eqb name "autoincrement" then ret column
      else if String.eqb name "dbgenerated" then
        arg <- Common.escaped_first_arg args ;;
        add_drizzle "sql" ;;;
        ret (column ++ ".default(sql`" ++ arg ++ "`)")
      else if is_uuid_call name then
        add_drizzle "sql" ;;;
        ret (column ++ ".default(sql`uuid()`)")
      else
        let sequel := "sql`" ++ Escape.s (stringified_call name args) Escape.Backtick ++ "`" in
        add_drizzle "sql" ;;;
        ret (column ++ ".default(" ++ sequel ++ ")")
  end.

Definition prismaToDrizzleColumn (field : Field.t) (nativeType : option string)
  : M (option string) :=
  let colDbName := Escape.s (Js.nullish (Field.dbName field) (Field.name field)) Escape.Quote in
  let column := Js.tab ++ Field.name field ++ ": " in
  if FieldKind_eqb (Field.kind field) enum then
    column <- addColumnModifiers field (column ++ Field.type field ++ "('" ++ colDbName ++ "')") ;;
    ret (Some column)
  else
    let defVal := match Field.default field with
                  | Some (DefCall name _) => Some name
                  | _ => None
                  end in
    drizzleType <- prismaToDrizzleType (Field.type field) colDbName defVal nativeType ;;
    match drizzleType with
    | None => ret None
    | Some drizzleType =>
        column <- addColumnModifiers field (column ++ drizzleType) ;;
        ret (Some column)
    end.

(** [export const E = pgEnum('db', ['v', ...])] for an enum with values. *)
Definition enum_decl (schemaEnum : DatamodelEnum.t) : string :=
  let enumDbName :=
    Escape.s (Js.nullish (DatamodelEnum.dbName schemaEnum) (DatamodelEnum.name schemaEnum))
      Escape.Quote in
  "export const " ++ DatamodelEnum.name schemaEnum ++ " = pgEnum('" ++ enumDbName ++ "', ["
  ++ Js.join ", "
       (map (fun e => "'" ++ Js.nullish (EnumValue.dbName e) (EnumValue.name e) ++ "'")
          (DatamodelEnum.values schemaEnum))
  ++ "])".

Definition pgEnum_step (schemaEnum : DatamodelEnum.t) : M (option string) :=
  match DatamodelEnum.values schemaEnum with
  | [] => ret None
  | _ => add_core "pgEnum" ;;; ret (Some (enum_decl schemaEnum))
  end.

(** [fieldAst.attributes?.find((attr) => attr.group === 'db')?.name.toLowerCase()]. *)
Definition native_type (fieldAst : Ast.FieldNode) : option string :=
  match Ast.attributes fieldAst with
  | None => None
  | Some attrs =>
      option_map (fun a => Js.toLowerCase (Ast.attr_name a))
        (find (fun attr => Js.opt_string_eqb (Ast.attr_group attr) (Some "db")) attrs)
  end.

Definition column_entry (modelAst : Ast.ModelNode) (field : Field.t)
  : M (option (string * string)) :=
  match Ast.findField (Ast.properties modelAst) (Field.name field) with
  | None => throw (Error ("Model " ++ Ast.model_name modelAst ++ " not found in schema"))
  | Some fieldAst =>
      c <- prismaToDrizzleColumn field (native_type fieldAst) ;;
      ret (option_map (fun c => (Field.name field, c)) c)
  end.

Definition column_entries (modelAst : Ast.ModelNode) (fields : list Field.t)
  : M (list (string * string)) :=
  cols <- mapM (column_entry modelAst) fields ;;
  ret (somes cols).

(** The callback of [relFields.map]: every owning relation yields a
    [foreignKey] declaration. *)
Definition relation_decl (schemaTable : Model.t) (field : Field.t) : M (option string) :=
  match Field.relationFromFields field with
  | None | Some [] => ret None
  | Some fromFields =>
      let fkeyName := Common.escaped_fkeyName schemaTable field in
      match Common.deleteAction_of true (Field.relationOnDelete field) with
      | None =>
          throw (GeneratorError
                   ("Unknown delete action on relation " ++ fkeyName ++ ": "
                    ++ Js.show_undefined (Field.relationOnDelete field)))
      | Some deleteAction =>
          add_core "foreignKey" ;;;
          match Field.relationToFields field with
          | None => throw Common.undefined_map
          | Some toFields =>
              ret (Some (Js.tab ++ "'" ++ fkeyName ++ "': "
                         ++ Common.fk_object fkeyName (Model.name schemaTable) fromFields
                              (Field.type field) toFields
                         ++ Common.fk_actions deleteAction))
          end
      end
  end.

Definition uniques := Common.escaped_uniques.
Definition primaryKey := Common.escaped_primaryKey.
Definition rqb_field := Common.escaped_rqb_field.

Definition table_step (schema : list Ast.ModelNode) (schemaTable : Model.t)
  : M (string * option string) :=
  match Ast.findModel schema (Model.name schemaTable) with
  | None => throw (Error ("Model " ++ Model.name schemaTable ++ " not found in schema"))
  | Some modelAst =>
      let tableDbName :=
        Escape.s (Js.nullish (Model.dbName schemaTable) (Model.name schemaTable))
          Escape.Quote in
      entries <- column_entries modelAst (Model.fields schemaTable) ;;
      let columnFields := JsObject.fromEntries entries in
      let relFields := filter Common.is_relField (Model.fields schemaTable) in
      rels <- mapM (relation_decl schemaTable) relFields ;;
      let relations := somes rels in
      uniq <- uniques schemaTable ;;
      pk <- primaryKey schemaTable ;;
      let indexes := (relations ++ uniq ++ pk)%list in
      let table :=
        Common.table_decl "pgTable" (Model.name schemaTable) tableDbName
          (JsObject.values columnFields) indexes in
      match relFields with
      | [] => ret (table, None)
      | _ =>
          add_drizzle "relations" ;;;
          let rqbFields := Js.join ("," ++ Js.nl) (map (rqb_field schemaTable) relFields) in
          let argString := Js.join ", " (Common.relationArgs relFields) in
          ret (table, Some (Common.rqb_decl (Model.name schemaTable) argString rqbFields))
      end
  end.

Section WithCollation.
Context {C : Js.Collation}.

(** [generatePgSchema]. *)
Definition generatePgSchema (options : GeneratorOptions.t) : M string :=
  match ManyToMany.extractManyToManyModels (GeneratorOptions.models options) with
  | inl e => throw e
  | inr (manyToManyModels, clonedModels) =>
      let modelsWithImplicit := (clonedModels ++ manyToManyModels)%list in
      enumSteps <- mapM pgEnum_step (GeneratorOptions.enums options) ;;
      let pgEnums := somes enumSteps in
      steps <- mapM (table_step (GeneratorOptions.datamodel options)) modelsWithImplicit ;;
      let tables := map fst steps in
      let rqb := somes (map snd steps) in
      st <- get_imports ;;
      ret (Common.emit st "drizzle-orm/pg-core" (pgEnums ++ tables ++ rqb)%list)
  end.

End WithCollation.

End Pg.

(** ** The SQLite generator ([src/unnamed/part_002], lines 1 to 258) *)

Module SQLite.

(** [const sqliteImports = new Set(['sqliteTable'])] and
    [const drizzleImports = new Set([])]. *)
Definition initial : Imports := mkImports (Js.set_of_list ["sqliteTable"]) [].

(** The [case] labels of the [switch (type.toLowerCase())] of
    [prismaToDrizzleType]. *)
Definition case_labels : list string :=
  ["bigint"; "boolean"; "bytes"; "datetime"; "decimal"; "float"; "json"; "int"; "string"].

Definition prismaToDrizzleType (type colDbName : string) : M (option string) :=
  let type := Js.toLowerCase type in
  if String.eqb type "bigint" then
    add_core "int" ;;;
    ret (Some ("int('" ++ colDbName ++ "')"))
  else if String.eqb type "boolean" then
    add_core "int" ;;;
    ret (Some ("int('" ++ colDbName ++ "', { mode: 'boolean' })"))
  else if String.eqb type "bytes" then
    add_core "blob" ;;;
    ret (Some ("blob('" ++ colDbName ++ "', { mode: 'buffer' })"))
  else if String.eqb type "datetime" then
    add_core "numeric" ;;;
    ret (Some ("numeric('" ++ colDbName ++ "')"))
  else if String.eqb type "decimal" then
    add_core "numeric" ;;;
    ret (Some ("numeric('" ++ colDbName ++ "')"))
  else if String.eqb type "float" then
    add_core "real" ;;;
    ret (Some ("real('" ++ colDbName ++ "')"))
  else if String.eqb type "json" then
    add_core "text" ;;;
    ret (Some ("text('" ++ colDbName ++ "', { mode: 'json' })"))
  else if String.eqb type "int" then
    add_core "int" ;;;
    ret (Some ("int('" ++ colDbName ++ "')"))
  else if String.eqb type "string" then
    add_core "text" ;;;
    ret (Some ("text('" ++ colDbName ++ "')"))
  else ret None.

Definition addColumnModifiers (field : Field.t) (column : string) : M string :=
  let column := Common.flag_modifiers field column in
  match Field.default field with
  | None => ret column
  | Some (DefScalar defVal) =>
      if Js.truthy defVal
      then ret (column ++ ".default(" ++ Js.JSON_stringify defVal ++ ")")
      else ret column
  | Some (DefList defVal) =>
      add_drizzle "sql" ;;;
      ret (column ++ ".default(" ++ Js.nl ++ Common.tabs6 ++ "sql`ARRAY["
           ++ Js.join "," (map Js.to_String defVal) ++ "]`))")
  | Some (DefCall name args) =>
      if String.eqb name "now" then
        ret (column ++ ".default(sql`DATE('now')`)")
      else if String.eqb name "autoincrement" then
        ret column
      else if String.eqb name "dbgenerated" then
        arg <- Common.escaped_first_arg args ;;
        add_drizzle "sql" ;;;
        ret (column ++ ".default(sql`" ++ arg ++ "`)")
      else
        let stringified := name ++ "(" ++ Js.join ", " (map Js.to_String args) ++ ")" in
        let sequel := "sql`" ++ Escape.s stringified Escape.Backtick ++ "`" in
        add_drizzle "sql" ;;;
        ret (column ++ ".default(" ++ sequel ++ ")")
  end.

Definition prismaToDrizzleColumn (field : Field.t) : M (option string) :=
  let colDbName := Escape.s (Js.nullish (Field.dbName field) (Field.name field)) Escape.Quote in
  let column := Js.tab ++ Field.name field ++ ": " in
  drizzleType <- prismaToDrizzleType (Field.type field) colDbName ;;
  match drizzleType with
  | None => ret None
  | Some drizzleType =>
      column <- addColumnModifiers field (column ++ drizzleType) ;;
      ret (Some column)
  end.

Definition column_entries (fields : list Field.t) : M (list (string * string)) :=
  cols <- mapM (fun e => c <- prismaToDrizzleColumn e ;;
                         ret (option_map (fun c => (Field.name e, c)) c)) fields ;;
  ret (somes cols).

(** The callback of [relFields.map], with the same one-column shortcut
    as the MySQL module. *)
Definition relation_decl (schemaTable : Model.t) (field : Field.t)
  (columnFields : JsObject.t) : M (option string * JsObject.t) :=
  match Field.relationFromFields field with
  | None | Some [] => ret (None, columnFields)
  | Some ((thisField :: moreFrom) as fromFields) =>
      match moreFrom, Field.relationToFields field with
      | [], Some [otherField] =>
          let otherTable := Field.type field in
          ret (None,
               JsObject.assign thisField
                 (JsObject.read thisField columnFields
                  ++ ".references(() => " ++ otherTable ++ "." ++ otherField ++ ")")
                 columnFields)
      | _, toFields =>
          let fkeyName := Common.escaped_fkeyName schemaTable field in
          match Common.deleteAction_of false (Field.relationOnDelete field) with
          | None =>
              throw (GeneratorError
                       ("Unknown delete action on relation " ++ fkeyName ++ ": "
                        ++ Js.show_undefined (Field.relationOnDelete field)))
          | Some deleteAction =>
              add_core "foreignKey" ;;;
              match toFields with
              | None => throw Common.undefined_map
              | Some toFields =>
                  ret (Some (Js.tab ++ "'" ++ fkeyName ++ "': "
                             ++ Common.fk_object fkeyName (Model.name schemaTable)
                                  fromFields (Field.type field) toFields
                             ++ Common.fk_actions deleteAction),
                       columnFields)
              end
          end
      end
  end.

Definition uniques := Common.escaped_uniques.
Definition primaryKey := Common.escaped_primaryKey.
Definition rqb_field := Common.escaped_rqb_field.

Definition table_step (schemaTable : Model.t) : M (string * option string) :=
  let tableDbName :=
    Escape.s (Js.nullish (Model.dbName schemaTable) (Model.name schemaTable)) Escape.Quote in
  entries <- column_entries (Model.fields schemaTable) ;;
  let columnFields := JsObject.fromEntries entries in
  let relFields := filter Common.is_relField (Model.fields schemaTable) in
  rels <- mapAccumM (relation_decl schemaTable) relFields columnFields ;;
  let relations := somes (fst rels) in
  let columnFields := snd rels in
  uniq <- uniques schemaTable ;;
  pk <- primaryKey schemaTable ;;
  let indexes := (relations ++ uniq ++ pk)%list in
  let table :=
    Common.table_decl "sqliteTable" (Model.name schemaTable) tableDbName
      (JsObject.values columnFields) indexes in
  match relFields with
  | [] => ret (table, None)
  | _ =>
      add_drizzle "relations" ;;;
      let rqbFields :=
        Js.join ("," ++ Js.nl) (map (rqb_field schemaTable) relFields) in
      let argString := Js.join ", " (Common.relationArgs relFields) in
      ret (table, Some (Common.rqb_decl (Model.name schemaTable) argString rqbFields))
  end.

Section WithCollation.
Context {C : Js.Collation}.

(** [generateSQLiteSchema]. *)
Definition generateSQLiteSchema (options : GeneratorOptions.t) : M string :=
  match ManyToMany.extractManyToManyModels (GeneratorOptions.models options) with
  | inl e => throw e
  | inr (manyToManyModels, clonedModels) =>
      let modelsWithImplicit := (clonedModels ++ manyToManyModels)%list in
      steps <- mapM table_step modelsWithImplicit ;;
      let tables := map fst steps in
      let rqb := somes (map snd steps) in
      st <- get_imports ;;
      ret (Common.emit st "drizzle-orm/sqlite-core" (tables ++ rqb)%list)
  end.

End WithCollation.

End SQLite.

(** ** Concrete inputs

    The DMMF of small Prisma schemas, as the generators receive it. *)

Module Scenarios.

Definition plain (name type : string) : Field.t :=
  Field.mk name None scalar type true false false false None None None None None.

(** [id Int @id]. *)
Definition id_int : Field.t :=
  Field.mk "id" None scalar "Int" true false false true None None None None None.

(** [id Int @id @default(autoincrement())]. *)
Definition id_autoincrement : Field.t :=
  Field.mk "id" None scalar "Int" true false false true
    (Some (DefCall "autoincrement" [])) None None None None.

(** [email String @unique]. *)
Definition email : Field.t :=
  Field.mk "email" None scalar "String" true false true false None None None None None.

(** [model User { id Int @id @default(autoincrement())  email String @unique }]. *)
Definition User : Model.t := Model.mk "User" None [id_autoincrement; email] None [].

(** An attribute outside the [db] group, such as [@id] or [@unique]. *)
Definition attribute (name : string) : Ast.Attribute := Ast.mkAttribute None name.

Definition id_node : Ast.FieldNode :=
  Ast.mkField "id" (Some [attribute "id"]).

Definition User_ast : list Ast.ModelNode :=
  [Ast.mkModel "User"
     [Ast.mkField "id" (Some [attribute "id"; attribute "default"]);
      Ast.mkField "email" (Some [attribute "unique"])]].

Definition user_options : GeneratorOptions.t := GeneratorOptions.mk [User] [] User_ast.

(** [model Counter { id Int @id }]. *)
Definition Counter : Model.t := Model.mk "Counter" None [id_int] None [].

Definition counter_options : GeneratorOptions.t :=
  GeneratorOptions.mk [Counter] [] [Ast.mkModel "Counter" [id_node]].

(** A list-valued relation field without foreign keys of its own:
    [name Type[] @relation("relationName")]. *)
Definition list_relation (name type relationName : string) : Field.t :=
  Field.mk name None object type true true false false None
    (Some relationName) (Some []) (Some []) None.

(** [model Post { id Int @id  tags Tag[] }] and
    [model Tag { id Int @id  posts Post[] }]; Prisma names the relation
    [PostToTag]. *)
Definition Post : Model.t :=
  Model.mk "Post" None [id_int; list_relation "tags" "Tag" "PostToTag"] None [].

Definition Tag : Model.t :=
  Model.mk "Tag" None [id_int; list_relation "posts" "Post" "PostToTag"] None [].

(** A second, unrelated pair:
    [model Author { id Int @id  books Book[] }] and
    [model Book { id Int @id  authors Author[] }]. *)
Definition Author : Model.t :=
  Model.mk "Author" None [id_int; list_relation "books" "Book" "AuthorToBook"] None [].

Definition Book : Model.t :=
  Model.mk "Book" None [id_int; list_relation "authors" "Author" "AuthorToBook"] None [].

(** A model whose list relation has no counterpart field. *)
Definition Lone : Model.t :=
  Model.mk "Lone" None [id_int; list_relation "tags" "Tag" "LoneToTag"] None [].

(** [author User @relation(fields: [authorId], references: [id])], with
    no [onDelete] argument. *)
Definition author : Field.t :=
  Field.mk "author" None object "User" true false false false None
    (Some "ArticleToUser") (Some ["authorId"]) (Some ["id"]) None.

Definition Article : Model.t :=
  Model.mk "Article" None [id_int; plain "authorId" "Int"; author] None [].

(** [customer Customer @relation(fields: [customerTenant, customerNo],
    references: [tenant, no])], with the given [onDelete] argument. *)
Definition customer (onDelete : option string) : Field.t :=
  Field.mk "customer" None object "Customer" true false false false None
    (Some "CustomerToOrder") (Some ["customerTenant"; "customerNo"])
    (Some ["tenant"; "no"]) onDelete.

Definition Order (onDelete : option string) : Model.t :=
  Model.mk "Order" None
    [id_int; plain "customerTenant" "Int"; plain "customerNo" "Int"; customer onDelete]
    None [].

(** [@@unique([email], name: "User_email_key")]: a unique index whose
    name the schema supplies, and which ends in [_key]. *)
Definition named_index : Index.t := Index.mk (Some "User_email_key") ["email"].

(** [@@unique([email], name: "user's email")]: a name with a quote. *)
Definition quoted_index : Index.t := Index.mk (Some "user's email") ["email"].

(** [@@unique([tenant, no])]: a unique index without a name. *)
Definition unnamed_index : Index.t := Index.mk None ["tenant"; "no"].

(** [enum Mood { HAPPY  ITS_FINE @map("it's fine") }]. *)
Definition Mood : DatamodelEnum.t :=
  DatamodelEnum.mk "Mood" None
    [EnumValue.mk "HAPPY" None; EnumValue.mk "ITS_FINE" (Some "it's fine")].

(** [code String @default(dbgenerated("md5(`seed`)"))]. *)
Definition code : Field.t :=
  Field.mk "code" None scalar "String" true false false false
    (Some (DefCall "dbgenerated" [Js.JStr "md5(`seed`)"])) None None None None.

Definition Coupon : Model.t := Model.mk "Coupon" None [id_int; code] None [].

Definition Coupon_ast : list Ast.ModelNode :=
  [Ast.mkModel "Coupon" [id_node; Ast.mkField "code" (Some [attribute "default"])]].

(** [model File { id Int @id  data Bytes }]. *)
Definition data : Field.t := plain "data" "Bytes".

Definition File : Model.t := Model.mk "File" None [id_int; data] None [].

Definition File_ast : list Ast.ModelNode :=
  [Ast.mkModel "File" [id_node; Ast.mkField "data" None]].

Definition file_options : GeneratorOptions.t := GeneratorOptions.mk [File] [] File_ast.

(** [model Place { id Int @id  location Unsupported("point") }]. *)
Definition location : Field.t :=
  Field.mk "location" None unsupported "point" true false false false
    None None None None None.

Definition Place : Model.t := Model.mk "Place" None [id_int; location] None [].

End Scenarios.

(** ** The later MySQL generator ([src/util/generators/mysql.ts], lines
    267 to 578)

    The revision that closes the file: it looks every model and field
    up in the schema text, applies the escaper, knows the native type
    [time] and has no shortcut for relations of one column. *)

Module MySqlRevised.

Definition initial : Imports := mkImports (Js.set_of_list ["mysqlTable"]) [].

(** The [case] labels of the [switch (type.toLowerCase())]. *)
Definition case_labels : list string :=
  ["bigint"; "boolean"; "bytes"; "datetime"; "decimal"; "float"; "json"; "int"; "string"].

Definition prismaToDrizzleType (type colDbName : string)
  (prismaEnum : option DatamodelEnum.t) (nativeType : option string) : M (option string) :=
  match prismaEnum with
  | Some prismaEnum =>
      add_core "mysqlEnum" ;;;
      ret (Some ("mysqlEnum('" ++ colDbName ++ "', [" ++ MySql.enum_values prismaEnum ++ "])"))
  | None =>
      let type := Js.toLowerCase type in
      if String.eqb type "bigint" then
        add_core "bigint" ;;;
        ret (Some ("bigint('" ++ colDbName ++ "', { mode: 'bigint' })"))
      else if String.eqb type "boolean" then
        add_core "boolean" ;;;
        ret (Some ("boolean('" ++ colDbName ++ "')"))
      else if String.eqb type "bytes" then
        throw (GeneratorError "Drizzle ORM doesn't support binary data type for MySQL")
      else if String.eqb type "datetime" then
        if Js.opt_string_eqb nativeType (Some "time") then
          add_core "time" ;;;
          ret (Some ("time('" ++ colDbName ++ "', { precision: 3 })"))
        else
          add_core "datetime" ;;;
          ret (Some ("datetime('" ++ colDbName ++ "', { fsp: 3 })"))
      else if String.eqb type "decimal" then
        add_core "decimal" ;;;
        ret (Some ("decimal('" ++ colDbName ++ "', { precision: 65, scale: 30 })"))
      else if String.eqb type "float" then
        add_core "double" ;;;
        ret (Some ("double('" ++ colDbName ++ "')"))
      else if String.eqb type "json" then
        add_core "json" ;;;
        ret (Some ("json('" ++ colDbName ++ "')"))
      else if String.eqb type "int" then
        add_core "int" ;;;
        ret (Some ("int('" ++ colDbName ++ "')"))
      else if String.eqb type "string" then
        add_core "varchar" ;;;
        ret (Some ("varchar('" ++ colDbName ++ "', { length: 191 })"))
      else ret None
  end.

Definition addColumnModifiers (field : Field.t) (column : string) : M string :=
  let column := Common.flag_modifiers field column in
  match Field.default field with
  | None => ret column
  | Some (DefScalar defVal) =>
      if Js.truthy defVal
      then ret (column ++ ".default(" ++ Js.JSON_stringify defVal ++ ")")
      else ret column
  | Some (DefList defVal) =>
      ret (column ++ ".default([" ++ Js.join ", " (map Js.JSON_stringify defVal) ++ "])")
  | Some (DefCall name args) =>
      if String.eqb name "now" then
        ret (column ++ ".default(sql`CURRENT_TIMESTAMP`)")
      else if String.eqb name "autoincrement" then
        ret (column ++ ".autoincrement()")
      else if String.eqb name "dbgenerated" then
        arg <- Common.escaped_first_arg args ;;
        add_drizzle "sql" ;;;
        ret (column ++ ".default(sql`" ++ arg ++ "`)")
      else if Pg.is_uuid_call name then
        add_drizzle "sql" ;;;
        ret (column ++ ".default(sql`uuid()`)")
      else
        let sequel :=
          "sql`" ++ Escape.s (Pg.stringified_call name args) Escape.Backtick ++ "`" in
        add_drizzle "sql" ;;;
        ret (column ++ ".default(" ++ sequel ++ ")")
  end.

Definition prismaToDrizzleColumn (field : Field.t) (enums : list DatamodelEnum.t)
  (nativeType : option string) : M (option string) :=
  let colDbName := Escape.s (Js.nullish (Field.dbName field) (Field.name field)) Escape.Quote in
  let column := Js.tab ++ Field.name field ++ ": " in
  drizzleType <-
    prismaToDrizzleType (Field.type field) colDbName
      (if FieldKind_eqb (Field.kind field) enum
       then MySql.find_enum enums (Field.type field) else None)
      nativeType ;;
  match drizzleType with
  | None => ret None
  | Some drizzleType =>
      column <- addColumnModifiers field (column ++ drizzleType) ;;
      ret (Some column)
  end.

Definition column_entry (enums : list DatamodelEnum.t) (modelAst : Ast.ModelNode)
  (field : Field.t) : M (option (string * string)) :=
  match Ast.findField (Ast.properties modelAst) (Field.name field) with
  | None => throw (Error ("Model " ++ Ast.model_name modelAst ++ " not found in schema"))
  | Some fieldAst =>
      c <- prismaToDrizzleColumn field enums (Pg.native_type fieldAst) ;;
      ret (option_map (fun c => (Field.name field, c)) c)
  end.

Definition column_entries (enums : list DatamodelEnum.t) (modelAst : Ast.ModelNode)
  (fields : list Field.t) : M (list (string * string)) :=
  cols <- mapM (column_entry enums modelAst) fields ;;
  ret (somes cols).

(** The callback of [relFields.map] has the text of the Postgres
    module's. *)
Definition relation_decl := Pg.relation_decl.
Definition uniques := Common.escaped_uniques.
Definition primaryKey := Common.escaped_primaryKey.
Definition rqb_field := Common.escaped_rqb_field.

Definition table_step (enums : list DatamodelEnum.t) (schema : list Ast.ModelNode)
  (schemaTable : Model.t) : M (string * option string) :=
  match Ast.findModel schema (Model.name schemaTable) with
  | None => throw (Error ("Model " ++ Model.name schemaTable ++ " not found in schema"))
  | Some modelAst =>
      let tableDbName :=
        Escape.s (Js.nullish (Model.dbName schemaTable) (Model.name schemaTable))
          Escape.Quote in
      entries <- column_entries enums modelAst (Model.fields schemaTable) ;;
      let columnFields := JsObject.fromEntries entries in
      let relFields := filter Common.is_relField (Model.fields schemaTable) in
      rels <- mapM (relation_decl schemaTable) relFields ;;
      let relations := somes rels in
      uniq <- uniques schemaTable ;;
      pk <- primaryKey schemaTable ;;
      let indexes := (relations ++ uniq ++ pk)%list in
      let table :=
        Common.table_decl "mysqlTable" (Model.name schemaTable) tableDbName
          (JsObject.values columnFields) indexes in
      match relFields with
      | [] => ret (table, None)
      | _ =>
          add_drizzle "relations" ;;;
          let rqbFields := Js.join ("," ++ Js.nl) (map (rqb_field schemaTable) relFields) in
          let argString := Js.join ", " (Common.relationArgs relFields) in
          ret (table, Some (Common.rqb_decl (Model.name schemaTable) argString rqbFields))
      end
  end.

Section WithCollation.
Context {C : Js.Collation}.

(** [generateMySqlSchema], as revised. *)
Definition generateMySqlSchema (options : GeneratorOptions.t) : M string :=
  match ManyToMany.extractManyToManyModels (GeneratorOptions.models options) with
  | inl e => throw e
  | inr (manyToManyModels, clonedModels) =>
      let modelsWithImplicit := (clonedModels ++ manyToManyModels)%list in
      steps <- mapM (table_step (GeneratorOptions.enums options)
                       (GeneratorOptions.datamodel options)) modelsWithImplicit ;;
      let tables := map fst steps in
      let rqb := somes (map snd steps) in
      st <- get_imports ;;
      ret (Common.emit st "drizzle-orm/mysql-core" (tables ++ rqb)%list)
  end.

End WithCollation.

End MySqlRevised.

(** ** The generator handler ([src/index.ts], in [src/unnamed/part_000]
    lines 44 to 106)

    [onGenerate] picks the generator by the provider of the first
    datasource, resolves the output path and hands path and text to
    [recursiveWrite].  The three generators come from the index of
    [src/util/generators], [defaultPath] from [src/globals], and
    [path.resolve], [path.join] and [process.env] from the host: the
    handler is parametric in them.  Each generator module has its own
    import sets. *)

Module Handler.

(** [options.generator.output]: [{ value, fromEnvVar }]. *)
Record EnvValue := mkEnvValue {
  value : option string;
  fromEnvVar : option string
}.

Record Options := mkOptions {
  datasources : list string;            (* the provider of each datasource *)
  output : option EnvValue;
  generatorOptions : GeneratorOptions.t
}.

(** The import sets of the three generator modules of the process. *)
Record Process := mkProcess {
  pgModule : Imports;
  mySqlModule : Imports;
  sqliteModule : Imports
}.

Definition undetermined : exn :=
  GeneratorError ("Unable to determine database type." ++ Js.nl
                  ++ "Make sure datasource.provider is specified.").

Definition invalid (dbType : string) : exn :=
  GeneratorError ("Invalid database type for Drizzle schema generation: " ++ dbType ++ "."
                  ++ Js.nl ++ "Supported database types: PostgreSQL, MySQL, SQLite.").

Section WithHost.
Variables generatePgSchema generateMySqlSchema generateSQLiteSchema
  : GeneratorOptions.t -> M string.
Variable defaultPath : string.
Variable env : string -> option string.
Variable resolve : string -> string.
Variable join : string -> string -> string.

(** [options.generator.output?.value ??
     (!!options.generator.output?.fromEnvVar
        ? process.env[options.generator.output.fromEnvVar!] ?? defaultPath
        : defaultPath)]. *)
Definition outputValue (options : Options) : string :=
  match output options with
  | None => defaultPath
  | Some o =>
      match value o with
      | Some v => v
      | None =>
          if Js.truthy_str (fromEnvVar o)
          then Js.nullish (env (Js.nullish (fromEnvVar o) EmptyString)) defaultPath
          else defaultPath
      end
  end.

Definition schemaPath (options : Options) : string :=
  let folderPath := resolve (outputValue options) in
  if Js.endsWith folderPath ".ts" then folderPath else join folderPath "/schema.ts".

(** The [switch (dbType)]: the generator run in its own module, or the
    exception. *)
Definition generate (options : Options) (p : Process) : (exn + string) * Process :=
  match hd_error (datasources options) with
  | None => (inl undetermined, p)
  | Some dbType =>
      if String.eqb dbType "postgres" || String.eqb dbType "postgresql" then
        let r := generatePgSchema (generatorOptions options) (pgModule p) in
        (fst r, mkProcess (snd r) (mySqlModule p) (sqliteModule p))
      else if String.eqb dbType "mysql" then
        let r := generateMySqlSchema (generatorOptions options) (mySqlModule p) in
        (fst r, mkProcess (pgModule p) (snd r) (sqliteModule p))
      else if String.eqb dbType "sqlite" then
        let r := generateSQLiteSchema (generatorOptions options) (sqliteModule p) in
        (fst r, mkProcess (pgModule p) (mySqlModule p) (snd r))
      else (inl (invalid dbType), p)
  end.

(** [onGenerate]: the call [recursiveWrite(schemaPath, output)] it ends
    in, as the pair of its arguments, or the exception it throws. *)
Definition onGenerate (options : Options) (p : Process)
  : (exn + string * string) * Process :=
  match generate options p with
  | (inl e, p') => (inl e, p')
  | (inr output, p') => (inr (schemaPath options, output), p')
  end.

End WithHost.

End Handler.

(** ** Reading an escaped text back

    Inside a quoted literal or a template a backslash takes the next
    character with it, and the first container character that no
    backslash takes ends the text. *)

Module Reading.

(** The text holds no container character of its own and no backslash
    at its very end. *)
Fixpoint closed (container : ascii) (text : string) : bool :=
  match text with
  | EmptyString => true
  | String c r =>
      if Ascii.eqb c (ascii_of_nat 92) then
        match r with
        | EmptyString => false
        | String _ r' => closed container r'
        end
      else if Ascii.eqb c container then false
      else closed container r
  end.

(** The characters the text stands for, when a backslash before a
    backslash or before a quote character stands for that character. *)
Fixpoint unescape (text : string) : string :=
  match text with
  | EmptyString => EmptyString
  | String c r =>
      if Ascii.eqb c (ascii_of_nat 92) then
        match r with
        | EmptyString => String c EmptyString
        | String d r' => String d (unescape r')
        end
      else String c (unescape r)
  end.

Fixpoint mentions (c : ascii) (text : string) : bool :=
  match text with
  | EmptyString => false
  | String d r => Ascii.eqb d c || mentions c r
  end.

End Reading.

(** ** What the synthesizer assigns to no field

    [generateJoinFields] assigns to [isList], [type], [relationName],
    [relationFromFields] and [relationToFields]; the other attributes
    of a field, and everything of a model but its fields, are given
    here. *)

Module Kept.

Definition field (f : Field.t) :=
  (Field.name f, Field.dbName f, Field.kind f, Field.isRequired f, Field.isUnique f,
   Field.isId f, Field.default f, Field.relationOnDelete f).

Definition model (m : Model.t) :=
  (Model.name m, Model.dbName m, Model.primaryKey m, Model.uniqueIndexes m,
   map field (Model.fields m)).

End Kept.

(** ** Further inputs *)

Module MoreScenarios.

(** [model Writer { id Int @id  pieces Piece[] }] and
    [model Piece { id Int @id  writerId Int
                   writer Writer @relation(fields: [writerId], references: [id]) }]:
    a one-to-many relation, which Prisma names [PieceToWriter]. *)
Definition Writer : Model.t :=
  Model.mk "Writer" None
    [Scenarios.id_int; Scenarios.list_relation "pieces" "Piece" "PieceToWriter"] None [].

Definition writer : Field.t :=
  Field.mk "writer" None object "Writer" true false false false None
    (Some "PieceToWriter") (Some ["writerId"]) (Some ["id"]) None.

Definition Piece : Model.t :=
  Model.mk "Piece" None [Scenarios.id_int; Scenarios.plain "writerId" "Int"; writer] None [].

(** [model Label { slug String  posts Post[] }]: the other side of a
    list-only relation, without an id field. *)
Definition Label : Model.t :=
  Model.mk "Label" None
    [Scenarios.plain "slug" "String"; Scenarios.list_relation "posts" "Post" "LabelToPost"]
    None [].

(** [model Post { id Int @id  labels Label[] }]. *)
Definition LabelledPost : Model.t :=
  Model.mk "Post" None
    [Scenarios.id_int; Scenarios.list_relation "labels" "Label" "LabelToPost"] None [].

(** The join model of [Post] and [Tag]. *)
Definition PostToTag : Model.t :=
  Model.mk "PostToTag" (Some "_PostToTag")
    [ManyToMany.join_scalar "TagId" "A" "Int";
     ManyToMany.join_object "Tag" "TagToPostToTag" "TagId" "id";
     ManyToMany.join_scalar "PostId" "B" "Int";
     ManyToMany.join_object "Post" "PostToPostToTag" "PostId" "id"]
    None [].

(** The schema text of [Post] and [Tag], which declares these two
    models only. *)
Definition Post_Tag_ast : list Ast.ModelNode :=
  [Ast.mkModel "Post" [Scenarios.id_node; Ast.mkField "tags" None];
   Ast.mkModel "Tag" [Scenarios.id_node; Ast.mkField "posts" None]].

Definition post_tag_options : GeneratorOptions.t :=
  GeneratorOptions.mk [Scenarios.Post; Scenarios.Tag] [] Post_Tag_ast.

(** [model Event { id Int @id  at DateTime @default(now()) }]. *)
Definition at_ : Field.t :=
  Field.mk "at" None scalar "DateTime" true false false false
    (Some (DefCall "now" [])) None None None None.

Definition Event : Model.t := Model.mk "Event" None [Scenarios.id_int; at_] None [].

Definition event_options : GeneratorOptions.t :=
  GeneratorOptions.mk [Event] []
    [Ast.mkModel "Event" [Scenarios.id_node;
                          Ast.mkField "at" (Some [Scenarios.attribute "default"])]].

(** [model Person { id Int @id
                    followers Person[] @relation("Follows")
                    following Person[] @relation("Follows") }]:
    a many-to-many relation of a model with itself. *)
Definition Person : Model.t :=
  Model.mk "Person" None
    [Scenarios.id_int;
     Scenarios.list_relation "followers" "Person" "Follows";
     Scenarios.list_relation "following" "Person" "Follows"] None [].

(** The schema text of [Article]. *)
Definition Article_ast : list Ast.ModelNode :=
  [Ast.mkModel "Article"
     [Scenarios.id_node; Ast.mkField "authorId" None;
      Ast.mkField "author" (Some [Scenarios.attribute "relation"])]].

(** [model Blob { id Int @id  data Bytes @default(dbgenerated()) }]: the
    argument of [dbgenerated] is optional. *)
Definition generated_data : Field.t :=
  Field.mk "data" None scalar "Bytes" true false false false
    (Some (DefCall "dbgenerated" [])) None None None None.

Definition Blob : Model.t := Model.mk "Blob" None [Scenarios.id_int; generated_data] None [].

Definition blob_options : GeneratorOptions.t := GeneratorOptions.mk [Blob] [] [].

(** [model Doc { id String @id @default(dbgenerated())  data Bytes }]. *)
Definition generated_id : Field.t :=
  Field.mk "id" None scalar "String" true false false true
    (Some (DefCall "dbgenerated" [])) None None None None.

Definition Doc : Model.t := Model.mk "Doc" None [generated_id; Scenarios.data] None [].

Definition doc_options : GeneratorOptions.t :=
  GeneratorOptions.mk [Doc] []
    [Ast.mkModel "Doc" [Ast.mkField "id" (Some [Scenarios.attribute "id";
                                                Scenarios.attribute "default"]);
                        Ast.mkField "data" None]].

(** [visits Int @default(0)]. *)
Definition visits : Field.t :=
  Field.mk "visits" None scalar "Int" true false false false
    (Some (DefScalar (Js.JNum 0 0))) None None None None.

(** [enum Nothing { }] beside the enum [Mood]. *)
Definition Nothing : DatamodelEnum.t := DatamodelEnum.mk "Nothing" None [].

(** A process that has just loaded the three generator modules. *)
Definition fresh : Handler.Process :=
  Handler.mkProcess Pg.initial MySqlRevised.initial SQLite.initial.

(** The options of a schema with the [User] model, one datasource of
    the given provider and no [output] of the generator block. *)
Definition handler_options (provider : string) : Handler.Options :=
  Handler.mkOptions [provider] None Scenarios.user_options.

(** An order whose relation to the customer sets the default on delete. *)
Definition order_options : GeneratorOptions.t :=
  GeneratorOptions.mk [Scenarios.Order (Some "SetDefault")] [] [].

End MoreScenarios.

(** ** The join models

    What [generateModels] and [generateJoinFields] build, read against
    the models they were given. *)

Module JoinModel.

Definition could_not_find : exn :=
  Error "Could not find referenced model of many-to-many relation".

Definition no_id_field : exn :=
  Error "No ID field on referenced model of many-to-many relation".

(** [join] has no primary key and no unique index, and the four fields
    of [generateJoinFields] for two model names [a] and [b] that
    [getJoinIdName] resolves in [models]. *)
Definition over (models : ManyToMany.Store) (join : Model.t) : Prop :=
  Model.primaryKey join = None
  /\ Model.uniqueIndexes join = []
  /\ exists a b aType aId bType bId many,
       ManyToMany.getJoinIdName a models = inr aId
       /\ ManyToMany.getJoinIdName b models = inr bId
       /\ Model.fields join
          = [ ManyToMany.join_scalar (a ++ "Id") "A" aType;
              ManyToMany.join_object a (a ++ "To" ++ many) (a ++ "Id") aId;
              ManyToMany.join_scalar (b ++ "Id") "B" bType;
              ManyToMany.join_object b (b ++ "To" ++ many) (b ++ "Id") bId ].

End JoinModel.

(** ** The import sets as lists of names *)

Module Header.

(** Each of the two sets holds every name once. *)
Definition once_each (st : Imports) : Prop :=
  NoDup (coreImports st) /\ NoDup (drizzleImports st).

End Header.

(** ** What a computation returns *)

Module Outcome.

(** Whatever [m] returns, from whatever import sets, satisfies [P]. *)
Definition returns {A} (m : M A) (P : A -> Prop) : Prop :=
  forall st a st', m st = (inr a, st') -> P a.

(** [m] returns, whatever the import sets hold. *)
Definition succeeds {A} (m : M A) : Prop :=
  forall st, exists a st', m st = (inr a, st').

(** [m] does not add the name [e] to a set that lacks it. *)
Definition avoids (e : Accumulation.target * string) {A} (m : M A) : Prop :=
  forall st, Accumulation.present e st = false ->
             Accumulation.present e (snd (m st)) = false.

(** The column of a [Bytes] field in the SQLite module, before the
    modifiers. *)
Definition blob_column (field : Field.t) : string :=
  (Js.tab ++ Field.name field ++ ": ")
  ++ "blob('"
  ++ Escape.s (Js.nullish (Field.dbName field) (Field.name field)) Escape.Quote
  ++ "', { mode: 'buffer' })".

(** The first line of a table declaration, up to the physical name. *)
Definition declares (ctor : string) (schemaTable : Model.t) : string :=
  "export const " ++ Model.name schemaTable ++ " = " ++ ctor ++ "('".

End Outcome.

(** ** Fields compared *)

Module Defaults.

(** The field as it is without its [@default]. *)
Definition without (f : Field.t) : Field.t :=
  Field.mk (Field.name f) (Field.dbName f) (Field.kind f) (Field.type f)
    (Field.isRequired f) (Field.isList f) (Field.isUnique f) (Field.isId f)
    None (Field.relationName f) (Field.relationFromFields f)
    (Field.relationToFields f) (Field.relationOnDelete f).

(** The field has no default, a scalar default, [now()] or
    [autoincrement()]. *)
Definition plain (f : Field.t) : bool :=
  match Field.default f with
  | None => true
  | Some (DefScalar _) => true
  | Some (DefList _) => false
  | Some (DefCall name _) => String.eqb name "now" || String.eqb name "autoincrement"
  end.

(** The escaper can take the default of the field: a call of
    [dbgenerated] has a string as its first argument. *)
Definition escapable (f : Field.t) : bool :=
  match Field.default f with
  | Some (DefCall name args) =>
      if String.eqb name "dbgenerated"
      then match args with
           | Js.JStr _ :: _ => true
           | _ => false
           end
      else true
  | _ => true
  end.

End Defaults.

(** ** Relation fields compared *)

Module Relations.

(** The [switch] of a dialect without [SetDefault] knows the delete
    action of the field, if the field gets a [foreignKey] declaration
    there: it is among [relFields], owns columns and is no relation from
    one column to one column. *)
Definition declarable (f : Field.t) : bool :=
  negb (Common.is_relField f && Common.owns_keys f && negb (Common.one_column f))
  || match Common.deleteAction_of false (Field.relationOnDelete f) with
     | Some _ => true
     | None => false
     end.

(** [f'] is [f] after assignments of the synthesizer: what it assigns
    to no field is the same, and the two lists of the relation are the
    same or both empty. *)
Definition rewritten (f f' : Field.t) : Prop :=
  Kept.field f' = Kept.field f
  /\ ((Field.relationFromFields f' = Field.relationFromFields f
       /\ Field.relationToFields f' = Field.relationToFields f)
      \/ (Field.relationFromFields f' = Some []
          /\ Field.relationToFields f' = Some [])).

Definition rewritten_models (models models' : list Model.t) : Prop :=
  Forall2 (fun m m' => Forall2 rewritten (Model.fields m) (Model.fields m'))
    models models'.

End Relations.
(** * Properties *)

(** ** Computations that only add names to the import sets *)

Module AccumulationFacts.
Import Accumulation.

Lemma set_has_add_same x s : Js.set_has x (Js.set_add x s) = true.
Proof.
  unfold Js.set_add. destruct (Js.set_has x s) eqn:E; [exact E|].
  unfold Js.set_has. rewrite existsb_app. simpl.
  rewrite String.eqb_refl. rewrite orb_true_r. reflexivity.
Qed.

Lemma set_has_add_mono x y s :
  Js.set_has x s = true -> Js.set_has x (Js.set_add y s) = true.
Proof.
  intros H. unfold Js.set_add. destruct (Js.set_has y s); [exact H|].
  unfold Js.set_has in *. rewrite existsb_app, H. reflexivity.
Qed.

Lemma set_add_present x s : Js.set_has x s = true -> Js.set_add x s = s.
Proof. intros H. unfold Js.set_add. rewrite H. reflexivity. Qed.

Lemma present_add_same e st : present e (add_to e st) = true.
Proof.
  destruct e as [[|] x]; unfold present, add_to; simpl; apply set_has_add_same.
Qed.

Lemma present_add_mono e e' st :
  present e st = true -> present e (add_to e' st) = true.
Proof.
  destruct e as [[|] x], e' as [[|] y]; unfold present, add_to; simpl;
    intros H; auto using set_has_add_mono.
Qed.

Lemma add_to_present e st : present e st = true -> add_to e st = st.
Proof.
  destruct e as [[|] x], st as [c d]; unfold present, add_to; simpl; intros H;
    rewrite (set_add_present _ _ H); reflexivity.
Qed.

Lemma present_adds_mono e w : forall st,
  present e st = true -> present e (adds w st) = true.
Proof.
  induction w as [|e' w IH]; intros st H; simpl; [exact H|].
  apply IH. apply present_add_mono. exact H.
Qed.

Lemma present_after_adds e w : forall st, In e w -> present e (adds w st) = true.
Proof.
  induction w as [|e' w IH]; intros st Hin; simpl in *; [contradiction|].
  destruct Hin as [->|Hin].
  - apply present_adds_mono. apply present_add_same.
  - apply IH. exact Hin.
Qed.

Lemma adds_all_present w : forall st,
  (forall e, In e w -> present e st = true) -> adds w st = st.
Proof.
  induction w as [|e w IH]; intros st H; simpl; [reflexivity|].
  rewrite add_to_present by (apply H; left; reflexivity).
  apply IH. intros e' He'. apply H. right. exact He'.
Qed.

(** Adding the same names a second time changes nothing. *)
Lemma adds_idempotent w st : adds w (adds w st) = adds w st.
Proof.
  apply adds_all_present. intros e He. apply present_after_adds. exact He.
Qed.

Lemma adds_app w1 w2 st : adds (w1 ++ w2) st = adds w2 (adds w1 st).
Proof. unfold adds. apply fold_left_app. Qed.

Lemma acc_ret A (a : A) : accumulates (ret a).
Proof. exists (inr a), []. reflexivity. Qed.

Lemma acc_throw A (e : exn) : accumulates (@throw A e).
Proof. exists (inl e), []. reflexivity. Qed.

Lemma acc_add_core x : accumulates (add_core x).
Proof. exists (inr tt), [(Core, x)]. reflexivity. Qed.

Lemma acc_add_drizzle x : accumulates (add_drizzle x).
Proof. exists (inr tt), [(Drizzle, x)]. reflexivity. Qed.

Lemma acc_bind A B (m : M A) (k : A -> M B) :
  accumulates m -> (forall a, accumulates (k a)) -> accumulates (bind m k).
Proof.
  intros [r [w Hm]] Hk. destruct r as [e|a].
  - exists (inl e), w. intros st. unfold bind. rewrite Hm. reflexivity.
  - destruct (Hk a) as [r' [w' Hk']].
    exists r', (w ++ w')%list. intros st. unfold bind.
    rewrite Hm, Hk', adds_app. reflexivity.
Qed.

Lemma acc_mapM A B (f : A -> M B) (l : list A) :
  (forall x, accumulates (f x)) -> accumulates (mapM f l).
Proof.
  intros Hf. induction l as [|x l IH]; simpl.
  - apply acc_ret.
  - apply acc_bind; [apply Hf|]. intros y.
    apply acc_bind; [exact IH|]. intros ys. apply acc_ret.
Qed.

Lemma acc_mapAccumM A B C (f : A -> C -> M (B * C)) (l : list A) :
  (forall x c, accumulates (f x c)) -> forall c, accumulates (mapAccumM f l c).
Proof.
  intros Hf. induction l as [|x l IH]; intros c; simpl.
  - apply acc_ret.
  - apply acc_bind; [apply Hf|]. intros yc.
    apply acc_bind; [apply IH|]. intros ysc. apply acc_ret.
Qed.

Lemma rae_of_acc A (m : M A) : accumulates m -> reads_at_end m.
Proof. intros [r [w H]]. exists (fun _ => r), w. exact H. Qed.

Lemma rae_get_ret A (g : Imports -> A) :
  reads_at_end (bind get_imports (fun st => ret (g st))).
Proof. exists (fun st => inr (g st)), []. reflexivity. Qed.

Lemma rae_bind A B (m : M A) (k : A -> M B) :
  accumulates m -> (forall a, reads_at_end (k a)) -> reads_at_end (bind m k).
Proof.
  intros [r [w Hm]] Hk. destruct r as [e|a].
  - exists (fun _ => inl e), w. intros st. unfold bind. rewrite Hm. reflexivity.
  - destruct (Hk a) as [f [w' Hk']].
    exists f, (w ++ w')%list. intros st. unfold bind.
    rewrite Hm, Hk', adds_app. reflexivity.
Qed.

(** Run again from the sets it left behind, such a computation gives the
    same result and leaves the same sets. *)
Lemma rerun_same A (m : M A) : reads_at_end m -> forall st, m (snd (m st)) = m st.
Proof.
  intros [f [w H]] st. rewrite (H st). simpl. rewrite H, adds_idempotent.
  reflexivity.
Qed.

(** Such a computation removes no name from the sets. *)
Lemma rae_keeps A (m : M A) :
  reads_at_end m -> forall st e, present e st = true -> present e (snd (m st)) = true.
Proof.
  intros [f [w H]] st e He. rewrite (H st). simpl. apply present_adds_mono. exact He.
Qed.

Ltac accumulate :=
  repeat first
    [ apply acc_ret
    | apply acc_throw
    | apply acc_add_core
    | apply acc_add_drizzle
    | apply acc_bind; [|intros ?]
    | apply acc_mapM; intros ?
    | apply acc_mapAccumM; intros ? ?
    | match goal with
      | |- accumulates (match ?x with _ => _ end) => destruct x
      | |- accumulates (let _ := _ in _) => cbv zeta
      end ].

End AccumulationFacts.

(** ** Successive runs in one process *)

Section Reruns.
Import Accumulation AccumulationFacts.
Context {C : Js.Collation}.

Lemma acc_escaped_first_arg args : accumulates (Common.escaped_first_arg args).
Proof. unfold Common.escaped_first_arg. accumulate. Qed.

Lemma acc_MySql_table_step enums schemaTable :
  accumulates (MySql.table_step enums schemaTable).
Proof.
  unfold MySql.table_step, MySql.column_entries, MySql.prismaToDrizzleColumn,
    MySql.prismaToDrizzleType, MySql.addColumnModifiers, MySql.relation_decl,
    MySql.uniques, MySql.primaryKey.
  accumulate.
Qed.

Lemma acc_Pg_table_step schema schemaTable :
  accumulates (Pg.table_step schema schemaTable).
Proof.
  unfold Pg.table_step, Pg.column_entries, Pg.column_entry, Pg.prismaToDrizzleColumn,
    Pg.prismaToDrizzleType, Pg.addColumnModifiers, Pg.relation_decl,
    Pg.uniques, Pg.primaryKey, Common.escaped_uniques, Common.escaped_primaryKey.
  accumulate; apply acc_escaped_first_arg.
Qed.

Lemma acc_SQLite_table_step schemaTable : accumulates (SQLite.table_step schemaTable).
Proof.
  unfold SQLite.table_step, SQLite.column_entries, SQLite.prismaToDrizzleColumn,
    SQLite.prismaToDrizzleType, SQLite.addColumnModifiers, SQLite.relation_decl,
    SQLite.uniques, SQLite.primaryKey, Common.escaped_uniques, Common.escaped_primaryKey.
  accumulate; apply acc_escaped_first_arg.
Qed.

Lemma rae_generateMySqlSchema options :
  reads_at_end (MySql.generateMySqlSchema options).
Proof.
  unfold MySql.generateMySqlSchema.
  destruct (ManyToMany.extractManyToManyModels _) as [e|[tables models]].
  - apply rae_of_acc, acc_throw.
  - apply rae_bind; [apply acc_mapM; intros; apply acc_MySql_table_step|].
    intros steps. apply rae_get_ret.
Qed.

Lemma rae_generatePgSchema options : reads_at_end (Pg.generatePgSchema options).
Proof.
  unfold Pg.generatePgSchema.
  destruct (ManyToMany.extractManyToManyModels _) as [e|[tables models]].
  - apply rae_of_acc, acc_throw.
  - apply rae_bind.
    { apply acc_mapM; intros x; unfold Pg.pgEnum_step; accumulate. }
    intros enumSteps.
    apply rae_bind; [apply acc_mapM; intros; apply acc_Pg_table_step|].
    intros steps. apply rae_get_ret.
Qed.

Lemma rae_generateSQLiteSchema options :
  reads_at_end (SQLite.generateSQLiteSchema options).
Proof.
  unfold SQLite.generateSQLiteSchema.
  destruct (ManyToMany.extractManyToManyModels _) as [e|[tables models]].
  - apply rae_of_acc, acc_throw.
  - apply rae_bind; [apply acc_mapM; intros; apply acc_SQLite_table_step|].
    intros steps. apply rae_get_ret.
Qed.

End Reruns.

(** C2, as amended. The import sets of a generator module are not
    allocated per run: a run finds what earlier runs left and removes
    nothing. For every dialect, every input and every content of the
    sets, a second run on the same input, started from the sets the
    first run left behind, still returns exactly what the first run
    returned (the same text, or the same exception) and leaves the sets
    as the first run left them. *)
Theorem C2_second_run_repeats_first :
  forall (C : Js.Collation) (options : GeneratorOptions.t) (st : Imports),
    (let first := MySql.generateMySqlSchema options st in
     MySql.generateMySqlSchema options (snd first) = first
     /\ forall e, Accumulation.present e st = true ->
                  Accumulation.present e (snd first) = true)
    /\ (let first := Pg.generatePgSchema options st in
        Pg.generatePgSchema options (snd first) = first
        /\ forall e, Accumulation.present e st = true ->
                     Accumulation.present e (snd first) = true)
    /\ (let first := SQLite.generateSQLiteSchema options st in
        SQLite.generateSQLiteSchema options (snd first) = first
        /\ forall e, Accumulation.present e st = true ->
                     Accumulation.present e (snd first) = true).
Proof.
  intros C options st. cbv zeta. repeat split.
  - apply AccumulationFacts.rerun_same, rae_generateMySqlSchema.
  - intros e. apply AccumulationFacts.rae_keeps, rae_generateMySqlSchema.
  - apply AccumulationFacts.rerun_same, rae_generatePgSchema.
  - intros e. apply AccumulationFacts.rae_keeps, rae_generatePgSchema.
  - apply AccumulationFacts.rerun_same, rae_generateSQLiteSchema.
  - intros e. apply AccumulationFacts.rae_keeps, rae_generateSQLiteSchema.
Qed.

Section SuccessiveRuns.
#[local] Existing Instance IdentifierCollation.collation.

(** C2, as stated, fails: the set is not fresh at the start of a run.
    After a run on the [User] model the MySQL sets differ from the sets
    of a freshly loaded module, and a following run on the [Counter]
    model, which has no string column, imports [varchar] all the same,
    as a run in a fresh process does not. *)
Lemma C2_sets_are_not_fresh :
  let first := MySql.generateMySqlSchema Scenarios.user_options MySql.initial in
  snd first <> MySql.initial
  /\ fst (MySql.generateMySqlSchema Scenarios.counter_options MySql.initial)
     = inr ("import { int, mysqlTable } from 'drizzle-orm/mysql-core'" ++ Js.nl ++ Js.nl
            ++ "export const Counter = mysqlTable('Counter', {" ++ Js.nl
            ++ Js.tab ++ "id: int('id').notNull().primaryKey()" ++ Js.nl
            ++ "});")
  /\ fst (MySql.generateMySqlSchema Scenarios.counter_options (snd first))
     = inr ("import { int, mysqlTable, varchar } from 'drizzle-orm/mysql-core'"
            ++ Js.nl ++ Js.nl
            ++ "export const Counter = mysqlTable('Counter', {" ++ Js.nl
            ++ Js.tab ++ "id: int('id').notNull().primaryKey()" ++ Js.nl
            ++ "});").
Proof. cbv zeta. split; [|split]; vm_compute; [discriminate|reflexivity|reflexivity]. Qed.

(** C2 at the [User] model and the freshly loaded MySQL module: the
    name [mysqlTable], present before the run, is present after it, and
    a second run repeats the first. *)
Lemma C2_witness :
  Accumulation.present (Accumulation.Core, "mysqlTable") MySql.initial = true
  /\ Accumulation.present (Accumulation.Core, "mysqlTable")
       (snd (MySql.generateMySqlSchema Scenarios.user_options MySql.initial)) = true
  /\ MySql.generateMySqlSchema Scenarios.user_options
       (snd (MySql.generateMySqlSchema Scenarios.user_options MySql.initial))
     = MySql.generateMySqlSchema Scenarios.user_options MySql.initial.
Proof.
  pose proof (proj1 (C2_second_run_repeats_first IdentifierCollation.collation
                       Scenarios.user_options MySql.initial)) as H.
  cbv zeta in H. destruct H as [Hsame Hkeep].
  split; [reflexivity|]. split.
  - exact (Hkeep (Accumulation.Core, "mysqlTable") eq_refl).
  - exact Hsame.
Defined.

End SuccessiveRuns.

(** ** The many-to-many synthesizer *)

Section Synthesizer.
Context {C : Js.Collation}.

(** [generateModels] returns what it has as soon as the field at the
    head of its list has no partner, whatever the rest of the list
    holds. *)
Lemma generateModels_stops_at_unpaired_head fuel manyFirst rest models tables :
  find (fun field => Js.opt_string_eqb
                       (ManyToMany.relationName_of models field)
                       (ManyToMany.relationName_of models manyFirst)) rest = None ->
  ManyToMany.generateModels (S fuel) (manyFirst :: rest) models tables
  = inr (tables, models).
Proof. intros H. simpl. rewrite H. reflexivity. Qed.

(** The bound that [extractManyToManyModels] passes is never used up:
    with any two bounds that are at least the length of the list,
    [generateModels] returns the same. *)
Lemma generateModels_bound_is_enough : forall fuel1 fuel2 l models tables,
  length l <= fuel1 -> length l <= fuel2 ->
  ManyToMany.generateModels fuel1 l models tables
  = ManyToMany.generateModels fuel2 l models tables.
Proof.
  induction fuel1 as [|fuel1 IH]; intros fuel2 l models tables H1 H2.
  - destruct l; [|simpl in H1; lia]. destruct fuel2; reflexivity.
  - destruct fuel2 as [|fuel2].
    + destruct l; [reflexivity|simpl in H2; lia].
    + destruct l as [|manyFirst rest]; [reflexivity|]. simpl in *.
      destruct (find _ rest); [|reflexivity].
      destruct (ManyToMany.generateJoinFields _ models) as [e|[fields models']];
        [reflexivity|].
      apply IH.
      * etransitivity; [apply filter_length_le|lia].
      * etransitivity; [apply filter_length_le|lia].
Qed.

(** The join model takes its name from the two fields in the order of
    the list, and its fields from [generateJoinFields]. *)
Lemma generateModels_names_in_list_order fuel manyFirst manySecond rest models tables
  fields models' :
  find (fun field => Js.opt_string_eqb
                       (ManyToMany.relationName_of models field)
                       (ManyToMany.relationName_of models manyFirst)) rest
  = Some manySecond ->
  ManyToMany.generateJoinFields (manyFirst, manySecond) models = inr (fields, models') ->
  exists rest',
    ManyToMany.generateModels (S fuel) (manyFirst :: rest) models tables
    = ManyToMany.generateModels fuel rest' models'
        (tables ++ [Model.mk (ManyToMany.type_of models manySecond ++ "To"
                              ++ ManyToMany.type_of models manyFirst)
                      (Some ("_" ++ Js.show_undefined
                                      (ManyToMany.relationName_of models manyFirst)))
                      fields None []]).
Proof.
  intros Hfind Hjoin. eexists. simpl. rewrite Hfind, Hjoin. reflexivity.
Qed.

(** The fields of a join model: two scalar columns with the physical
    names [A] and [B], each of the type of the id field of the model it
    refers to, and two owning relation fields. *)
Lemma generateJoinFields_shape pair models fields models' :
  ManyToMany.generateJoinFields pair models = inr (fields, models') ->
  exists a b aType aId bType bId many,
    ManyToMany.getJoinIdType a models' = inr aType
    /\ ManyToMany.getJoinIdType b models' = inr bType
    /\ fields = [ ManyToMany.join_scalar (a ++ "Id") "A" aType;
                  ManyToMany.join_object a (a ++ "To" ++ many) (a ++ "Id") aId;
                  ManyToMany.join_scalar (b ++ "Id") "B" bType;
                  ManyToMany.join_object b (b ++ "To" ++ many) (b ++ "Id") bId ].
Proof.
  unfold ManyToMany.generateJoinFields.
  destruct (ManyToMany.sorted_pair models (fst pair) (snd pair)) as [A B].
  cbv zeta.
  match goal with
  | |- context [ManyToMany.assign A ManyToMany.clear_relation_fields ?m] =>
      set (models3 := ManyToMany.assign A ManyToMany.clear_relation_fields m)
  end.
  destruct (ManyToMany.getJoinIdType (ManyToMany.type_of models B) models3)
    as [e|aType] eqn:Ha; [discriminate|].
  destruct (ManyToMany.getJoinIdName (ManyToMany.type_of models B) models3)
    as [e|aId]; [discriminate|].
  destruct (ManyToMany.getJoinIdType (ManyToMany.type_of models A) models3)
    as [e|bType] eqn:Hb; [discriminate|].
  destruct (ManyToMany.getJoinIdName (ManyToMany.type_of models A) models3)
    as [e|bId]; [discriminate|].
  intros H. inversion H; subst.
  do 7 eexists. split; [exact Ha|]. split; [exact Hb|]. reflexivity.
Qed.

End Synthesizer.

Section SynthesizerRuns.
#[local] Existing Instance IdentifierCollation.collation.

(** C1, on the models [Tag] and [Post] declared in this order. The
    synthesizer produces one join model; its scalar fields have the
    physical names [A] and [B] and the type of the referenced id fields;
    but its name is [TagToPost], the order of declaration, not the
    ascending order [PostToTag] under which the two rewritten relation
    fields now refer to it. *)
Theorem C1_join_model_named_in_declaration_order :
  match ManyToMany.extractManyToManyModels [Scenarios.Tag; Scenarios.Post] with
  | inr ([join], models') =>
      Model.name join = "TagToPost"
      /\ map (fun f => (Field.name f, Field.dbName f, Field.type f))
           (filter (fun f => FieldKind_eqb (Field.kind f) scalar) (Model.fields join))
         = [("TagId", Some "A", "Int"); ("PostId", Some "B", "Int")]
      /\ ManyToMany.type_of models' (0, 1) = "PostToTag"
      /\ ManyToMany.type_of models' (1, 1) = "PostToTag"
  | _ => False
  end.
Proof. vm_compute. repeat split. Qed.

(** With the two models declared as [Post], [Tag] the name agrees with
    the ascending order. *)
Lemma join_model_of_Post_Tag :
  match ManyToMany.extractManyToManyModels [Scenarios.Post; Scenarios.Tag] with
  | inr ([join], _) => Model.name join = "PostToTag"
  | _ => False
  end.
Proof. vm_compute. reflexivity. Qed.

(** C3, on two inputs. The pair of [Post] and [Tag] alone yields the
    join model [PostToTag], and the pair of [Author] and [Book] alone
    yields [AuthorToBook]. But a relation name carried by a single list
    field ([Lone.tags]) ends the synthesis when it is met: with [Lone]
    declared before them, [Post] and [Tag] get no join model. And after
    a pair has been processed its second field stays in the list under
    its new relation name, finds no partner and ends the synthesis too:
    of the two pairs in [Post], [Tag], [Author], [Book] only the first
    gets its join model. *)
Theorem C3_later_groups_are_dropped :
  let names r :=
    match r with
    | inr (tables, _) => Some (map Model.name tables)
    | inl _ => None
    end in
  names (ManyToMany.extractManyToManyModels [Scenarios.Post; Scenarios.Tag])
  = Some ["PostToTag"]
  /\ names (ManyToMany.extractManyToManyModels [Scenarios.Author; Scenarios.Book])
     = Some ["AuthorToBook"]
  /\ ManyToMany.extractManyToManyModels [Scenarios.Lone; Scenarios.Post; Scenarios.Tag]
     = inr ([], [Scenarios.Lone; Scenarios.Post; Scenarios.Tag])
  /\ names (ManyToMany.extractManyToManyModels
              [Scenarios.Post; Scenarios.Tag; Scenarios.Author; Scenarios.Book])
     = Some ["PostToTag"].
Proof. vm_compute. repeat split. Qed.

End SynthesizerRuns.

(** ** Foreign-key declarations *)

Section ForeignKeys.
Variable schemaTable : Model.t.
Variable field : Field.t.

(** The declaration the Postgres module gives an owning relation whose
    delete action the [switch] recognises. *)
Lemma Pg_relation_decl_owning deleteAction st :
  Common.is_relField field = true ->
  Common.owns_keys field = true ->
  Common.deleteAction_of true (Field.relationOnDelete field) = Some deleteAction ->
  Pg.relation_decl schemaTable field st
  = (inr (Some (Js.tab ++ "'" ++ Common.escaped_fkeyName schemaTable field ++ "': "
                ++ Common.fk_object (Common.escaped_fkeyName schemaTable field)
                     (Model.name schemaTable)
                     (Js.nullish (Field.relationFromFields field) []) (Field.type field)
                     (Js.nullish (Field.relationToFields field) [])
                ++ Common.fk_actions deleteAction)),
     snd (add_core "foreignKey" st)).
Proof.
  unfold Pg.relation_decl, Common.is_relField, Common.owns_keys.
  destruct (Field.relationFromFields field) as [[|x l]|]; try discriminate;
    destruct (Field.relationToFields field) as [toFields|]; try discriminate.
  intros _ _ ->. reflexivity.
Qed.

(** The same for the MySQL module, when the shortcut for one column
    does not apply. *)
Lemma MySql_relation_decl_owning deleteAction columnFields st :
  Common.is_relField field = true ->
  Common.owns_keys field = true ->
  Common.one_column field = false ->
  Common.deleteAction_of false (Field.relationOnDelete field) = Some deleteAction ->
  MySql.relation_decl schemaTable field columnFields st
  = (inr (Some (Js.tab ++ MySql.fkeyName schemaTable field ++ ": "
                ++ Common.fk_object (MySql.fkeyName schemaTable field)
                     (Model.name schemaTable)
                     (Js.nullish (Field.relationFromFields field) []) (Field.type field)
                     (Js.nullish (Field.relationToFields field) [])
                ++ Common.fk_actions deleteAction), columnFields),
     snd (add_core "foreignKey" st)).
Proof.
  unfold MySql.relation_decl, Common.is_relField, Common.owns_keys, Common.one_column.
  destruct (Field.relationFromFields field) as [[|x [|y l]]|]; try discriminate;
    destruct (Field.relationToFields field) as [[|u [|v l']]|]; try discriminate;
    intros _ _ _ ->; reflexivity.
Qed.

(** And for the SQLite module. *)
Lemma SQLite_relation_decl_owning deleteAction columnFields st :
  Common.is_relField field = true ->
  Common.owns_keys field = true ->
  Common.one_column field = false ->
  Common.deleteAction_of false (Field.relationOnDelete field) = Some deleteAction ->
  SQLite.relation_decl schemaTable field columnFields st
  = (inr (Some (Js.tab ++ "'" ++ Common.escaped_fkeyName schemaTable field ++ "': "
                ++ Common.fk_object (Common.escaped_fkeyName schemaTable field)
                     (Model.name schemaTable)
                     (Js.nullish (Field.relationFromFields field) []) (Field.type field)
                     (Js.nullish (Field.relationToFields field) [])
                ++ Common.fk_actions deleteAction), columnFields),
     snd (add_core "foreignKey" st)).
Proof.
  unfold SQLite.relation_decl, Common.is_relField, Common.owns_keys, Common.one_column.
  destruct (Field.relationFromFields field) as [[|x [|y l]]|]; try discriminate;
    destruct (Field.relationToFields field) as [[|u [|v l']]|]; try discriminate;
    intros _ _ _ ->; reflexivity.
Qed.

(** With the shortcut, the MySQL and SQLite modules declare nothing and
    append [.references(...)] to the text of the column. *)
Lemma shortcut_relation_decl thisField otherField columnFields st :
  Field.relationFromFields field = Some [thisField] ->
  Field.relationToFields field = Some [otherField] ->
  let referenced :=
    JsObject.assign thisField
      (JsObject.read thisField columnFields
       ++ ".references(() => " ++ Field.type field ++ "." ++ otherField ++ ")")
      columnFields in
  MySql.relation_decl schemaTable field columnFields st = (inr (None, referenced), st)
  /\ SQLite.relation_decl schemaTable field columnFields st = (inr (None, referenced), st).
Proof.
  intros Hf Ht. unfold MySql.relation_decl, SQLite.relation_decl.
  rewrite Hf, Ht. split; reflexivity.
Qed.

End ForeignKeys.

(** X26. For every relation field that owns foreign keys and has no
    delete action, the [foreignKey] declaration that a generator emits
    for it ends in [.onDelete('cascade')] followed by
    [.onUpdate('cascade')]: the Postgres module and the later MySQL
    module emit it for every such field, the first MySQL module and the
    SQLite module unless the relation goes from one column to one
    column. *)
Theorem declared_foreign_keys_cascade :
  forall (schemaTable : Model.t) (field : Field.t) (columnFields : JsObject.t)
         (st : Imports),
    Common.is_relField field = true ->
    Common.owns_keys field = true ->
    Field.relationOnDelete field = None ->
    let cascade :=
      Js.nl ++ Js.tab ++ Js.tab ++ ".onDelete('cascade')"
      ++ Js.nl ++ Js.tab ++ Js.tab ++ ".onUpdate('cascade')" in
    let declaration fkeyName :=
      Common.fk_object fkeyName (Model.name schemaTable)
        (Js.nullish (Field.relationFromFields field) []) (Field.type field)
        (Js.nullish (Field.relationToFields field) []) in
    let escaped := Common.escaped_fkeyName schemaTable field in
    let plain := MySql.fkeyName schemaTable field in
    fst (Pg.relation_decl schemaTable field st)
    = inr (Some (Js.tab ++ "'" ++ escaped ++ "': " ++ declaration escaped ++ cascade))
    /\ fst (MySqlRevised.relation_decl schemaTable field st)
       = inr (Some (Js.tab ++ "'" ++ escaped ++ "': " ++ declaration escaped ++ cascade))
    /\ (Common.one_column field = false ->
        fst (MySql.relation_decl schemaTable field columnFields st)
        = inr (Some (Js.tab ++ plain ++ ": " ++ declaration plain ++ cascade), columnFields)
        /\ fst (SQLite.relation_decl schemaTable field columnFields st)
           = inr (Some (Js.tab ++ "'" ++ escaped ++ "': " ++ declaration escaped ++ cascade),
                  columnFields)).
Proof.
  intros schemaTable field columnFields st Hrel Hown Hdel. cbv zeta.
  assert (Hpg : Common.deleteAction_of true (Field.relationOnDelete field) = Some "cascade")
    by (rewrite Hdel; reflexivity).
  assert (Hmy : Common.deleteAction_of false (Field.relationOnDelete field) = Some "cascade")
    by (rewrite Hdel; reflexivity).
  split; [|split].
  - rewrite (Pg_relation_decl_owning schemaTable field st Hrel Hown Hpg). reflexivity.
  - unfold MySqlRevised.relation_decl.
    rewrite (Pg_relation_decl_owning schemaTable field st Hrel Hown Hpg). reflexivity.
  - intros Hone. split.
    + rewrite (MySql_relation_decl_owning schemaTable field columnFields st Hrel Hown Hone Hmy).
      reflexivity.
    + rewrite (SQLite_relation_decl_owning schemaTable field columnFields st Hrel Hown Hone Hmy).
      reflexivity.
Qed.

(** X26 at the relation [customer] of [Order], which has two columns. *)
Lemma declared_foreign_keys_cascade_witness :
  Common.is_relField (Scenarios.customer None) = true
  /\ Common.owns_keys (Scenarios.customer None) = true
  /\ Common.one_column (Scenarios.customer None) = false
  /\ fst (Pg.relation_decl (Scenarios.Order None) (Scenarios.customer None) Pg.initial)
     = inr (Some (Js.tab ++ "'Order_customer_fkey': "
                  ++ Common.fk_object "Order_customer_fkey" "Order"
                       ["customerTenant"; "customerNo"] "Customer" ["tenant"; "no"]
                  ++ Js.nl ++ Js.tab ++ Js.tab ++ ".onDelete('cascade')"
                  ++ Js.nl ++ Js.tab ++ Js.tab ++ ".onUpdate('cascade')"))
  /\ fst (MySql.relation_decl (Scenarios.Order None) (Scenarios.customer None) []
            MySql.initial)
     = inr (Some (Js.tab ++ "Order_customer_fkey: "
                  ++ Common.fk_object "Order_customer_fkey" "Order"
                       ["customerTenant"; "customerNo"] "Customer" ["tenant"; "no"]
                  ++ Js.nl ++ Js.tab ++ Js.tab ++ ".onDelete('cascade')"
                  ++ Js.nl ++ Js.tab ++ Js.tab ++ ".onUpdate('cascade')"), []).
Proof.
  pose proof (declared_foreign_keys_cascade (Scenarios.Order None)
                (Scenarios.customer None) [] Pg.initial eq_refl eq_refl eq_refl) as H.
  cbv zeta in H. destruct H as [Hpg _].
  pose proof (declared_foreign_keys_cascade (Scenarios.Order None)
                (Scenarios.customer None) [] MySql.initial eq_refl eq_refl eq_refl) as H.
  cbv zeta in H. destruct H as [_ [_ Hmy]].
  split; [reflexivity|]. split; [reflexivity|]. split; [reflexivity|].
  split; [exact Hpg|exact (proj1 (Hmy eq_refl))].
Defined.

(** C4. The relation [author] of [Article] owns the one column
    [authorId], refers to one column and has no delete action. The
    first MySQL module and the SQLite module declare no foreign key for
    it: they append [.references(() => User.id)] to the column and print
    neither [onDelete] nor [onUpdate] anywhere in the table. For the
    same model the Postgres module and the later MySQL module declare
    the foreign key with [.onDelete('cascade')] and
    [.onUpdate('cascade')], as the declaration branch of the first two
    does for a relation of two columns. The join table of a
    many-to-many relation takes the same shortcut: the SQLite text for
    [Post] and [Tag] has no [onDelete] at all. *)
Theorem C4_inlined_reference_has_no_action :
  let cascade :=
    "foreignColumns: [User.id]" ++ Js.nl ++ Js.tab ++ "})"
    ++ Js.nl ++ Js.tab ++ Js.tab ++ ".onDelete('cascade')"
    ++ Js.nl ++ Js.tab ++ Js.tab ++ ".onUpdate('cascade')" in
  Common.owns_keys Scenarios.author = true
  /\ Field.relationOnDelete Scenarios.author = None
  /\ match fst (MySql.table_step [] Scenarios.Article MySql.initial),
           fst (SQLite.table_step Scenarios.Article SQLite.initial),
           fst (Pg.table_step MoreScenarios.Article_ast Scenarios.Article Pg.initial),
           fst (MySqlRevised.table_step [] MoreScenarios.Article_ast Scenarios.Article
                  MySqlRevised.initial) with
     | inr (mysqlTable, _), inr (sqliteTable, _), inr (pgTable, _), inr (laterTable, _) =>
         Js.includes "authorId: int('authorId').notNull().references(() => User.id)"
           mysqlTable = true
         /\ Js.includes "onDelete" mysqlTable = false
         /\ Js.includes "onUpdate" mysqlTable = false
         /\ Js.includes "authorId: int('authorId').notNull().references(() => User.id)"
              sqliteTable = true
         /\ Js.includes "onDelete" sqliteTable = false
         /\ Js.includes "onUpdate" sqliteTable = false
         /\ Js.includes cascade pgTable = true
         /\ Js.includes cascade laterTable = true
     | _, _, _, _ => False
     end
  /\ match fst (@SQLite.generateSQLiteSchema IdentifierCollation.collation
                  (GeneratorOptions.mk [Scenarios.Post; Scenarios.Tag] [] [])
                  SQLite.initial) with
     | inr text =>
         Js.includes "export const PostToTag = sqliteTable('_PostToTag', {" text = true
         /\ Js.includes "TagId: int('A').notNull().references(() => Tag.id)" text = true
         /\ Js.includes "onDelete" text = false
     | inl _ => False
     end.
Proof. vm_compute. repeat split. Qed.

(** C10. For every relation field whose delete action is [NoAction] and
    for which a generator emits a [foreignKey] declaration (the Postgres
    module always, the MySQL and SQLite modules unless the relation goes
    from one column to one column), the declaration is the
    [foreignKey({...})] object followed by [.onUpdate('cascade')] and
    nothing else: no [.onDelete(...)] call is chained. *)
Theorem C10_no_action_omits_onDelete :
  forall (schemaTable : Model.t) (field : Field.t) (columnFields : JsObject.t)
         (st : Imports),
    Common.is_relField field = true ->
    Common.owns_keys field = true ->
    Field.relationOnDelete field = Some "NoAction" ->
    let onUpdate := Js.nl ++ Js.tab ++ Js.tab ++ ".onUpdate('cascade')" in
    let declaration fkeyName :=
      Common.fk_object fkeyName (Model.name schemaTable)
        (Js.nullish (Field.relationFromFields field) []) (Field.type field)
        (Js.nullish (Field.relationToFields field) []) in
    let escaped := Common.escaped_fkeyName schemaTable field in
    let plain := MySql.fkeyName schemaTable field in
    fst (Pg.relation_decl schemaTable field st)
    = inr (Some (Js.tab ++ "'" ++ escaped ++ "': " ++ declaration escaped ++ onUpdate))
    /\ (Common.one_column field = false ->
        fst (MySql.relation_decl schemaTable field columnFields st)
        = inr (Some (Js.tab ++ plain ++ ": " ++ declaration plain ++ onUpdate), columnFields)
        /\ fst (SQLite.relation_decl schemaTable field columnFields st)
           = inr (Some (Js.tab ++ "'" ++ escaped ++ "': " ++ declaration escaped ++ onUpdate),
                  columnFields)).
Proof.
  intros schemaTable field columnFields st Hrel Hown Hdel. cbv zeta.
  assert (Hpg : Common.deleteAction_of true (Field.relationOnDelete field) = Some "no action")
    by (rewrite Hdel; reflexivity).
  assert (Hmy : Common.deleteAction_of false (Field.relationOnDelete field) = Some "no action")
    by (rewrite Hdel; reflexivity).
  split.
  - rewrite (Pg_relation_decl_owning schemaTable field st Hrel Hown Hpg). reflexivity.
  - intros Hone. split.
    + rewrite (MySql_relation_decl_owning schemaTable field columnFields st Hrel Hown Hone Hmy).
      reflexivity.
    + rewrite (SQLite_relation_decl_owning schemaTable field columnFields st Hrel Hown Hone Hmy).
      reflexivity.
Qed.

(** C10 at the relation [customer] of [Order] with [onDelete: NoAction]:
    the text of the MySQL declaration. *)
Lemma C10_witness :
  Common.is_relField (Scenarios.customer (Some "NoAction")) = true
  /\ Common.owns_keys (Scenarios.customer (Some "NoAction")) = true
  /\ fst (MySql.relation_decl (Scenarios.Order (Some "NoAction"))
            (Scenarios.customer (Some "NoAction")) [] MySql.initial)
     = inr (Some (Js.tab ++ "Order_customer_fkey: foreignKey({"
                  ++ Js.nl ++ Js.tab ++ Js.tab ++ "name: 'Order_customer_fkey',"
                  ++ Js.nl ++ Js.tab ++ Js.tab
                  ++ "columns: [Order.customerTenant, Order.customerNo],"
                  ++ Js.nl ++ Js.tab ++ Js.tab
                  ++ "foreignColumns: [Customer.tenant, Customer.no]"
                  ++ Js.nl ++ Js.tab ++ "})"
                  ++ Js.nl ++ Js.tab ++ Js.tab ++ ".onUpdate('cascade')"), []).
Proof.
  split; [reflexivity|]. split; [reflexivity|].
  exact (proj1 (proj2 (C10_no_action_omits_onDelete (Scenarios.Order (Some "NoAction"))
                         (Scenarios.customer (Some "NoAction")) [] MySql.initial
                         eq_refl eq_refl eq_refl) eq_refl)).
Defined.

(** ** Unique-index declarations *)

Lemma length_append (a b : string) :
  String.length (a ++ b) = String.length a + String.length b.
Proof. induction a as [|c a IH]; simpl; [reflexivity|]. rewrite IH. reflexivity. Qed.

Lemma take_append (a b : string) : Js.take (String.length a) (a ++ b) = a.
Proof.
  unfold Js.take. induction a as [|c a IH]; simpl.
  - destruct b; reflexivity.
  - rewrite IH. reflexivity.
Qed.

(** Cutting a suffix of known length gives the rest back. *)
Lemma drop_last_append (a b : string) : Js.drop_last (String.length b) (a ++ b) = a.
Proof.
  unfold Js.drop_last. cbv zeta. rewrite length_append.
  destruct (Nat.leb_spec (String.length b) (String.length a + String.length b)) as [_|H];
    [|lia].
  replace (String.length a + String.length b - String.length b)
    with (String.length a) by lia.
  apply take_append.
Qed.

Lemma drop_last_key (a : string) : Js.drop_last 4 (a ++ "_key") = a.
Proof. exact (drop_last_append a "_key"). Qed.

Lemma append_assoc (a b c : string) : (a ++ b) ++ c = a ++ (b ++ c).
Proof. induction a as [|x a IH]; simpl; [reflexivity|]. rewrite IH. reflexivity. Qed.

Lemma replace_all_append c by_ (a b : string) :
  Js.replace_all c by_ (a ++ b) = Js.replace_all c by_ a ++ Js.replace_all c by_ b.
Proof.
  induction a as [|x a IH]; simpl; [reflexivity|].
  rewrite IH, append_assoc. reflexivity.
Qed.

(** The escaper works character by character. *)
Lemma escape_append (a b : string) q :
  Escape.s (a ++ b) q = Escape.s a q ++ Escape.s b q.
Proof. unfold Escape.s. rewrite !replace_all_append. reflexivity. Qed.

Lemma truthy_str_some name : name <> EmptyString -> Js.truthy_str (Some name) = true.
Proof.
  intros H. simpl. destruct (String.eqb_spec name EmptyString); [contradiction|reflexivity].
Qed.

(** C7, as amended. A unique index without a source name gets the name
    `{model}_{fields}_key`, which is the argument of [uniqueIndex(...)],
    and its key in the declarations is that name with [_key] replaced by
    [_unique_idx]. A unique index with a source name keeps it as key and
    as argument, also when it ends in [_key]: verbatim in the MySQL
    module, passed through the escaper in the Postgres and SQLite
    modules. *)
Theorem C7_unique_index_key :
  forall (schemaTable : Model.t) (fields : list string),
    let table := Model.name schemaTable in
    let base := table ++ "_" ++ Js.join "_" fields in
    MySql.unique_decl schemaTable (Index.mk None fields)
    = Common.unique_decl (base ++ "_unique_idx") (base ++ "_key") table fields
    /\ Common.escaped_unique_decl schemaTable (Index.mk None fields)
       = Common.unique_decl (Escape.s base Escape.Quote ++ "_unique_idx")
           (Escape.s base Escape.Quote ++ "_key") table fields
    /\ forall name : string,
         name <> EmptyString ->
         MySql.unique_decl schemaTable (Index.mk (Some name) fields)
         = Common.unique_decl name name table fields
         /\ Common.escaped_unique_decl schemaTable (Index.mk (Some name) fields)
            = Common.unique_decl (Escape.s name Escape.Quote) (Escape.s name Escape.Quote)
                table fields.
Proof.
  intros schemaTable fields. cbv zeta.
  set (base := Model.name schemaTable ++ "_" ++ Js.join "_" fields).
  assert (Hname : Common.default_unique_name (Model.name schemaTable) fields
                  = base ++ "_key").
  { unfold Common.default_unique_name, base. rewrite !append_assoc. reflexivity. }
  split; [|split].
  - unfold MySql.unique_decl, Common.unique_key. simpl. rewrite Hname.
    rewrite drop_last_key. reflexivity.
  - unfold Common.escaped_unique_decl, Common.unique_key. simpl. rewrite Hname.
    rewrite escape_append.
    change (Escape.s "_key" Escape.Quote) with "_key".
    rewrite drop_last_key. reflexivity.
  - intros name Hne. unfold MySql.unique_decl, Common.escaped_unique_decl, Common.unique_key.
    cbn [Index.name Index.fields Js.nullish].
    rewrite (truthy_str_some Hne). split; reflexivity.
Qed.

(** C7 at the index named [User_email_key] of the model [User]. *)
Lemma C7_witness :
  "User_email_key" <> EmptyString
  /\ MySql.unique_decl Scenarios.User Scenarios.named_index
     = Js.tab ++ "'User_email_key': uniqueIndex('User_email_key')"
       ++ Js.nl ++ Js.tab ++ Js.tab ++ ".on(User.email)".
Proof.
  split; [discriminate|].
  exact (proj1 (proj2 (proj2 (C7_unique_index_key Scenarios.User ["email"]))
                  "User_email_key" ltac:(discriminate))).
Defined.

(** C7, as stated, fails for a source name that ends in [_key]: the key
    of the index [User_email_key] is printed as it is, in every module,
    and no [_unique_idx] appears. And a source name is not always
    printed verbatim: the Postgres and SQLite modules put a backslash
    before the quote of [user's email]. *)
Lemma C7_named_key_suffix_is_kept :
  MySql.unique_decl Scenarios.User Scenarios.named_index
  = Js.tab ++ "'User_email_key': uniqueIndex('User_email_key')"
    ++ Js.nl ++ Js.tab ++ Js.tab ++ ".on(User.email)"
  /\ Js.includes "_unique_idx" (MySql.unique_decl Scenarios.User Scenarios.named_index)
     = false
  /\ Js.includes "_unique_idx"
       (Common.escaped_unique_decl Scenarios.User Scenarios.named_index) = false
  /\ Js.includes "user's email"
       (Common.escaped_unique_decl Scenarios.User Scenarios.quoted_index) = false
  /\ Js.includes ("user" ++ Js.backslash ++ "'s email")
       (Common.escaped_unique_decl Scenarios.User Scenarios.quoted_index) = true.
Proof. vm_compute. repeat split. Qed.

(** ** Whole runs on small schemas *)

Section Runs.
#[local] Existing Instance IdentifierCollation.collation.

(** C8, on two inputs. The Postgres module prints the values of an enum
    between single quotes as they are: the value mapped to [it's fine]
    ends the literal at its own quote, and the escaped form does not
    occur. The MySQL module prints the argument of [dbgenerated] between
    backticks as it is, where the Postgres and SQLite modules print it
    escaped. *)
Theorem C8_embedded_text_is_not_escaped :
  fst (Pg.generatePgSchema (GeneratorOptions.mk [] [Scenarios.Mood] []) Pg.initial)
  = inr ("import { pgEnum, pgTable } from 'drizzle-orm/pg-core'" ++ Js.nl ++ Js.nl
         ++ "export const Mood = pgEnum('Mood', ['HAPPY', 'it's fine'])")
  /\ Js.includes (Escape.s "it's fine" Escape.Quote) (Pg.enum_decl Scenarios.Mood) = false
  /\ match fst (MySql.generateMySqlSchema
                  (GeneratorOptions.mk [Scenarios.Coupon] [] []) MySql.initial),
           fst (Pg.generatePgSchema
                  (GeneratorOptions.mk [Scenarios.Coupon] [] Scenarios.Coupon_ast) Pg.initial),
           fst (SQLite.generateSQLiteSchema
                  (GeneratorOptions.mk [Scenarios.Coupon] [] []) SQLite.initial) with
     | inr mysql, inr pg, inr sqlite =>
         Js.includes ".default(sql`md5(`seed`)`)" mysql = true
         /\ Js.includes (Escape.s "md5(`seed`)" Escape.Backtick) mysql = false
         /\ Js.includes (".default(sql`" ++ Escape.s "md5(`seed`)" Escape.Backtick ++ "`)") pg
            = true
         /\ Js.includes (".default(sql`" ++ Escape.s "md5(`seed`)" Escape.Backtick ++ "`)") sqlite
            = true
     | _, _, _ => False
     end.
Proof. vm_compute. repeat split. Qed.

(** On a freshly loaded module the run on [User] prints this text. *)
Lemma User_on_fresh_postgres :
  fst (Pg.generatePgSchema Scenarios.user_options Pg.initial)
  = inr ("import { pgTable, serial, text } from 'drizzle-orm/pg-core'" ++ Js.nl ++ Js.nl
         ++ "export const User = pgTable('User', {" ++ Js.nl
         ++ Js.tab ++ "id: serial('id').notNull().primaryKey()," ++ Js.nl
         ++ Js.tab ++ "email: text('email').notNull().unique()" ++ Js.nl
         ++ "});").
Proof. vm_compute. reflexivity. Qed.

(** C9, as stated, fails: neither of the two column texts of the claim
    occurs in that output. *)
Lemma C9_columns_carry_notNull :
  match fst (Pg.generatePgSchema Scenarios.user_options Pg.initial) with
  | inr output =>
      Js.includes "id: serial('id').primaryKey()" output = false
      /\ Js.includes "email: text('email').unique()" output = false
  | inl _ => False
  end.
Proof. vm_compute. split; reflexivity. Qed.

End Runs.

Lemma prefix_empty (s : string) : prefix EmptyString s = true.
Proof. destruct s; reflexivity. Qed.

Lemma prefix_append_l (x a b : string) : prefix x a = true -> prefix x (a ++ b) = true.
Proof.
  revert x. induction a as [|d a IH]; intros x H.
  - destruct x; [apply prefix_empty|discriminate H].
  - destruct x as [|c x]; [apply prefix_empty|]. simpl in *.
    destruct (Ascii.ascii_dec c d); [apply IH; exact H|discriminate].
Qed.

Lemma includes_prefix (x a : string) : prefix x a = true -> Js.includes x a = true.
Proof. intros H. destruct a; cbn [Js.includes]; rewrite H; reflexivity. Qed.

Lemma includes_append_l (x a b : string) :
  Js.includes x a = true -> Js.includes x (a ++ b) = true.
Proof.
  induction a as [|c a IH]; cbn [Js.includes]; intros H.
  - rewrite orb_false_r in H. apply includes_prefix.
    apply (prefix_append_l x EmptyString b H).
  - apply orb_true_iff in H. cbn [append Js.includes]. apply orb_true_iff.
    destruct H as [H|H].
    + left. apply (prefix_append_l x (String c a) b H).
    + right. apply IH. exact H.
Qed.

Lemma includes_append_r (x a b : string) :
  Js.includes x b = true -> Js.includes x (a ++ b) = true.
Proof.
  intros H. induction a as [|c a IH]; cbn [append Js.includes]; [exact H|].
  rewrite IH. apply orb_true_r.
Qed.

Lemma includes_refl (x : string) : Js.includes x x = true.
Proof. apply includes_prefix. induction x as [|c x IH]; simpl; [reflexivity|].
  destruct (Ascii.ascii_dec c c); [exact IH|contradiction].
Qed.

Section SortedNames.
Context {C : Js.Collation}.

Lemma In_insert_sorted (x y : string) l :
  In x (Js.insert_sorted (fun s => s) y l) <-> x = y \/ In x l.
Proof.
  induction l as [|z l IH]; simpl.
  - intuition congruence.
  - destruct (Js.localeCompare y z); simpl; rewrite ?IH; intuition congruence.
Qed.

(** Sorting the names of a set loses none. *)
Lemma In_sorted_names (x : string) (s : Js.set) : In x s -> In x (Common.sorted_names s).
Proof.
  unfold Common.sorted_names, Js.sort_by.
  induction s as [|y s IH]; simpl; [tauto|].
  intros [->|H]; apply In_insert_sorted; [left; reflexivity|right; apply IH; exact H].
Qed.

Lemma In_set_add_same (x : string) (s : Js.set) : In x (Js.set_add x s).
Proof.
  unfold Js.set_add. destruct (Js.set_has x s) eqn:E.
  - unfold Js.set_has in E. apply existsb_exists in E. destruct E as [y [Hy Heq]].
    apply String.eqb_eq in Heq. subst. exact Hy.
  - apply in_or_app. right. left. reflexivity.
Qed.

Lemma In_set_add_mono (x y : string) (s : Js.set) : In x s -> In x (Js.set_add y s).
Proof.
  intros H. unfold Js.set_add. destruct (Js.set_has y s); [exact H|].
  apply in_or_app. left. exact H.
Qed.

(** The block that [emit] puts in front holds the import line of the
    dialect core whenever that set has a name. *)
Lemma emit_with_core_names st coreSource block :
  coreImports st <> [] ->
  exists imports,
    Common.emit st coreSource [block] = imports ++ Js.nl ++ Js.nl ++ block
    /\ Js.includes
         ("import { " ++ Js.join ", " (Common.sorted_names (coreImports st))
          ++ " } from '" ++ coreSource ++ "'") imports = true.
Proof.
  intros Hne. unfold Common.emit, Common.importsStr.
  assert (Hline : Common.import_line (coreImports st) coreSource
                  = Some ("import { " ++ Js.join ", " (Common.sorted_names (coreImports st))
                          ++ " } from '" ++ coreSource ++ "'")).
  { unfold Common.import_line.
    destruct (Common.sorted_names (coreImports st)) as [|n names] eqn:E; [|reflexivity].
    exfalso. destruct (coreImports st) as [|y s]; [apply Hne; reflexivity|].
    pose proof (In_sorted_names y (y :: s) (or_introl eq_refl)) as Hin.
    rewrite E in Hin. exact Hin. }
  rewrite Hline.
  set (line := "import { " ++ Js.join ", " (Common.sorted_names (coreImports st))
               ++ " } from '" ++ coreSource ++ "'").
  destruct (Common.import_line (drizzleImports st) "drizzle-orm") as [dline|];
    cbv zeta; cbn [somes].
  - assert (Hlen : (String.length (Js.join Js.nl [dline; line]) =? 0)%nat = false)
      by (cbn [Js.join]; destruct dline; reflexivity).
    rewrite Hlen. exists (dline ++ Js.nl ++ line). split; [reflexivity|].
    apply includes_append_r. apply (includes_append_r line Js.nl line).
    apply includes_refl.
  - exists line. split; [reflexivity|apply includes_refl].
Qed.

End SortedNames.

(** C9, as amended. For the model [User] with [id Int @id
    @default(autoincrement())] and [email String @unique], both required
    as Prisma fields without [?] are, the Postgres generator prints
    [.notNull()] before the other modifiers: whatever the import sets
    hold, the output contains [id: serial('id').notNull().primaryKey()]
    and [email: text('email').notNull().unique()], and an import line
    from the Postgres core whose names include [serial] and [text]. *)
Theorem C9_user_on_postgres :
  forall (C : Js.Collation) (st : Imports),
  exists (output : string) (names : list string),
    fst (Pg.generatePgSchema Scenarios.user_options st) = inr output
    /\ Js.includes "id: serial('id').notNull().primaryKey()" output = true
    /\ Js.includes "email: text('email').notNull().unique()" output = true
    /\ In "serial" names
    /\ In "text" names
    /\ Js.includes ("import { " ++ Js.join ", " names ++ " } from 'drizzle-orm/pg-core'")
         output = true.
Proof.
  intros C st.
  set (st' := mkImports (Js.set_add "text" (Js.set_add "serial" (coreImports st)))
                (drizzleImports st)).
  set (table := "export const User = pgTable('User', {" ++ Js.nl
                ++ Js.tab ++ "id: serial('id').notNull().primaryKey()," ++ Js.nl
                ++ Js.tab ++ "email: text('email').notNull().unique()" ++ Js.nl
                ++ "});").
  assert (Hrun : fst (Pg.generatePgSchema Scenarios.user_options st)
                 = inr (Common.emit st' "drizzle-orm/pg-core" [table])) by reflexivity.
  assert (Hne : coreImports st' <> []).
  { intros E. pose proof (In_set_add_same "text" (Js.set_add "serial" (coreImports st))) as H.
    simpl in E. rewrite E in H. exact H. }
  destruct (emit_with_core_names st' "drizzle-orm/pg-core" table Hne) as [imports [He Hi]].
  exists (imports ++ Js.nl ++ Js.nl ++ table), (Common.sorted_names (coreImports st')).
  split; [rewrite Hrun, He; reflexivity|].
  split; [apply includes_append_r; vm_compute; reflexivity|].
  split; [apply includes_append_r; vm_compute; reflexivity|].
  split; [apply In_sorted_names, In_set_add_mono, In_set_add_same|].
  split; [apply In_sorted_names, In_set_add_same|].
  apply includes_append_l. exact Hi.
Qed.

(** ** What the synthesizer leaves alone *)

Section Untouched.
Context {C : Js.Collation}.
Import ManyToMany.

Lemma nth_error_update_nth_same A (g : A -> A) (l : list A) n :
  nth_error (update_nth n g l) n = option_map g (nth_error l n).
Proof.
  revert n. induction l as [|x l IH]; intros [|n]; simpl; try reflexivity. apply IH.
Qed.

Lemma nth_error_update_nth_other A (g : A -> A) (l : list A) n k :
  k <> n -> nth_error (update_nth n g l) k = nth_error l k.
Proof.
  revert n k. induction l as [|x l IH]; intros [|n] [|k] H; simpl; try reflexivity.
  - contradiction.
  - apply IH. intros ->. apply H. reflexivity.
Qed.

(** An assignment to one field object is not seen through another. *)
Lemma deref_assign_other r r0 g models :
  r <> r0 -> deref (assign r g models) r0 = deref models r0.
Proof.
  intros Hne. unfold deref, assign. destruct r as [i j], r0 as [i0 j0]. simpl.
  destruct (Nat.eq_dec i0 i) as [->|Hi].
  - rewrite nth_error_update_nth_same.
    destruct (nth_error models i) as [m|]; simpl; [|reflexivity].
    apply nth_error_update_nth_other. intros ->. apply Hne. reflexivity.
  - rewrite nth_error_update_nth_other by exact Hi. reflexivity.
Qed.

Lemma sorted_pair_cases models f1 f2 :
  sorted_pair models f1 f2 = (f1, f2) \/ sorted_pair models f1 f2 = (f2, f1).
Proof.
  unfold sorted_pair. simpl.
  destruct (Js.localeCompare (type_of models f1) (type_of models f2)); auto.
Qed.

Lemma generateJoinFields_other f1 f2 models fields models' r0 :
  generateJoinFields (f1, f2) models = inr (fields, models') ->
  f1 <> r0 -> f2 <> r0 -> deref models' r0 = deref models r0.
Proof.
  unfold generateJoinFields. simpl fst. simpl snd.
  intros H H1 H2.
  assert (Hcases : forall A B,
             sorted_pair models f1 f2 = (A, B) -> A <> r0 /\ B <> r0).
  { intros A B HAB.
    destruct (sorted_pair_cases models f1 f2) as [E|E]; rewrite E in HAB;
      inversion HAB; subst; auto. }
  destruct (sorted_pair models f1 f2) as [A B].
  destruct (Hcases A B eq_refl) as [HA HB]. cbv zeta in H.
  repeat match type of H with
         | match ?x with _ => _ end = _ => destruct x; try discriminate
         end.
  inversion H; subst.
  rewrite !deref_assign_other by assumption. reflexivity.
Qed.

Lemma generateModels_other r0 : forall fuel l models tables tables' models',
  ~ In r0 l ->
  generateModels fuel l models tables = inr (tables', models') ->
  deref models' r0 = deref models r0.
Proof.
  induction fuel as [|fuel IH]; intros l models tables tables' models' Hnot H; simpl in H.
  - inversion H; reflexivity.
  - destruct l as [|manyFirst rest]; [inversion H; reflexivity|].
    destruct (find _ rest) as [manySecond|] eqn:Hfind; [|inversion H; reflexivity].
    apply find_some in Hfind. destruct Hfind as [Hin _].
    destruct (generateJoinFields (manyFirst, manySecond) models)
      as [e|[fields models1]] eqn:Hjoin; [discriminate|].
    apply IH in H.
    + rewrite H. eapply generateJoinFields_other; [exact Hjoin| |].
      * intros ->. apply Hnot. left. reflexivity.
      * intros ->. apply Hnot. right. exact Hin.
    + intros Hin'. apply filter_In in Hin'. apply Hnot. right. apply Hin'.
Qed.

(** A field without a relation name is the same after the synthesis. *)
Lemma extract_keeps_unrelated models tables models' r0 field :
  extractManyToManyModels models = inr (tables, models') ->
  deref models r0 = Some field ->
  Field.relationName field = None ->
  deref models' r0 = Some field.
Proof.
  unfold extractManyToManyModels. intros H Hd Hrel.
  assert (Hnot : ~ In r0 (filterManyToManyRelationFields models)).
  { unfold filterManyToManyRelationFields. intros Hin.
    apply filter_In in Hin. destruct Hin as [Hin _].
    apply filter_In in Hin. destruct Hin as [_ Ht].
    unfold relationName_of in Ht. rewrite Hd, Hrel in Ht. discriminate. }
  destruct (filterManyToManyRelationFields models) as [|f l] eqn:E.
  - inversion H; subst. exact Hd.
  - rewrite <- Hd. eapply generateModels_other; [exact Hnot|exact H].
Qed.

Lemma In_deref models model field :
  In model models -> In field (Model.fields model) ->
  exists r0, deref models r0 = Some field.
Proof.
  intros Hm Hf.
  apply In_nth_error in Hm. destruct Hm as [i Hi].
  apply In_nth_error in Hf. destruct Hf as [j Hj].
  exists (i, j). unfold deref. simpl. rewrite Hi. exact Hj.
Qed.

Lemma deref_In models r0 field :
  deref models r0 = Some field ->
  exists model, In model models /\ In field (Model.fields model).
Proof.
  unfold deref. destruct (nth_error models (fst r0)) as [m|] eqn:Hm; [|discriminate].
  intros Hf. exists m. split; eapply nth_error_In; eassumption.
Qed.

(** Every field of the input that has no relation name is a field of
    some model of the list the generators go through. *)
Lemma unrelated_field_survives models tables models' model field :
  extractManyToManyModels models = inr (tables, models') ->
  In model models -> In field (Model.fields model) ->
  Field.relationName field = None ->
  exists model', In model' (models' ++ tables)%list /\ In field (Model.fields model').
Proof.
  intros H Hm Hf Hrel.
  destruct (In_deref models model field Hm Hf) as [r0 Hd].
  pose proof (extract_keeps_unrelated _ _ H Hd Hrel) as Hd'.
  destruct (deref_In _ _ Hd') as [model' [Hm' Hf']].
  exists model'. split; [apply in_or_app; left; exact Hm'|exact Hf'].
Qed.

End Untouched.

(** ** Binary fields *)

Lemma fails_throw A (e : exn) : fails (@throw A e).
Proof. intros st. exists e. reflexivity. Qed.

Lemma fails_bind_left A B (m : M A) (k : A -> M B) : fails m -> fails (bind m k).
Proof.
  intros H st. destruct (H st) as [e He]. exists e. unfold bind.
  destruct (m st) as [[e'|a] st']; simpl in *; [congruence|discriminate].
Qed.

Lemma fails_bind_right A B (m : M A) (k : A -> M B) :
  (forall a, fails (k a)) -> fails (bind m k).
Proof.
  intros H st. unfold bind. destruct (m st) as [[e|a] st']; [exists e; reflexivity|].
  apply H.
Qed.

(** A [map] over a list throws when the callback throws at one of the
    elements. *)
Lemma fails_mapM A B (f : A -> M B) (l : list A) x :
  In x l -> fails (f x) -> fails (mapM f l).
Proof.
  intros Hin Hx. induction l as [|y l IH]; [contradiction|]. simpl.
  destruct Hin as [->|Hin].
  - apply fails_bind_left. exact Hx.
  - apply fails_bind_right. intros b. apply fails_bind_left. apply IH. exact Hin.
Qed.

Section Binary.
Variable field : Field.t.
Hypothesis Hkind : Field.kind field = scalar.
Hypothesis Htype : Field.type field = "Bytes".

Lemma MySql_binary_column_fails enums : fails (MySql.prismaToDrizzleColumn field enums).
Proof.
  unfold MySql.prismaToDrizzleColumn. rewrite Hkind, Htype. simpl.
  apply fails_bind_left, fails_throw.
Qed.

Lemma MySql_binary_table_fails enums model :
  In field (Model.fields model) -> fails (MySql.table_step enums model).
Proof.
  intros Hin. unfold MySql.table_step, MySql.column_entries.
  apply fails_bind_left, fails_bind_left.
  apply fails_mapM with (x := field); [exact Hin|].
  apply fails_bind_left, MySql_binary_column_fails.
Qed.

Lemma Pg_binary_column_fails nativeType : fails (Pg.prismaToDrizzleColumn field nativeType).
Proof.
  unfold Pg.prismaToDrizzleColumn. rewrite Hkind. simpl.
  apply fails_bind_left. unfold Pg.prismaToDrizzleType. rewrite Htype. simpl.
  apply fails_throw.
Qed.

Lemma Pg_binary_table_fails schema model :
  In field (Model.fields model) -> fails (Pg.table_step schema model).
Proof.
  intros Hin. unfold Pg.table_step.
  destruct (Ast.findModel schema (Model.name model)) as [modelAst|]; [|apply fails_throw].
  unfold Pg.column_entries.
  apply fails_bind_left, fails_bind_left.
  apply fails_mapM with (x := field); [exact Hin|].
  unfold Pg.column_entry.
  destruct (Ast.findField _ _); [|apply fails_throw].
  apply fails_bind_left, Pg_binary_column_fails.
Qed.

(** On SQLite the type resolves to a [blob] column; then the modifiers
    are added as to any column. *)
Lemma SQLite_binary_column st :
  SQLite.prismaToDrizzleColumn field st
  = bind (SQLite.addColumnModifiers field
            ((Js.tab ++ Field.name field ++ ": ")
             ++ "blob('"
             ++ Escape.s (Js.nullish (Field.dbName field) (Field.name field)) Escape.Quote
             ++ "', { mode: 'buffer' })"))
      (fun column => ret (Some column))
      (snd (add_core "blob" st)).
Proof.
  unfold SQLite.prismaToDrizzleColumn, SQLite.prismaToDrizzleType. rewrite Htype.
  reflexivity.
Qed.

End Binary.

(** The type mapper of the SQLite module throws for no type. *)
Lemma SQLite_type_mapper_returns type colDbName st :
  exists r, fst (SQLite.prismaToDrizzleType type colDbName st) = inr r.
Proof.
  unfold SQLite.prismaToDrizzleType. cbv zeta.
  repeat match goal with
         | |- context [String.eqb ?a ?b] => destruct (String.eqb a b)
         end; eexists; reflexivity.
Qed.

(** ** Fields whose type no [case] matches *)

Lemma somes_cons_eq A (y : option A) ys ys' :
  somes ys = somes ys' -> somes (y :: ys) = somes (y :: ys').
Proof. intros H. destruct y; simpl; congruence. Qed.

(** An element for which the callback returns [undefined] and adds no
    name leaves no trace in [list.map(f).filter((e) => e !== undefined)]. *)
Lemma mapM_somes_erase A B (g : A -> M (option B)) (f : A) :
  (forall st, g f st = (inr None, st)) ->
  forall l1 l2 st,
    bind (mapM g (l1 ++ f :: l2)%list) (fun cols => ret (somes cols)) st
    = bind (mapM g (l1 ++ l2)%list) (fun cols => ret (somes cols)) st.
Proof.
  intros Hg l1 l2. induction l1 as [|x l1 IH]; intros st.
  - simpl. unfold bind at 1 2. rewrite Hg.
    unfold bind, ret. destruct (mapM g l2 st) as [[e|ys] st']; reflexivity.
  - simpl. unfold bind at 1 2 4 5.
    destruct (g x st) as [[e|y] st1]; [reflexivity|].
    specialize (IH st1). unfold bind, ret in *.
    destruct (mapM g (l1 ++ f :: l2)%list st1) as [[e|ys] s];
      destruct (mapM g (l1 ++ l2)%list st1) as [[e'|ys'] s'];
      inversion IH; subst; try reflexivity.
    f_equal. f_equal. apply somes_cons_eq. assumption.
Qed.

Lemma filter_erase A (p : A -> bool) (f : A) l1 l2 :
  p f = false -> filter p (l1 ++ f :: l2)%list = filter p (l1 ++ l2)%list.
Proof. intros H. rewrite !filter_app. simpl. rewrite H. reflexivity. Qed.

Ltac no_case H :=
  repeat match goal with
         | |- context [String.eqb ?a ?b] =>
             destruct (String.eqb_spec a b) as [Heq|_];
             [exfalso; apply H; rewrite Heq; simpl; tauto|]
         end.

Section Unmapped.
Variable field : Field.t.
Hypothesis Hkind : FieldKind_eqb (Field.kind field) enum = false.

Lemma MySql_unmapped_column enums st :
  ~ In (Field.type field) MySql.case_labels ->
  MySql.prismaToDrizzleColumn field enums st = (inr None, st).
Proof.
  intros H. unfold MySql.prismaToDrizzleColumn, MySql.prismaToDrizzleType.
  rewrite Hkind. no_case H. reflexivity.
Qed.

Lemma SQLite_unmapped_column st :
  ~ In (Js.toLowerCase (Field.type field)) SQLite.case_labels ->
  SQLite.prismaToDrizzleColumn field st = (inr None, st).
Proof.
  intros H. unfold SQLite.prismaToDrizzleColumn, SQLite.prismaToDrizzleType.
  cbv zeta. no_case H. reflexivity.
Qed.

Lemma Pg_unmapped_column nativeType st :
  ~ In (Js.toLowerCase (Field.type field)) Pg.case_labels ->
  Pg.prismaToDrizzleColumn field nativeType st = (inr None, st).
Proof.
  intros H. unfold Pg.prismaToDrizzleColumn, Pg.prismaToDrizzleType.
  rewrite Hkind. cbv zeta. no_case H. reflexivity.
Qed.

Hypothesis Hrel : Common.is_relField field = false.
Variable schemaTable : Model.t.
Variables before after : list Field.t.

Lemma MySql_table_step_erase enums st :
  ~ In (Field.type field) MySql.case_labels ->
  MySql.table_step enums (Model.with_fields (before ++ field :: after) schemaTable) st
  = MySql.table_step enums (Model.with_fields (before ++ after) schemaTable) st.
Proof.
  intros H. unfold MySql.table_step. cbn [Model.with_fields Model.fields Model.name
    Model.dbName Model.primaryKey Model.uniqueIndexes].
  rewrite (filter_erase _ _ _ _ Hrel).
  unfold bind at 1. unfold bind at 6.
  unfold MySql.column_entries.
  rewrite mapM_somes_erase; [reflexivity|].
  intros st0. unfold bind. rewrite MySql_unmapped_column by exact H. reflexivity.
Qed.

Lemma SQLite_table_step_erase st :
  ~ In (Js.toLowerCase (Field.type field)) SQLite.case_labels ->
  SQLite.table_step (Model.with_fields (before ++ field :: after) schemaTable) st
  = SQLite.table_step (Model.with_fields (before ++ after) schemaTable) st.
Proof.
  intros H. unfold SQLite.table_step. cbn [Model.with_fields Model.fields Model.name
    Model.dbName Model.primaryKey Model.uniqueIndexes].
  rewrite (filter_erase _ _ _ _ Hrel).
  unfold bind at 1. unfold bind at 6.
  unfold SQLite.column_entries.
  rewrite mapM_somes_erase; [reflexivity|].
  intros st0. unfold bind. rewrite SQLite_unmapped_column by exact H. reflexivity.
Qed.

Lemma Pg_table_step_erase schema st :
  ~ In (Js.toLowerCase (Field.type field)) Pg.case_labels ->
  (forall modelAst,
      Ast.findModel schema (Model.name schemaTable) = Some modelAst ->
      Ast.findField (Ast.properties modelAst) (Field.name field) <> None) ->
  Pg.table_step schema (Model.with_fields (before ++ field :: after) schemaTable) st
  = Pg.table_step schema (Model.with_fields (before ++ after) schemaTable) st.
Proof.
  intros H Hast. unfold Pg.table_step. cbn [Model.with_fields Model.fields Model.name
    Model.dbName Model.primaryKey Model.uniqueIndexes].
  destruct (Ast.findModel schema (Model.name schemaTable)) as [modelAst|] eqn:E;
    [|reflexivity].
  rewrite (filter_erase _ _ _ _ Hrel).
  unfold bind at 1. unfold bind at 5.
  unfold Pg.column_entries.
  rewrite mapM_somes_erase; [reflexivity|].
  intros st0. unfold Pg.column_entry.
  destruct (Ast.findField (Ast.properties modelAst) (Field.name field)) as [fieldAst|] eqn:F.
  - unfold bind. rewrite Pg_unmapped_column by exact H. reflexivity.
  - exfalso. exact (Hast modelAst eq_refl F).
Qed.

End Unmapped.

(** C6. A field that is neither of an enum nor a relation field, and
    whose type is matched by no [case] label of the type mapper of a
    dialect (the label of the binary type is one of them), gets no
    column from that dialect: the column mapper returns [undefined],
    does not throw and adds no import, and the table (its text, its
    relations text, the imports, or the exception of another field) is
    exactly what the model without the field gives. For the Postgres
    module the field is to be found in the schema text, as every field
    of the data model is. *)
Theorem C6_unmapped_fields_are_dropped :
  forall (enums : list DatamodelEnum.t) (schema : list Ast.ModelNode)
         (schemaTable : Model.t) (before after : list Field.t) (field : Field.t)
         (st : Imports),
    FieldKind_eqb (Field.kind field) enum = false ->
    Common.is_relField field = false ->
    let withField := Model.with_fields (before ++ field :: after) schemaTable in
    let without := Model.with_fields (before ++ after) schemaTable in
    (~ In (Field.type field) MySql.case_labels ->
     MySql.prismaToDrizzleColumn field enums st = (inr None, st)
     /\ MySql.table_step enums withField st = MySql.table_step enums without st)
    /\ (~ In (Js.toLowerCase (Field.type field)) SQLite.case_labels ->
        SQLite.prismaToDrizzleColumn field st = (inr None, st)
        /\ SQLite.table_step withField st = SQLite.table_step without st)
    /\ (~ In (Js.toLowerCase (Field.type field)) Pg.case_labels ->
        (forall nativeType, Pg.prismaToDrizzleColumn field nativeType st = (inr None, st))
        /\ ((forall modelAst,
                Ast.findModel schema (Model.name schemaTable) = Some modelAst ->
                Ast.findField (Ast.properties modelAst) (Field.name field) <> None) ->
            Pg.table_step schema withField st = Pg.table_step schema without st)).
Proof.
  intros enums schema schemaTable before after field st Hkind Hrel. cbv zeta.
  split; [|split].
  - intros H. split.
    + apply MySql_unmapped_column; assumption.
    + apply MySql_table_step_erase; assumption.
  - intros H. split.
    + apply SQLite_unmapped_column; assumption.
    + apply SQLite_table_step_erase; assumption.
  - intros H. split.
    + intros nativeType. apply Pg_unmapped_column; assumption.
    + intros Hast. apply Pg_table_step_erase; assumption.
Qed.

Section UnmappedRuns.
#[local] Existing Instance IdentifierCollation.collation.

(** C6 at the field [location] of the model [Place], of the unsupported
    type [point]: the MySQL table of [Place] is the table of the model
    without the field, and the run returns it. *)
Lemma C6_witness :
  FieldKind_eqb (Field.kind Scenarios.location) enum = false
  /\ Common.is_relField Scenarios.location = false
  /\ ~ In (Field.type Scenarios.location) MySql.case_labels
  /\ MySql.table_step [] Scenarios.Place MySql.initial
     = MySql.table_step [] (Model.mk "Place" None [Scenarios.id_int] None []) MySql.initial
  /\ fst (MySql.generateMySqlSchema (GeneratorOptions.mk [Scenarios.Place] [] [])
            MySql.initial)
     = inr ("import { int, mysqlTable } from 'drizzle-orm/mysql-core'" ++ Js.nl ++ Js.nl
            ++ "export const Place = mysqlTable('Place', {" ++ Js.nl
            ++ Js.tab ++ "id: int('id').notNull().primaryKey()" ++ Js.nl
            ++ "});").
Proof.
  assert (Hno : ~ In (Field.type Scenarios.location) MySql.case_labels).
  { simpl. intros H. repeat (destruct H as [H|H]; [discriminate H|]). exact H. }
  split; [reflexivity|]. split; [reflexivity|]. split; [exact Hno|]. split.
  - exact (proj2 (proj1 (C6_unmapped_fields_are_dropped [] [] Scenarios.Place
                           [Scenarios.id_int] [] Scenarios.location MySql.initial
                           eq_refl eq_refl) Hno)).
  - vm_compute. reflexivity.
Defined.

End UnmappedRuns.

(** * Further properties *)

(** ** The escaper *)

Section Escaper.
Variable q : Escape.StringContainer.

Lemma container_is_no_backslash : Ascii.eqb (Escape.container_char q) (ascii_of_nat 92) = false.
Proof. destruct q; reflexivity. Qed.

(** The escaper works on one character at a time: a backslash is
    doubled, the container character gets a backslash, any other
    character stays. *)
Lemma escape_cons (c : ascii) (r : string) :
  Escape.s (String c r) q
  = (if Ascii.eqb c (ascii_of_nat 92) then String c (String c EmptyString)
     else if Ascii.eqb c (Escape.container_char q)
          then String (ascii_of_nat 92) (String c EmptyString)
          else String c EmptyString)
    ++ Escape.s r q.
Proof.
  change (String c r) with (String c EmptyString ++ r).
  rewrite escape_append. f_equal.
  unfold Escape.s. simpl.
  destruct (Ascii.eqb_spec c (ascii_of_nat 92)) as [->|Hc].
  - destruct q; reflexivity.
  - change (String c EmptyString ++ EmptyString) with (String c EmptyString).
    cbn [Js.replace_all].
    destruct (Ascii.eqb_spec c (Escape.container_char q)) as [E|E];
      [subst c|]; destruct q; reflexivity.
Qed.

Lemma escape_nil : Escape.s EmptyString q = EmptyString.
Proof. reflexivity. Qed.

(** X1. Whatever the text, its escaped form can be put between two
    container characters: read with a backslash taking the next
    character along, it holds no container character of its own and
    does not end in a lone backslash. *)
Theorem escaped_text_is_closed (src : string) :
  Reading.closed (Escape.container_char q) (Escape.s src q) = true.
Proof.
  induction src as [|c r IH]; [reflexivity|].
  rewrite escape_cons.
  destruct (Ascii.eqb_spec c (ascii_of_nat 92)) as [->|Hc].
  - simpl. exact IH.
  - destruct (Ascii.eqb_spec c (Escape.container_char q)) as [->|Hq].
    + simpl. exact IH.
    + simpl. destruct (Ascii.eqb_spec c (ascii_of_nat 92)); [contradiction|].
      destruct (Ascii.eqb_spec c (Escape.container_char q)); [contradiction|].
      exact IH.
Qed.

(** X2. Read back, the escaped form gives the text it came from; so
    two different texts never have the same escaped form. *)
Theorem escape_round_trip (src : string) :
  Reading.unescape (Escape.s src q) = src
  /\ forall other, Escape.s other q = Escape.s src q -> other = src.
Proof.
  assert (Hrt : forall t, Reading.unescape (Escape.s t q) = t).
  { induction t as [|c r IH]; [reflexivity|].
    rewrite escape_cons.
    destruct (Ascii.eqb_spec c (ascii_of_nat 92)) as [->|Hc].
    - simpl. rewrite IH. reflexivity.
    - destruct (Ascii.eqb_spec c (Escape.container_char q)) as [->|Hq].
      + simpl. rewrite IH. reflexivity.
      + simpl. destruct (Ascii.eqb_spec c (ascii_of_nat 92)); [contradiction|].
        rewrite IH. reflexivity. }
  split; [apply Hrt|].
  intros other H. rewrite <- (Hrt other), H. apply Hrt.
Qed.

Lemma escape_length (src : string) : String.length src <= String.length (Escape.s src q).
Proof.
  induction src as [|c r IH]; [apply le_n|].
  rewrite escape_cons, length_append.
  destruct (Ascii.eqb c (ascii_of_nat 92)); [simpl; lia|].
  destruct (Ascii.eqb c (Escape.container_char q)); simpl; lia.
Qed.

(** X3. The escaper never shortens a text, and it changes a text
    exactly when the text holds a backslash or the container
    character. *)
Theorem escape_changes_only_special_text (src : string) :
  String.length src <= String.length (Escape.s src q)
  /\ (Escape.s src q = src
      <-> Reading.mentions (ascii_of_nat 92) src = false
          /\ Reading.mentions (Escape.container_char q) src = false).
Proof.
  split; [apply escape_length|].
  induction src as [|c r IH]; [simpl; tauto|].
  rewrite escape_cons. simpl Reading.mentions.
  destruct (Ascii.eqb_spec c (ascii_of_nat 92)) as [->|Hc].
  - split; [|intros [H _]; discriminate H].
    intros H. exfalso.
    assert (Hl : String.length (String (ascii_of_nat 92) (String (ascii_of_nat 92) EmptyString)
                                ++ Escape.s r q)
                 = String.length (String (ascii_of_nat 92) r)) by (rewrite H; reflexivity).
    simpl in Hl. pose proof (escape_length r). lia.
  - destruct (Ascii.eqb_spec c (Escape.container_char q)) as [->|Hq].
    + split; [|intros [_ H]; discriminate H].
      intros H. exfalso.
      assert (Hl : String.length (String (ascii_of_nat 92)
                                    (String (Escape.container_char q) EmptyString)
                                  ++ Escape.s r q)
                   = String.length (String (Escape.container_char q) r))
        by (rewrite H; reflexivity).
      simpl in Hl. pose proof (escape_length r). lia.
    + cbn [append].
      destruct (Ascii.eqb_spec c (ascii_of_nat 92)) as [E|_]; [contradiction|].
      destruct (Ascii.eqb_spec c (Escape.container_char q)) as [E|_]; [contradiction|].
      cbn [orb]. split.
      * intros H. injection H as Hr. apply IH. exact Hr.
      * intros H. f_equal. apply IH. exact H.
Qed.

End Escaper.

(** X3 at a text with a quote: its escaped form differs from it. *)
Lemma escape_changes_only_special_text_witness :
  Escape.s "it's" Escape.Quote <> "it's".
Proof.
  intros H.
  apply (proj1 (proj2 (escape_changes_only_special_text Escape.Quote "it's"))) in H.
  destruct H as [_ H]. discriminate H.
Defined.

(** X2 at a text with a quote and a backslash. *)
Lemma escape_round_trip_witness :
  Reading.unescape (Escape.s ("it's a " ++ Js.backslash) Escape.Quote)
  = "it's a " ++ Js.backslash
  /\ "it's a " ++ Js.backslash = "it's a " ++ Js.backslash.
Proof.
  split.
  - exact (proj1 (escape_round_trip Escape.Quote ("it's a " ++ Js.backslash))).
  - exact (proj2 (escape_round_trip Escape.Quote ("it's a " ++ Js.backslash))
             ("it's a " ++ Js.backslash) eq_refl).
Defined.

(** ** The synthesizer: what it keeps *)

Section Keeping.
Context {C : Js.Collation}.
Import ManyToMany.

Lemma map_update_nth A B (h : A -> B) (g : A -> A) (l : list A) n :
  (forall x, h (g x) = h x) -> map h (update_nth n g l) = map h l.
Proof.
  intros H. revert n. induction l as [|x l IH]; intros [|n]; simpl; try reflexivity.
  - rewrite H. reflexivity.
  - rewrite IH. reflexivity.
Qed.

Lemma kept_assign r g models :
  (forall f, Kept.field (g f) = Kept.field f) ->
  map Kept.model (assign r g models) = map Kept.model models.
Proof.
  intros H. unfold assign. apply map_update_nth. intros m.
  unfold Kept.model. simpl. rewrite (map_update_nth Kept.field g _ _ H). reflexivity.
Qed.

Lemma kept_generateJoinFields pair models fields models' :
  generateJoinFields pair models = inr (fields, models') ->
  map Kept.model models' = map Kept.model models.
Proof.
  unfold generateJoinFields.
  destruct (sorted_pair models (fst pair) (snd pair)) as [A B]. cbv zeta.
  intros H.
  repeat match type of H with
         | match ?x with _ => _ end = _ => destruct x; try discriminate
         end.
  inversion H; subst.
  rewrite !kept_assign by (intros f; reflexivity). reflexivity.
Qed.

Lemma kept_generateModels : forall fuel l models tables tables' models',
  generateModels fuel l models tables = inr (tables', models') ->
  map Kept.model models' = map Kept.model models.
Proof.
  induction fuel as [|fuel IH]; intros l models tables tables' models' H; simpl in H.
  - inversion H; reflexivity.
  - destruct l as [|manyFirst rest]; [inversion H; reflexivity|].
    destruct (find _ rest) as [manySecond|]; [|inversion H; reflexivity].
    destruct (generateJoinFields (manyFirst, manySecond) models)
      as [e|[fields models1]] eqn:Hjoin; [discriminate|].
    apply IH in H. rewrite H. eapply kept_generateJoinFields. exact Hjoin.
Qed.

Lemma kept_extract models tables models' :
  extractManyToManyModels models = inr (tables, models') ->
  map Kept.model models' = map Kept.model models.
Proof.
  unfold extractManyToManyModels.
  destruct (filterManyToManyRelationFields models) as [|r l].
  - intros H. inversion H. reflexivity.
  - apply kept_generateModels.
Qed.

(** X4. When the synthesis returns, the model array has the models it
    had, in the same order and with the same names, physical names,
    primary keys and unique indexes, and every model has the fields it
    had, each with the same name, physical name, kind, flags
    [isRequired], [isUnique] and [isId], default and delete action. *)
Theorem synthesis_keeps_the_models models tables models' :
  extractManyToManyModels models = inr (tables, models') ->
  map Kept.model models' = map Kept.model models.
Proof. apply kept_extract. Qed.

Lemma In_refs_from : forall models base i j m,
  nth_error models i = Some m -> j < length (Model.fields m) ->
  In (base + i, j) (refs_from base models).
Proof.
  induction models as [|m0 models IH]; intros base i j m Hi Hj.
  - destruct i; discriminate.
  - simpl. apply in_or_app. destruct i as [|i].
    + left. simpl in Hi. inversion Hi; subst. unfold refs_of_model.
      rewrite Nat.add_0_r. apply in_map. apply in_seq. lia.
    + right. replace (base + S i) with (S base + i) by lia.
      eapply IH; eassumption.
Qed.

(** Every field object of the array is met by the [flatMap]. *)
Lemma deref_in_all_fields models r f :
  deref models r = Some f -> In r (all_fields models).
Proof.
  unfold deref, all_fields. destruct r as [i j]. simpl.
  destruct (nth_error models i) as [m|] eqn:Hm; [|discriminate].
  intros Hf. apply (@In_refs_from models 0 i j m Hm).
  apply nth_error_Some. rewrite Hf. discriminate.
Qed.

Lemma set_has_fold_add x : forall l s,
  Js.set_has x s = true \/ In x l ->
  Js.set_has x (fold_left (fun s y => Js.set_add y s) l s) = true.
Proof.
  induction l as [|y l IH]; intros s H; simpl.
  - destruct H as [H|[]]. exact H.
  - apply IH. destruct H as [H|[->|H]].
    + left. apply AccumulationFacts.set_has_add_mono. exact H.
    + left. apply AccumulationFacts.set_has_add_same.
    + right. exact H.
Qed.

(** A field whose relation name is empty, or is also the relation name
    of a field that is no list, is not among the many-to-many
    fields. *)
Lemma not_many_to_many models r f :
  deref models r = Some f ->
  Js.truthy_str (Field.relationName f) = false
  \/ (exists r' f', deref models r' = Some f'
                    /\ Field.relationName f' = Field.relationName f
                    /\ Field.isList f' = false) ->
  ~ In r (filterManyToManyRelationFields models).
Proof.
  intros Hd Hcase Hin. unfold filterManyToManyRelationFields in Hin.
  apply filter_In in Hin. destruct Hin as [Hin Hset].
  apply filter_In in Hin. destruct Hin as [_ Ht].
  unfold relationName_of in Ht, Hset. rewrite Hd in Ht, Hset.
  destruct Hcase as [Hf|[r' [f' [Hd' [Hname Hlist]]]]]; [congruence|].
  apply negb_true_iff in Hset. unfold Js.set_of_list in Hset.
  rewrite set_has_fold_add in Hset; [discriminate|].
  right. apply in_map_iff. exists r'. split.
  - unfold relationName_of. rewrite Hd', Hname. reflexivity.
  - apply filter_In. split.
    + apply filter_In. split; [eapply deref_in_all_fields; exact Hd'|].
      unfold relationName_of. rewrite Hd', Hname. exact Ht.
    + rewrite Hd'. rewrite Hlist. reflexivity.
Qed.

Lemma extract_leaves_other models tables models' r f :
  extractManyToManyModels models = inr (tables, models') ->
  deref models r = Some f ->
  Js.truthy_str (Field.relationName f) = false
  \/ (exists r' f', deref models r' = Some f'
                    /\ Field.relationName f' = Field.relationName f
                    /\ Field.isList f' = false) ->
  deref models' r = Some f.
Proof.
  intros H Hd Hcase. pose proof (not_many_to_many models r Hd Hcase) as Hnot.
  unfold extractManyToManyModels in H.
  destruct (filterManyToManyRelationFields models) as [|f0 l] eqn:E.
  - inversion H; subst. exact Hd.
  - rewrite <- Hd. eapply generateModels_other; [exact Hnot|exact H].
Qed.

(** X5. The synthesis rewrites none of the fields that have no relation
    name, that are no list, or whose relation name is also carried by a
    field that is no list (the list side of a one-to-many relation):
    such a field is the same afterwards. *)
Theorem synthesis_leaves_other_relations models tables models' r f :
  extractManyToManyModels models = inr (tables, models') ->
  deref models r = Some f ->
  Js.truthy_str (Field.relationName f) = false
  \/ (exists r' f', deref models r' = Some f'
                    /\ Field.relationName f' = Field.relationName f
                    /\ Field.isList f' = false) ->
  deref models' r = Some f.
Proof. apply extract_leaves_other. Qed.

(** A field that is no list is a field of some model of the list the
    generators go through. *)
Lemma non_list_field_survives models tables models' model field :
  extractManyToManyModels models = inr (tables, models') ->
  In model models -> In field (Model.fields model) ->
  Field.isList field = false ->
  exists model', In model' (models' ++ tables)%list /\ In field (Model.fields model').
Proof.
  intros H Hm Hf Hlist.
  destruct (In_deref models model field Hm Hf) as [r0 Hd].
  assert (Hd' : deref models' r0 = Some field).
  { eapply extract_leaves_other; [exact H|exact Hd|]. right. exists r0, field. auto. }
  destruct (deref_In _ _ Hd') as [model' [Hm' Hf']].
  exists model'. split; [apply in_or_app; left; exact Hm'|exact Hf'].
Qed.

(** X6. When every relation name of the input is carried by at least
    one field that is no list, there is nothing to synthesize: no join
    model is returned and the array is as it was. *)
Theorem no_list_only_relation_no_join_model models :
  (forall r f, deref models r = Some f ->
               Js.truthy_str (Field.relationName f) = true ->
               exists r' f', deref models r' = Some f'
                             /\ Field.relationName f' = Field.relationName f
                             /\ Field.isList f' = false) ->
  extractManyToManyModels models = inr ([], models).
Proof.
  intros H. unfold extractManyToManyModels.
  destruct (filterManyToManyRelationFields models) as [|r l] eqn:E; [reflexivity|].
  exfalso.
  assert (Hin : In r (filterManyToManyRelationFields models)) by (rewrite E; left; reflexivity).
  pose proof Hin as Hin'. unfold filterManyToManyRelationFields in Hin'.
  apply filter_In in Hin'. destruct Hin' as [Hin' _].
  apply filter_In in Hin'. destruct Hin' as [_ Ht].
  unfold relationName_of in Ht.
  destruct (deref models r) as [f|] eqn:Hd; [|discriminate].
  apply (not_many_to_many models r Hd); [|exact Hin].
  right. apply (H r f Hd Ht).
Qed.

End Keeping.

Section KeepingRuns.
#[local] Existing Instance IdentifierCollation.collation.

(** X4 at [Post] and [Tag], whose relation fields are rewritten. *)
Lemma synthesis_keeps_the_models_witness :
  exists tables models',
    ManyToMany.extractManyToManyModels [Scenarios.Post; Scenarios.Tag]
    = inr (tables, models')
    /\ map Kept.model models' = map Kept.model [Scenarios.Post; Scenarios.Tag].
Proof.
  destruct (ManyToMany.extractManyToManyModels [Scenarios.Post; Scenarios.Tag])
    as [e|[tables models']] eqn:E.
  - vm_compute in E. discriminate E.
  - exists tables, models'. split; [reflexivity|].
    exact (synthesis_keeps_the_models [Scenarios.Post; Scenarios.Tag] E).
Defined.

(** X5 at the list side [Writer.pieces] of a one-to-many relation,
    declared beside the many-to-many pair [Post], [Tag]. *)
Lemma synthesis_leaves_other_relations_witness :
  exists tables models',
    ManyToMany.extractManyToManyModels
      [Scenarios.Post; Scenarios.Tag; MoreScenarios.Writer; MoreScenarios.Piece]
    = inr (tables, models')
    /\ map Model.name tables = ["PostToTag"]
    /\ ManyToMany.deref models' (2, 1)
       = Some (Scenarios.list_relation "pieces" "Piece" "PieceToWriter").
Proof.
  destruct (ManyToMany.extractManyToManyModels
              [Scenarios.Post; Scenarios.Tag; MoreScenarios.Writer; MoreScenarios.Piece])
    as [e|[tables models']] eqn:E.
  - vm_compute in E. discriminate E.
  - exists tables, models'. split; [reflexivity|]. split.
    + vm_compute in E. inversion E. reflexivity.
    + refine (synthesis_leaves_other_relations
                [Scenarios.Post; Scenarios.Tag; MoreScenarios.Writer; MoreScenarios.Piece]
                (2, 1) E eq_refl _).
      right. exists (3, 2), MoreScenarios.writer.
      split; [reflexivity|]. split; reflexivity.
Defined.

(** X6 at the one-to-many relation of [Writer] and [Piece]. *)
Lemma no_list_only_relation_no_join_model_witness :
  ManyToMany.extractManyToManyModels [MoreScenarios.Writer; MoreScenarios.Piece]
  = inr ([], [MoreScenarios.Writer; MoreScenarios.Piece]).
Proof.
  apply no_list_only_relation_no_join_model.
  intros [i j] f Hd Ht. exists (1, 2), MoreScenarios.writer.
  split; [reflexivity|]. split; [|reflexivity].
  destruct i as [|[|[|i]]]; [| |discriminate Hd|discriminate Hd].
  - destruct j as [|[|[|j]]]; try discriminate Hd; inversion Hd; subst f;
      try discriminate Ht; reflexivity.
  - destruct j as [|[|[|[|j]]]]; try discriminate Hd; inversion Hd; subst f;
      try discriminate Ht; reflexivity.
Defined.

End KeepingRuns.

(** ** The synthesizer: the join models *)

Section JoinModels.
Context {C : Js.Collation}.
Import ManyToMany.

Lemma find_map_eq A B (h : A -> B) (p : A -> bool) (p' : B -> bool) :
  (forall x, p x = p' (h x)) ->
  forall l1 l2, map h l1 = map h l2 ->
                option_map h (find p l1) = option_map h (find p l2).
Proof.
  intros Hp. induction l1 as [|x l1 IH]; intros [|y l2] H; simpl in *;
    try discriminate; [reflexivity|].
  injection H as Hxy Hl. rewrite (Hp x), (Hp y), Hxy.
  destruct (p' (h y)); [simpl; congruence|]. apply IH. exact Hl.
Qed.

(** The name of the id field of a model depends on nothing the
    synthesizer assigns to. *)
Lemma kept_getJoinIdName typeName models1 models2 :
  map Kept.model models1 = map Kept.model models2 ->
  getJoinIdName typeName models1 = getJoinIdName typeName models2.
Proof.
  intros H. unfold getJoinIdName, find_model.
  pose proof (find_map_eq Kept.model
                (fun m => String.eqb (Model.name m) typeName)
                (fun k => String.eqb (fst (fst (fst (fst k)))) typeName)
                (fun x => eq_refl) _ _ H) as Hm.
  destruct (find _ models1) as [m1|]; destruct (find _ models2) as [m2|];
    simpl in Hm; try discriminate; [|reflexivity].
  injection Hm as _ _ _ _ Hf. unfold find_id.
  pose proof (find_map_eq Kept.field Field.isId
                (fun k => snd (fst (fst k)))
                (fun x => eq_refl) _ _ Hf) as Hi.
  destruct (find _ (Model.fields m1)) as [i1|]; destruct (find _ (Model.fields m2)) as [i2|];
    simpl in Hi; try discriminate; [|reflexivity].
  injection Hi as Hn _. congruence.
Qed.

(** The two lookups fail together, with the same error. *)
Lemma getJoinIdType_fails_iff typeName models e :
  getJoinIdType typeName models = inl e <-> getJoinIdName typeName models = inl e.
Proof.
  unfold getJoinIdType, getJoinIdName.
  destruct (find_model typeName models) as [m|]; [|tauto].
  destruct (find_id m); [|tauto]. split; discriminate.
Qed.

(** The names of the id fields, as [generateJoinFields] reads them after
    its assignments. *)
Lemma generateJoinFields_names pair models fields models' :
  generateJoinFields pair models = inr (fields, models') ->
  exists a b aType aId bType bId many,
    getJoinIdName a models = inr aId
    /\ getJoinIdName b models = inr bId
    /\ fields = [ join_scalar (a ++ "Id") "A" aType;
                  join_object a (a ++ "To" ++ many) (a ++ "Id") aId;
                  join_scalar (b ++ "Id") "B" bType;
                  join_object b (b ++ "To" ++ many) (b ++ "Id") bId ].
Proof.
  intros H. pose proof (kept_generateJoinFields _ _ H) as Hkept.
  revert H. unfold generateJoinFields.
  destruct (sorted_pair models (fst pair) (snd pair)) as [A B].
  cbv zeta.
  match goal with
  | |- context [assign A clear_relation_fields ?m] =>
      set (models3 := assign A clear_relation_fields m)
  end.
  destruct (getJoinIdType (type_of models B) models3) as [e|aType]; [discriminate|].
  destruct (getJoinIdName (type_of models B) models3) as [e|aId] eqn:Ha; [discriminate|].
  destruct (getJoinIdType (type_of models A) models3) as [e|bType]; [discriminate|].
  destruct (getJoinIdName (type_of models A) models3) as [e|bId] eqn:Hb; [discriminate|].
  intros H. inversion H; subst models'.
  rewrite (kept_getJoinIdName _ _ _ Hkept) in Ha.
  rewrite (kept_getJoinIdName _ _ _ Hkept) in Hb.
  do 7 eexists. split; [exact Ha|]. split; [exact Hb|]. reflexivity.
Qed.

(** A join model as the synthesizer builds it over the models
    [models]: no primary key, no unique index, and the four fields of
    [generateJoinFields], whose relation fields refer to the id fields
    of models of [models]. *)
Lemma generateModels_join_models models0 : forall fuel l models tables tables' models',
  map Kept.model models = map Kept.model models0 ->
  Forall (JoinModel.over models0) tables ->
  generateModels fuel l models tables = inr (tables', models') ->
  Forall (JoinModel.over models0) tables'.
Proof.
  induction fuel as [|fuel IH]; intros l models tables tables' models' Hk Hall H; simpl in H.
  - inversion H; subst; exact Hall.
  - destruct l as [|manyFirst rest]; [inversion H; subst; exact Hall|].
    destruct (find _ rest) as [manySecond|]; [|inversion H; subst; exact Hall].
    destruct (generateJoinFields (manyFirst, manySecond) models)
      as [e|[fields models1]] eqn:Hjoin; [discriminate|].
    refine (IH _ _ _ _ _ _ _ H).
    + rewrite (kept_generateJoinFields _ _ Hjoin). exact Hk.
    + apply Forall_app. split; [exact Hall|]. constructor; [|constructor].
      destruct (generateJoinFields_names _ _ Hjoin)
        as [a [b [aType [aId [bType [bId [many [Ha [Hb Hf]]]]]]]]].
      rewrite (kept_getJoinIdName _ _ _ Hk) in Ha.
      rewrite (kept_getJoinIdName _ _ _ Hk) in Hb.
      unfold JoinModel.over. simpl. split; [reflexivity|]. split; [reflexivity|].
      exists a, b, aType, aId, bType, bId, many. auto.
Qed.

Lemma extract_join_models models tables models' :
  extractManyToManyModels models = inr (tables, models') ->
  Forall (JoinModel.over models) tables.
Proof.
  unfold extractManyToManyModels.
  destruct (filterManyToManyRelationFields models) as [|r l].
  - intros H. inversion H. constructor.
  - apply generateModels_join_models; [reflexivity|constructor].
Qed.

(** X7. Every join model the synthesis returns has no primary key and
    no unique index, and exactly four fields: a scalar column with the
    physical name [A], a relation field that owns this column, a scalar
    column with the physical name [B] and a relation field that owns
    that one. Each relation field has the name of a model of the input
    that has an id field as its type, and refers to that id field by
    its name. *)
Theorem join_models_refer_to_id_fields models tables models' :
  extractManyToManyModels models = inr (tables, models') ->
  Forall (JoinModel.over models) tables.
Proof. apply extract_join_models. Qed.

Lemma getJoinIdName_errors typeName models e :
  getJoinIdName typeName models = inl e ->
  e = JoinModel.could_not_find \/ e = JoinModel.no_id_field.
Proof.
  unfold getJoinIdName.
  destruct (find_model typeName models) as [m|]; [|intros H; inversion H; auto].
  destruct (find_id m); [discriminate|]. intros H; inversion H; auto.
Qed.

Lemma generateJoinFields_unresolved f1 f2 models :
  (exists e, getJoinIdName (type_of models f1) models = inl e)
  \/ (exists e, getJoinIdName (type_of models f2) models = inl e) ->
  exists e, generateJoinFields (f1, f2) models = inl e
            /\ (e = JoinModel.could_not_find \/ e = JoinModel.no_id_field).
Proof.
  intros Hbad.
  assert (Hk : forall A B ta tb ra rb,
             map Kept.model
               (assign A clear_relation_fields
                  (assign B (rewrite_B tb rb) (assign A (rewrite_A ta ra) models)))
             = map Kept.model models).
  { intros. rewrite !kept_assign by (intros f; reflexivity). reflexivity. }
  unfold generateJoinFields. simpl fst. simpl snd.
  assert (Hbad' : forall A B, sorted_pair models f1 f2 = (A, B) ->
            (exists e, getJoinIdName (type_of models B) models = inl e)
            \/ (exists e, getJoinIdName (type_of models A) models = inl e)).
  { intros A B HAB.
    destruct (sorted_pair_cases models f1 f2) as [E|E]; rewrite E in HAB;
      inversion HAB; subst; tauto. }
  destruct (sorted_pair models f1 f2) as [A B].
  specialize (Hbad' A B eq_refl). cbv zeta.
  match goal with
  | |- context [assign A clear_relation_fields ?m] =>
      set (models3 := assign A clear_relation_fields m)
  end.
  assert (Hsame : forall t, getJoinIdName t models3 = getJoinIdName t models).
  { intros t. apply kept_getJoinIdName. apply Hk. }
  destruct (getJoinIdType (type_of models B) models3) as [e|aType] eqn:Ha.
  { exists e. split; [reflexivity|].
    apply getJoinIdType_fails_iff in Ha. eapply getJoinIdName_errors. exact Ha. }
  destruct (getJoinIdName (type_of models B) models3) as [e|aId] eqn:Ha'.
  { exists e. split; [reflexivity|]. eapply getJoinIdName_errors. exact Ha'. }
  destruct (getJoinIdType (type_of models A) models3) as [e|bType] eqn:Hb.
  { exists e. split; [reflexivity|].
    apply getJoinIdType_fails_iff in Hb. eapply getJoinIdName_errors. exact Hb. }
  destruct (getJoinIdName (type_of models A) models3) as [e|bId] eqn:Hb'.
  { exists e. split; [reflexivity|]. eapply getJoinIdName_errors. exact Hb'. }
  exfalso. rewrite Hsame in Ha'. rewrite Hsame in Hb'.
  destruct Hbad' as [[e He]|[e He]]; congruence.
Qed.

(** X8. When the first many-to-many field has a partner, and the type of
    one of the two names no model of the input or a model without an id
    field, the synthesis throws one of its two errors, and so does each
    generator, before it has added any import. *)
Theorem synthesis_fails_on_unresolved_target options manyFirst manySecond rest :
  let models := GeneratorOptions.models options in
  filterManyToManyRelationFields models = manyFirst :: rest ->
  find (fun field => Js.opt_string_eqb (relationName_of models field)
                       (relationName_of models manyFirst)) rest = Some manySecond ->
  (exists e, getJoinIdName (type_of models manyFirst) models = inl e)
  \/ (exists e, getJoinIdName (type_of models manySecond) models = inl e) ->
  exists e,
    (e = JoinModel.could_not_find \/ e = JoinModel.no_id_field)
    /\ extractManyToManyModels models = inl e
    /\ forall st,
         Pg.generatePgSchema options st = (inl e, st)
         /\ MySql.generateMySqlSchema options st = (inl e, st)
         /\ MySqlRevised.generateMySqlSchema options st = (inl e, st)
         /\ SQLite.generateSQLiteSchema options st = (inl e, st).
Proof.
  intros models Hfilter Hfind Hbad.
  destruct (generateJoinFields_unresolved manyFirst manySecond models Hbad)
    as [e [Hjoin He]].
  exists e. split; [exact He|].
  assert (Hx : extractManyToManyModels models = inl e).
  { unfold extractManyToManyModels. rewrite Hfilter.
    cbn [length generateModels]. rewrite Hfind, Hjoin. reflexivity. }
  split; [exact Hx|]. intros st.
  unfold Pg.generatePgSchema, MySql.generateMySqlSchema,
    MySqlRevised.generateMySqlSchema, SQLite.generateSQLiteSchema.
  fold models. rewrite Hx. repeat split; reflexivity.
Qed.

End JoinModels.

Section JoinModelRuns.
#[local] Existing Instance IdentifierCollation.collation.

(** X7 at [Post] and [Tag]. *)
Lemma join_models_refer_to_id_fields_witness :
  exists tables models',
    ManyToMany.extractManyToManyModels [Scenarios.Post; Scenarios.Tag]
    = inr (tables, models')
    /\ length tables = 1
    /\ Forall (JoinModel.over [Scenarios.Post; Scenarios.Tag]) tables.
Proof.
  destruct (ManyToMany.extractManyToManyModels [Scenarios.Post; Scenarios.Tag])
    as [e|[tables models']] eqn:E.
  - vm_compute in E. discriminate E.
  - exists tables, models'. split; [reflexivity|]. split.
    + vm_compute in E. inversion E. reflexivity.
    + exact (join_models_refer_to_id_fields [Scenarios.Post; Scenarios.Tag] E).
Defined.

(** X8 at [Post] and a model [Label] without an id field. *)
Lemma synthesis_fails_on_unresolved_target_witness :
  exists e,
    ManyToMany.extractManyToManyModels [MoreScenarios.LabelledPost; MoreScenarios.Label]
    = inl e
    /\ fst (Pg.generatePgSchema
              (GeneratorOptions.mk [MoreScenarios.LabelledPost; MoreScenarios.Label] [] [])
              Pg.initial) = inl e.
Proof.
  destruct (synthesis_fails_on_unresolved_target
              (GeneratorOptions.mk [MoreScenarios.LabelledPost; MoreScenarios.Label] [] [])
              (manyFirst := (0, 1)) (manySecond := (1, 1)) (rest := [(1, 1)])
              eq_refl eq_refl
              (or_introl (ex_intro _ JoinModel.no_id_field eq_refl)))
    as [e [_ [Hx Hgen]]].
  exists e. split; [exact Hx|].
  rewrite (proj1 (Hgen Pg.initial)). reflexivity.
Defined.

End JoinModelRuns.

(** ** The later MySQL generator: successive runs *)

Section RevisedReruns.
Import Accumulation AccumulationFacts.
Context {C : Js.Collation}.

Lemma acc_MySqlRevised_table_step enums schema schemaTable :
  accumulates (MySqlRevised.table_step enums schema schemaTable).
Proof.
  unfold MySqlRevised.table_step, MySqlRevised.column_entries, MySqlRevised.column_entry,
    MySqlRevised.prismaToDrizzleColumn, MySqlRevised.prismaToDrizzleType,
    MySqlRevised.addColumnModifiers, MySqlRevised.relation_decl, Pg.relation_decl,
    MySqlRevised.uniques, MySqlRevised.primaryKey,
    Common.escaped_uniques, Common.escaped_primaryKey.
  accumulate; apply acc_escaped_first_arg.
Qed.

Lemma rae_revised_generateMySqlSchema options :
  reads_at_end (MySqlRevised.generateMySqlSchema options).
Proof.
  unfold MySqlRevised.generateMySqlSchema.
  destruct (ManyToMany.extractManyToManyModels _) as [e|[tables models]].
  - apply rae_of_acc, acc_throw.
  - apply rae_bind; [apply acc_mapM; intros; apply acc_MySqlRevised_table_step|].
    intros steps. apply rae_get_ret.
Qed.

(** X9. The import sets of the later MySQL module are module constants
    too: a run removes no name from them, and a second run on the same
    input, started from the sets the first run left, returns what the
    first run returned and leaves the sets as they were. *)
Theorem revised_second_run_repeats_first options st :
  let first := MySqlRevised.generateMySqlSchema options st in
  MySqlRevised.generateMySqlSchema options (snd first) = first
  /\ forall e, present e st = true -> present e (snd first) = true.
Proof.
  cbv zeta. split.
  - apply rerun_same, rae_revised_generateMySqlSchema.
  - intros e. apply rae_keeps, rae_revised_generateMySqlSchema.
Qed.

End RevisedReruns.

(** X9 at the [User] model and the freshly loaded module. *)
Lemma revised_second_run_repeats_first_witness :
  Accumulation.present (Accumulation.Core, "mysqlTable") MySqlRevised.initial = true
  /\ Accumulation.present (Accumulation.Core, "mysqlTable")
       (snd (@MySqlRevised.generateMySqlSchema IdentifierCollation.collation
               Scenarios.user_options MySqlRevised.initial)) = true.
Proof.
  split; [reflexivity|].
  exact (proj2 (@revised_second_run_repeats_first IdentifierCollation.collation
                  Scenarios.user_options MySqlRevised.initial)
           (Accumulation.Core, "mysqlTable") eq_refl).
Defined.

(** ** The import sets hold every name once *)

Section OnceEach.
Import Accumulation AccumulationFacts.
Context {C : Js.Collation}.

Lemma set_has_false_not_In x s : Js.set_has x s = false -> ~ In x s.
Proof.
  unfold Js.set_has. intros H Hin.
  assert (existsb (String.eqb x) s = true); [|congruence].
  apply existsb_exists. exists x. split; [exact Hin|apply String.eqb_refl].
Qed.

Lemma NoDup_set_add x s : NoDup s -> NoDup (Js.set_add x s).
Proof.
  intros H. unfold Js.set_add. destruct (Js.set_has x s) eqn:E; [exact H|].
  apply set_has_false_not_In in E.
  rewrite <- (rev_involutive (s ++ [x])%list). apply NoDup_rev.
  rewrite rev_app_distr. simpl. constructor.
  - rewrite <- in_rev. exact E.
  - apply NoDup_rev. exact H.
Qed.

Lemma once_each_add_to e st : Header.once_each st -> Header.once_each (add_to e st).
Proof.
  intros [Hc Hd]. destruct e as [[|] x]; unfold add_to, Header.once_each; simpl;
    auto using NoDup_set_add.
Qed.

Lemma once_each_adds w : forall st, Header.once_each st -> Header.once_each (adds w st).
Proof.
  induction w as [|e w IH]; intros st H; simpl; [exact H|].
  apply IH, once_each_add_to, H.
Qed.

Lemma once_each_after_run A (m : M A) st :
  reads_at_end m -> Header.once_each st -> Header.once_each (snd (m st)).
Proof.
  intros [f [w H]] Hst. rewrite H. simpl. apply once_each_adds, Hst.
Qed.

Lemma NoDup_insert_sorted (x : string) l :
  ~ In x l -> NoDup l -> NoDup (Js.insert_sorted (fun s => s) x l).
Proof.
  intros Hx Hl. induction l as [|y l IH]; simpl.
  - constructor; [exact Hx|constructor].
  - destruct (Js.localeCompare x y); try (constructor; assumption).
    inversion Hl; subst. constructor.
    + rewrite In_insert_sorted. intros [->|Hin]; [apply Hx; left; reflexivity|tauto].
    + apply IH; [intros Hin; apply Hx; right; exact Hin|assumption].
Qed.

Lemma sorted_names_In (x : string) (s : Js.set) :
  In x (Common.sorted_names s) <-> In x s.
Proof.
  unfold Common.sorted_names, Js.sort_by.
  induction s as [|y s IH]; simpl; [tauto|].
  rewrite In_insert_sorted, IH. intuition congruence.
Qed.

Lemma NoDup_sorted_names (s : Js.set) : NoDup s -> NoDup (Common.sorted_names s).
Proof.
  intros H. induction H as [|y s Hy Hs IH].
  - constructor.
  - change (Common.sorted_names (y :: s))
      with (Js.insert_sorted (fun s => s) y (Common.sorted_names s)).
    apply NoDup_insert_sorted; [rewrite sorted_names_In; exact Hy|exact IH].
Qed.

Lemma length_insert_sorted (x : string) l :
  length (Js.insert_sorted (fun s => s) x l) = S (length l).
Proof.
  induction l as [|y l IH]; simpl; [reflexivity|].
  destruct (Js.localeCompare x y); simpl; congruence.
Qed.

Lemma length_sorted_names (s : Js.set) : length (Common.sorted_names s) = length s.
Proof.
  unfold Common.sorted_names, Js.sort_by.
  induction s as [|y s IH]; simpl; [reflexivity|].
  rewrite length_insert_sorted, IH. reflexivity.
Qed.

(** X10. When each import set holds every name once, as the sets of a
    freshly loaded module do, it still does after a run of any
    generator, whether the run returns or throws; and the names listed
    in an import line are the names of the set, each of them once,
    whatever the collation. *)
Theorem import_names_are_listed_once options st :
  Header.once_each st ->
  (Header.once_each (snd (MySql.generateMySqlSchema options st))
   /\ Header.once_each (snd (MySqlRevised.generateMySqlSchema options st))
   /\ Header.once_each (snd (Pg.generatePgSchema options st))
   /\ Header.once_each (snd (SQLite.generateSQLiteSchema options st)))
  /\ forall names,
       NoDup names ->
       NoDup (Common.sorted_names names)
       /\ length (Common.sorted_names names) = length names
       /\ forall x, In x (Common.sorted_names names) <-> In x names.
Proof.
  intros Hst. split.
  - split; [|split; [|split]]; apply once_each_after_run; try exact Hst.
    + apply rae_generateMySqlSchema.
    + apply rae_revised_generateMySqlSchema.
    + apply rae_generatePgSchema.
    + apply rae_generateSQLiteSchema.
  - intros names Hn. split; [apply NoDup_sorted_names, Hn|].
    split; [apply length_sorted_names|]. intros x. apply sorted_names_In.
Qed.

End OnceEach.

(** X10 at the sets of the freshly loaded Postgres module. *)
Lemma import_names_are_listed_once_witness :
  Header.once_each Pg.initial
  /\ Header.once_each
       (snd (@Pg.generatePgSchema IdentifierCollation.collation
               Scenarios.user_options Pg.initial))
  /\ NoDup (@Common.sorted_names IdentifierCollation.collation ["text"; "serial"]).
Proof.
  assert (Hinit : Header.once_each Pg.initial).
  { split; [|constructor]. constructor; [simpl; tauto|constructor]. }
  assert (Hnames : NoDup ["text"; "serial"]).
  { constructor; [simpl; intros [H|[]]; discriminate H|].
    constructor; [simpl; tauto|constructor]. }
  pose proof (@import_names_are_listed_once IdentifierCollation.collation
                Scenarios.user_options Pg.initial Hinit) as [[_ [_ [Hpg _]]] Hsorted].
  split; [exact Hinit|]. split; [exact Hpg|].
  exact (proj1 (Hsorted ["text"; "serial"] Hnames)).
Defined.

(** ** What a run returns *)

Section Returns.
Import Outcome.

Lemma returns_ret A (a : A) (P : A -> Prop) : P a -> returns (ret a) P.
Proof. intros H st a' st' E. inversion E; subst. exact H. Qed.

Lemma returns_throw A (e : exn) (P : A -> Prop) : returns (throw e) P.
Proof. intros st a st' E. discriminate E. Qed.

Lemma bind_returned A B (m : M A) (k : A -> M B) st b st' :
  bind m k st = (inr b, st') ->
  exists a st1, m st = (inr a, st1) /\ k a st1 = (inr b, st').
Proof.
  unfold bind. destruct (m st) as [[e|a] st1]; [discriminate|].
  intros H. exists a, st1. split; [reflexivity|exact H].
Qed.

Lemma returns_bind A B (m : M A) (k : A -> M B) (Q : A -> Prop) (P : B -> Prop) :
  returns m Q -> (forall a, Q a -> returns (k a) P) -> returns (bind m k) P.
Proof.
  intros Hm Hk st b st' E.
  destruct (bind_returned _ _ _ E) as [a [st1 [E1 E2]]].
  exact (Hk a (Hm _ _ _ E1) _ _ _ E2).
Qed.

Lemma returns_any A (m : M A) : returns m (fun _ => True).
Proof. intros st a st' _. exact I. Qed.

Lemma returns_then A B (m : M A) (k : A -> M B) (P : B -> Prop) :
  (forall a, returns (k a) P) -> returns (bind m k) P.
Proof.
  intros Hk. apply returns_bind with (Q := fun _ => True); [apply returns_any|].
  intros a _. apply Hk.
Qed.

Lemma returns_mapM A B (f : A -> M B) (R : A -> B -> Prop) (l : list A) :
  (forall x, returns (f x) (R x)) -> returns (mapM f l) (Forall2 R l).
Proof.
  intros Hf. induction l as [|x l IH]; simpl.
  - apply returns_ret. constructor.
  - apply returns_bind with (Q := R x); [apply Hf|]. intros y Hy.
    apply returns_bind with (Q := Forall2 R l); [exact IH|]. intros ys Hys.
    apply returns_ret. constructor; assumption.
Qed.

Lemma mapM_returned A B (f : A -> M B) (R : A -> B -> Prop) (l : list A) st ys st' :
  (forall x, returns (f x) (R x)) -> mapM f l st = (inr ys, st') -> Forall2 R l ys.
Proof. intros Hf H. exact (@returns_mapM A B f R l Hf st ys st' H). Qed.

Lemma Forall2_In_l A B (R : A -> B -> Prop) l l' x :
  Forall2 R l l' -> In x l -> exists y, In y l' /\ R x y.
Proof.
  induction 1 as [|a b l l' Hab _ IH]; intros Hin; [contradiction|].
  destruct Hin as [->|Hin].
  - exists b. split; [left; reflexivity|exact Hab].
  - destruct (IH Hin) as [y [Hy HR]]. exists y. split; [right; exact Hy|exact HR].
Qed.

Lemma prefix_refl (p : string) : prefix p p = true.
Proof.
  induction p as [|c p IH]; simpl; [reflexivity|].
  destruct (Ascii.ascii_dec c c); [exact IH|contradiction].
Qed.

Lemma prefix_append (p r : string) : prefix p (p ++ r) = true.
Proof. apply prefix_append_l, prefix_refl. Qed.

Lemma table_decl_declares ctor schemaTable tableDbName columns indexes :
  prefix (declares ctor schemaTable)
    (Common.table_decl ctor (Model.name schemaTable) tableDbName columns indexes) = true.
Proof.
  unfold declares, Common.table_decl.
  rewrite <- !append_assoc.
  repeat first [apply prefix_refl | apply prefix_append_l].
Qed.

Ltac table_declared :=
  repeat (apply returns_then; intros ?);
  match goal with
  | |- returns (match ?l with _ => _ end) _ =>
      destruct l; [|apply returns_then; intros ?];
      apply returns_ret; apply table_decl_declares
  end.

Lemma MySql_table_step_declares enums schemaTable :
  returns (MySql.table_step enums schemaTable)
    (fun step => prefix (declares "mysqlTable" schemaTable) (fst step) = true).
Proof. unfold MySql.table_step. cbv zeta. table_declared. Qed.

Lemma SQLite_table_step_declares schemaTable :
  returns (SQLite.table_step schemaTable)
    (fun step => prefix (declares "sqliteTable" schemaTable) (fst step) = true).
Proof. unfold SQLite.table_step. cbv zeta. table_declared. Qed.

Lemma Pg_table_step_declares schema schemaTable :
  returns (Pg.table_step schema schemaTable)
    (fun step => prefix (declares "pgTable" schemaTable) (fst step) = true).
Proof.
  unfold Pg.table_step.
  destruct (Ast.findModel schema (Model.name schemaTable)); [|apply returns_throw].
  cbv zeta. table_declared.
Qed.

Lemma MySqlRevised_table_step_declares enums schema schemaTable :
  returns (MySqlRevised.table_step enums schema schemaTable)
    (fun step => prefix (declares "mysqlTable" schemaTable) (fst step) = true).
Proof.
  unfold MySqlRevised.table_step.
  destruct (Ast.findModel schema (Model.name schemaTable)); [|apply returns_throw].
  cbv zeta. table_declared.
Qed.

End Returns.

Section Output.
Context {C : Js.Collation}.
Import Outcome.

Lemma somes_map_Some A (l : list A) : somes (map Some l) = l.
Proof. induction l as [|x l IH]; simpl; congruence. Qed.

Lemma includes_join p b sep l :
  In b l -> Js.includes p b = true -> Js.includes p (Js.join sep l) = true.
Proof.
  intros Hin Hp. induction l as [|x l IH]; [contradiction|].
  destruct l as [|y l].
  - destruct Hin as [->|[]]. exact Hp.
  - change (Js.join sep (x :: y :: l)) with (x ++ sep ++ Js.join sep (y :: l)).
    destruct Hin as [->|Hin].
    + apply includes_append_l. exact Hp.
    + apply includes_append_r, includes_append_r. apply IH. exact Hin.
Qed.

Lemma includes_emit st src blocks p b :
  In b blocks -> Js.includes p b = true ->
  Js.includes p (Common.emit st src blocks) = true.
Proof.
  intros Hin Hp. unfold Common.emit. apply includes_join with (b := b); [|exact Hp].
  simpl. rewrite somes_map_Some.
  destruct (Common.importsStr st src); [right|]; exact Hin.
Qed.

Lemma import_line_starts names src line :
  Common.import_line names src = Some line -> prefix "import { " line = true.
Proof.
  unfold Common.import_line.
  destruct (Common.sorted_names names) as [|n l]; [discriminate|].
  intros H. injection H as <-.
  exact (prefix_append "import { " (Js.join ", " (n :: l) ++ " } from '" ++ src ++ "'")).
Qed.

Lemma import_line_of_names names src :
  names <> [] -> exists line, Common.import_line names src = Some line.
Proof.
  intros Hne. unfold Common.import_line.
  destruct (Common.sorted_names names) as [|n l] eqn:E; [|eexists; reflexivity].
  exfalso. destruct names as [|y s]; [apply Hne; reflexivity|].
  pose proof (In_sorted_names y (y :: s) (or_introl eq_refl)) as Hin.
  rewrite E in Hin. exact Hin.
Qed.

Lemma prefix_nonempty (line : string) :
  prefix "import { " line = true -> exists c r, line = String c r.
Proof. destruct line as [|c r]; [discriminate|]. intros _. exists c, r. reflexivity. Qed.

(** With a name in the core set, the output begins with the import
    block. *)
Lemma emit_starts_with_import st src blocks :
  coreImports st <> [] -> prefix "import { " (Common.emit st src blocks) = true.
Proof.
  intros Hne. destruct (import_line_of_names src Hne) as [line Hline].
  pose proof (import_line_starts _ _ Hline) as Hp.
  assert (Hstr : exists str, Common.importsStr st src = Some str
                             /\ prefix "import { " str = true).
  { unfold Common.importsStr. rewrite Hline.
    destruct (Common.import_line (drizzleImports st) "drizzle-orm") as [dline|] eqn:Hd;
      cbv zeta; cbn [somes Js.join].
    - pose proof (import_line_starts _ _ Hd) as Hpd.
      destruct (prefix_nonempty _ Hpd) as [c [r ->]].
      eexists. split; [reflexivity|]. apply prefix_append_l. exact Hpd.
    - destruct (prefix_nonempty _ Hp) as [c [r ->]].
      eexists. split; [reflexivity|]. exact Hp. }
  destruct Hstr as [str [Hstr Hps]]. unfold Common.emit. rewrite Hstr.
  cbn [somes]. rewrite somes_map_Some.
  destruct blocks as [|b blocks]; [exact Hps|].
  change (Js.join (Js.nl ++ Js.nl) (str :: b :: blocks))
    with (str ++ (Js.nl ++ Js.nl) ++ Js.join (Js.nl ++ Js.nl) (b :: blocks)).
  apply prefix_append_l. exact Hps.
Qed.

Lemma In_set_has x s : In x s -> Js.set_has x s = true.
Proof.
  intros H. unfold Js.set_has. apply existsb_exists.
  exists x. split; [exact H|apply String.eqb_refl].
Qed.

Lemma core_stays_nonempty A (m : M A) st :
  Accumulation.reads_at_end m -> coreImports st <> [] -> coreImports (snd (m st)) <> [].
Proof.
  intros Hm Hne. destruct (coreImports st) as [|x s] eqn:E; [contradiction|].
  pose proof (AccumulationFacts.rae_keeps Hm st (Accumulation.Core, x)) as H.
  unfold Accumulation.present in H. simpl in H. rewrite E in H.
  specialize (H (In_set_has x (x :: s) (or_introl eq_refl))).
  intros Hnil. rewrite Hnil in H. discriminate H.
Qed.

(** What a run that returns has returned: the text that [emit] builds
    from the sets as the run leaves them. *)
Lemma emitted A (m : M A) src (blocks : A -> list string) st text st' :
  bind m (fun a => bind get_imports (fun s => ret (Common.emit s src (blocks a)))) st
  = (inr text, st') ->
  exists a, m st = (inr a, st') /\ text = Common.emit st' src (blocks a).
Proof.
  intros H. destruct (bind_returned _ _ _ H) as [a [st1 [Hm Hk]]].
  unfold bind, get_imports, ret in Hk. inversion Hk; subst.
  exists a. split; [exact Hm|reflexivity].
Qed.

(** X11. A run that returns, started from sets with a name in the core
    set (the sets of every generator module have the table constructor
    from the start), returns a text that begins with an import
    statement. *)
Theorem output_begins_with_imports options st :
  coreImports st <> [] ->
  forall text st',
    MySql.generateMySqlSchema options st = (inr text, st')
    \/ MySqlRevised.generateMySqlSchema options st = (inr text, st')
    \/ Pg.generatePgSchema options st = (inr text, st')
    \/ SQLite.generateSQLiteSchema options st = (inr text, st') ->
    prefix "import { " text = true.
Proof.
  intros Hne text st' H.
  assert (Hst' : coreImports st' <> []).
  { destruct H as [H|[H|[H|H]]];
      change st' with (snd (@inr exn string text, st')); rewrite <- H;
      apply core_stays_nonempty; try exact Hne.
    - apply rae_generateMySqlSchema.
    - apply rae_revised_generateMySqlSchema.
    - apply rae_generatePgSchema.
    - apply rae_generateSQLiteSchema. }
  destruct H as [H|[H|[H|H]]].
  - unfold MySql.generateMySqlSchema in H.
    destruct (ManyToMany.extractManyToManyModels _) as [e|[tables models']];
      [discriminate H|].
    cbv zeta in H.
    destruct (emitted _ _ (fun steps => (map fst steps ++ somes (map snd steps))%list) _ H)
      as [steps [_ ->]].
    apply emit_starts_with_import, Hst'.
  - unfold MySqlRevised.generateMySqlSchema in H.
    destruct (ManyToMany.extractManyToManyModels _) as [e|[tables models']];
      [discriminate H|].
    cbv zeta in H.
    destruct (emitted _ _ (fun steps => (map fst steps ++ somes (map snd steps))%list) _ H)
      as [steps [_ ->]].
    apply emit_starts_with_import, Hst'.
  - unfold Pg.generatePgSchema in H.
    destruct (ManyToMany.extractManyToManyModels _) as [e|[tables models']];
      [discriminate H|].
    cbv zeta in H.
    destruct (bind_returned _ _ _ H) as [enumSteps [st1 [_ H2]]].
    destruct (emitted _ _
                (fun steps => (somes enumSteps ++ map fst steps
                               ++ somes (map snd steps))%list) _ H2)
      as [steps [_ ->]].
    apply emit_starts_with_import, Hst'.
  - unfold SQLite.generateSQLiteSchema in H.
    destruct (ManyToMany.extractManyToManyModels _) as [e|[tables models']];
      [discriminate H|].
    cbv zeta in H.
    destruct (emitted _ _ (fun steps => (map fst steps ++ somes (map snd steps))%list) _ H)
      as [steps [_ ->]].
    apply emit_starts_with_import, Hst'.
Qed.

End Output.

(** X11 at the [User] model and the freshly loaded Postgres module. *)
Lemma output_begins_with_imports_witness :
  coreImports Pg.initial <> []
  /\ exists text st',
       @Pg.generatePgSchema IdentifierCollation.collation Scenarios.user_options Pg.initial
       = (inr text, st')
       /\ prefix "import { " text = true.
Proof.
  assert (Hne : coreImports Pg.initial <> []) by discriminate.
  split; [exact Hne|].
  destruct (@Pg.generatePgSchema IdentifierCollation.collation Scenarios.user_options
              Pg.initial) as [[e|text] st'] eqn:E.
  - vm_compute in E. discriminate E.
  - exists text, st'. split; [reflexivity|].
    exact (@output_begins_with_imports IdentifierCollation.collation
             Scenarios.user_options Pg.initial Hne text st' (or_intror (or_intror (or_introl E)))).
Defined.

Section Declared.
Context {C : Js.Collation}.
Import Outcome.

(** Every model of the input, and every join model, is met by the loop
    over [modelsWithImplicit] under its own name. *)
Lemma name_is_met models tables models' model :
  ManyToMany.extractManyToManyModels models = inr (tables, models') ->
  In model models \/ In model tables ->
  exists model', In model' (models' ++ tables)%list
                 /\ Model.name model' = Model.name model.
Proof.
  intros E [Hin|Hin].
  - pose proof (kept_extract _ E) as Hk.
    assert (Hk' : In (Kept.model model) (map Kept.model models')).
    { rewrite Hk. apply in_map. exact Hin. }
    apply in_map_iff in Hk'. destruct Hk' as [model' [Heq Hin']].
    exists model'. split; [apply in_or_app; left; exact Hin'|].
    unfold Kept.model in Heq. congruence.
  - exists model. split; [apply in_or_app; right; exact Hin|reflexivity].
Qed.

Lemma declared_in_blocks ctor (l : list Model.t) (steps : list (string * option string))
  model st src pre :
  Forall2 (fun m step => prefix (declares ctor m) (fst step) = true) l steps ->
  (exists model', In model' l /\ Model.name model' = Model.name model) ->
  Js.includes (declares ctor model)
    (Common.emit st src (pre ++ map fst steps ++ somes (map snd steps))%list) = true.
Proof.
  intros HF [model' [Hin Hname]].
  destruct (Forall2_In_l model' HF Hin) as [step [Hstep Hp]].
  apply includes_emit with (b := fst step).
  - apply in_or_app. right. apply in_or_app. left. apply in_map. exact Hstep.
  - apply includes_prefix. unfold declares in *. rewrite <- Hname. exact Hp.
Qed.

(** X12. A run that returns has declared a table for every model of the
    input and for every join model of the synthesis: the text contains
    [export const <model> = <table constructor>('] for each of them. *)
Theorem every_model_is_declared options model st text st' :
  (In model (GeneratorOptions.models options)
   \/ exists tables models',
        ManyToMany.extractManyToManyModels (GeneratorOptions.models options)
        = inr (tables, models')
        /\ In model tables) ->
  (MySql.generateMySqlSchema options st = (inr text, st') ->
   Js.includes (declares "mysqlTable" model) text = true)
  /\ (MySqlRevised.generateMySqlSchema options st = (inr text, st') ->
      Js.includes (declares "mysqlTable" model) text = true)
  /\ (Pg.generatePgSchema options st = (inr text, st') ->
      Js.includes (declares "pgTable" model) text = true)
  /\ (SQLite.generateSQLiteSchema options st = (inr text, st') ->
      Js.includes (declares "sqliteTable" model) text = true).
Proof.
  intros Hmodel.
  assert (Hmet : forall tables models',
             ManyToMany.extractManyToManyModels (GeneratorOptions.models options)
             = inr (tables, models') ->
             exists model', In model' (models' ++ tables)%list
                            /\ Model.name model' = Model.name model).
  { intros tables models' E. eapply name_is_met; [exact E|].
    destruct Hmodel as [Hin|[tables0 [models0 [E0 Hin]]]]; [left; exact Hin|].
    rewrite E in E0. inversion E0; subst. right. exact Hin. }
  split; [|split; [|split]]; intros H.
  - unfold MySql.generateMySqlSchema in H.
    destruct (ManyToMany.extractManyToManyModels _) as [e|[tables models']] eqn:E;
      [discriminate H|].
    cbv zeta in H.
    destruct (emitted _ _ (fun steps => (map fst steps ++ somes (map snd steps))%list) _ H)
      as [steps [Hm ->]].
    apply (@declared_in_blocks "mysqlTable" (models' ++ tables)%list steps model st' _ []).
    + eapply mapM_returned; [|exact Hm]. intros x. apply MySql_table_step_declares.
    + apply Hmet. reflexivity.
  - unfold MySqlRevised.generateMySqlSchema in H.
    destruct (ManyToMany.extractManyToManyModels _) as [e|[tables models']] eqn:E;
      [discriminate H|].
    cbv zeta in H.
    destruct (emitted _ _ (fun steps => (map fst steps ++ somes (map snd steps))%list) _ H)
      as [steps [Hm ->]].
    apply (@declared_in_blocks "mysqlTable" (models' ++ tables)%list steps model st' _ []).
    + eapply mapM_returned; [|exact Hm]. intros x. apply MySqlRevised_table_step_declares.
    + apply Hmet. reflexivity.
  - unfold Pg.generatePgSchema in H.
    destruct (ManyToMany.extractManyToManyModels _) as [e|[tables models']] eqn:E;
      [discriminate H|].
    cbv zeta in H.
    destruct (bind_returned _ _ _ H) as [enumSteps [st1 [_ H2]]].
    destruct (emitted _ _
                (fun steps => (somes enumSteps ++ map fst steps
                               ++ somes (map snd steps))%list) _ H2)
      as [steps [Hm ->]].
    apply (@declared_in_blocks "pgTable" (models' ++ tables)%list steps model st' _ (somes enumSteps)).
    + eapply mapM_returned; [|exact Hm]. intros x. apply Pg_table_step_declares.
    + apply Hmet. reflexivity.
  - unfold SQLite.generateSQLiteSchema in H.
    destruct (ManyToMany.extractManyToManyModels _) as [e|[tables models']] eqn:E;
      [discriminate H|].
    cbv zeta in H.
    destruct (emitted _ _ (fun steps => (map fst steps ++ somes (map snd steps))%list) _ H)
      as [steps [Hm ->]].
    apply (@declared_in_blocks "sqliteTable" (models' ++ tables)%list steps model st' _ []).
    + eapply mapM_returned; [|exact Hm]. intros x. apply SQLite_table_step_declares.
    + apply Hmet. reflexivity.
Qed.

End Declared.

(** X12 at the models [Post] and [Tag] and the SQLite generator: the
    text declares [Post]. *)
Lemma every_model_is_declared_witness :
  In Scenarios.Post [Scenarios.Post; Scenarios.Tag]
  /\ exists text st',
       @SQLite.generateSQLiteSchema IdentifierCollation.collation
         (GeneratorOptions.mk [Scenarios.Post; Scenarios.Tag] [] []) SQLite.initial
       = (inr text, st')
       /\ Js.includes "export const Post = sqliteTable('" text = true.
Proof.
  split; [left; reflexivity|].
  destruct (@SQLite.generateSQLiteSchema IdentifierCollation.collation
              (GeneratorOptions.mk [Scenarios.Post; Scenarios.Tag] [] []) SQLite.initial)
    as [[e|text] st'] eqn:E.
  - vm_compute in E. discriminate E.
  - exists text, st'. split; [reflexivity|].
    exact (proj2 (proj2 (proj2
             (@every_model_is_declared IdentifierCollation.collation
                (GeneratorOptions.mk [Scenarios.Post; Scenarios.Tag] [] [])
                Scenarios.Post SQLite.initial text st' (or_introl (or_introl eq_refl))))) E).
Defined.

(** ** Runs that throw *)

Section Aborts.
Context {C : Js.Collation}.

Lemma fails_mapAccumM A B S (f : A -> S -> M (B * S)) (l : list A) x :
  In x l -> (forall c, fails (f x c)) -> forall c, fails (mapAccumM f l c).
Proof.
  intros Hin Hx. induction l as [|y l IH]; intros c; [contradiction|]. simpl.
  destruct Hin as [->|Hin].
  - apply fails_bind_left. apply Hx.
  - apply fails_bind_right. intros yc. apply fails_bind_left. apply IH. exact Hin.
Qed.

(** X13. The Postgres generator and the later MySQL generator look
    every model up in the schema text, the join models of the synthesis
    included: when the text has no model of the name of one of them,
    the run throws, whatever the import sets hold. *)
Theorem run_needs_a_model_node options model :
  (In model (GeneratorOptions.models options)
   \/ exists tables models',
        ManyToMany.extractManyToManyModels (GeneratorOptions.models options)
        = inr (tables, models')
        /\ In model tables) ->
  Ast.findModel (GeneratorOptions.datamodel options) (Model.name model) = None ->
  fails (Pg.generatePgSchema options)
  /\ fails (MySqlRevised.generateMySqlSchema options).
Proof.
  intros Hmodel Hfind.
  unfold Pg.generatePgSchema, MySqlRevised.generateMySqlSchema.
  destruct (ManyToMany.extractManyToManyModels _) as [e|[tables models']] eqn:E;
    [split; apply fails_throw|].
  assert (Hmet : exists model', In model' (models' ++ tables)%list
                                /\ Model.name model' = Model.name model).
  { eapply name_is_met; [exact E|].
    destruct Hmodel as [Hin|[tables0 [models0 [E0 Hin]]]]; [left; exact Hin|].
    inversion E0; subst. right. exact Hin. }
  destruct Hmet as [model' [Hin Hname]]. split.
  - apply fails_bind_right. intros enumSteps. apply fails_bind_left.
    apply fails_mapM with (x := model'); [exact Hin|].
    unfold Pg.table_step. rewrite Hname, Hfind. apply fails_throw.
  - apply fails_bind_left.
    apply fails_mapM with (x := model'); [exact Hin|].
    unfold MySqlRevised.table_step. rewrite Hname, Hfind. apply fails_throw.
Qed.

Section UnknownAction.
Variable field : Field.t.
Hypothesis Hrel : Common.is_relField field = true.
Hypothesis Howns : Common.owns_keys field = true.

Lemma Pg_unknown_action_fails schemaTable :
  Common.deleteAction_of true (Field.relationOnDelete field) = None ->
  fails (Pg.relation_decl schemaTable field).
Proof.
  intros Hact. unfold Pg.relation_decl. unfold Common.owns_keys in Howns.
  destruct (Field.relationFromFields field) as [[|x l]|]; try discriminate Howns.
  rewrite Hact. apply fails_throw.
Qed.

Lemma MySql_unknown_action_fails schemaTable columnFields :
  Common.deleteAction_of false (Field.relationOnDelete field) = None ->
  Common.one_column field = false ->
  fails (MySql.relation_decl schemaTable field columnFields).
Proof.
  intros Hact Hone. unfold MySql.relation_decl.
  unfold Common.owns_keys in Howns. unfold Common.one_column in Hone.
  destruct (Field.relationFromFields field) as [[|x l]|]; try discriminate Howns.
  destruct l as [|y l]; [destruct (Field.relationToFields field) as [[|z [|z' t]]|]|];
    try discriminate Hone; rewrite Hact; apply fails_throw.
Qed.

Lemma SQLite_unknown_action_fails schemaTable columnFields :
  Common.deleteAction_of false (Field.relationOnDelete field) = None ->
  Common.one_column field = false ->
  fails (SQLite.relation_decl schemaTable field columnFields).
Proof.
  intros Hact Hone. unfold SQLite.relation_decl.
  unfold Common.owns_keys in Howns. unfold Common.one_column in Hone.
  destruct (Field.relationFromFields field) as [[|x l]|]; try discriminate Howns.
  destruct l as [|y l]; [destruct (Field.relationToFields field) as [[|z [|z' t]]|]|];
    try discriminate Hone; rewrite Hact; apply fails_throw.
Qed.

Lemma In_relFields model : In field (Model.fields model) ->
  In field (filter Common.is_relField (Model.fields model)).
Proof. intros H. apply filter_In. split; [exact H|exact Hrel]. Qed.

End UnknownAction.

(** X14. A relation field that is no list and owns foreign-key columns,
    with a delete action that the [switch] of the dialect does not
    know, makes the run throw, whatever the import sets hold. The
    Postgres and the later MySQL module know [SetDefault]; the first
    MySQL module and the SQLite module do not, and throw for it unless
    the relation has one column on each side. *)
Theorem unknown_delete_action_aborts options model field :
  In model (GeneratorOptions.models options) ->
  In field (Model.fields model) ->
  Field.isList field = false ->
  Common.is_relField field = true ->
  Common.owns_keys field = true ->
  (Common.deleteAction_of true (Field.relationOnDelete field) = None ->
   fails (Pg.generatePgSchema options)
   /\ fails (MySqlRevised.generateMySqlSchema options))
  /\ (Common.deleteAction_of false (Field.relationOnDelete field) = None ->
      Common.one_column field = false ->
      fails (MySql.generateMySqlSchema options)
      /\ fails (SQLite.generateSQLiteSchema options))
  /\ Common.deleteAction_of true (Some "SetDefault") = Some "set default"
  /\ Common.deleteAction_of false (Some "SetDefault") = None.
Proof.
  intros Hm Hf Hlist Hrel Howns.
  assert (Hmet : forall tables models',
             ManyToMany.extractManyToManyModels (GeneratorOptions.models options)
             = inr (tables, models') ->
             exists model', In model' (models' ++ tables)%list
                            /\ In field (Model.fields model')).
  { intros tables models' E. eapply non_list_field_survives; eassumption. }
  split; [|split; [|split; reflexivity]].
  - intros Hact.
    unfold Pg.generatePgSchema, MySqlRevised.generateMySqlSchema.
    destruct (ManyToMany.extractManyToManyModels _) as [e|[tables models']] eqn:E;
      [split; apply fails_throw|].
    destruct (Hmet _ _ eq_refl) as [model' [Hin Hf']]. split.
    + apply fails_bind_right. intros enumSteps. apply fails_bind_left.
      apply fails_mapM with (x := model'); [exact Hin|].
      unfold Pg.table_step.
      destruct (Ast.findModel _ _); [|apply fails_throw]. cbv zeta.
      apply fails_bind_right. intros entries. apply fails_bind_left.
      apply fails_mapM with (x := field); [apply In_relFields; assumption|].
      apply Pg_unknown_action_fails; assumption.
    + apply fails_bind_left.
      apply fails_mapM with (x := model'); [exact Hin|].
      unfold MySqlRevised.table_step.
      destruct (Ast.findModel _ _); [|apply fails_throw]. cbv zeta.
      apply fails_bind_right. intros entries. apply fails_bind_left.
      apply fails_mapM with (x := field); [apply In_relFields; assumption|].
      apply Pg_unknown_action_fails; assumption.
  - intros Hact Hone.
    unfold MySql.generateMySqlSchema, SQLite.generateSQLiteSchema.
    destruct (ManyToMany.extractManyToManyModels _) as [e|[tables models']] eqn:E;
      [split; apply fails_throw|].
    destruct (Hmet _ _ eq_refl) as [model' [Hin Hf']]. split.
    + apply fails_bind_left.
      apply fails_mapM with (x := model'); [exact Hin|].
      unfold MySql.table_step. cbv zeta.
      apply fails_bind_right. intros entries. apply fails_bind_left.
      apply fails_mapAccumM with (x := field); [apply In_relFields; assumption|].
      intros c. apply MySql_unknown_action_fails; assumption.
    + apply fails_bind_left.
      apply fails_mapM with (x := model'); [exact Hin|].
      unfold SQLite.table_step. cbv zeta.
      apply fails_bind_right. intros entries. apply fails_bind_left.
      apply fails_mapAccumM with (x := field); [apply In_relFields; assumption|].
      intros c. apply SQLite_unknown_action_fails; assumption.
Qed.

Lemma MySqlRevised_binary_run_fails options model field :
  In model (GeneratorOptions.models options) ->
  In field (Model.fields model) ->
  Field.kind field = scalar ->
  Field.type field = "Bytes" ->
  Field.relationName field = None ->
  fails (MySqlRevised.generateMySqlSchema options).
Proof.
  intros Hm Hf Hkind Htype Hrel. unfold MySqlRevised.generateMySqlSchema.
  destruct (ManyToMany.extractManyToManyModels _) as [e|[tables models']] eqn:E;
    [apply fails_throw|].
  destruct (@unrelated_field_survives C _ _ _ _ _ E Hm Hf Hrel) as [model' [Hm' Hf']].
  apply fails_bind_left.
  apply fails_mapM with (x := model'); [exact Hm'|].
  unfold MySqlRevised.table_step.
  destruct (Ast.findModel _ _) as [modelAst|]; [|apply fails_throw]. cbv zeta.
  apply fails_bind_left. unfold MySqlRevised.column_entries. apply fails_bind_left.
  apply fails_mapM with (x := field); [exact Hf'|].
  unfold MySqlRevised.column_entry.
  destruct (Ast.findField _ _); [|apply fails_throw].
  apply fails_bind_left. unfold MySqlRevised.prismaToDrizzleColumn. cbv zeta.
  apply fails_bind_left. rewrite Hkind, Htype. apply fails_throw.
Qed.

(** X15. In the later MySQL module too, a scalar field of type [Bytes]
    makes the run throw, whatever the import sets hold. *)
Theorem revised_binary_field_aborts options model field :
  In model (GeneratorOptions.models options) ->
  In field (Model.fields model) ->
  Field.kind field = scalar ->
  Field.type field = "Bytes" ->
  Field.relationName field = None ->
  fails (MySqlRevised.generateMySqlSchema options).
Proof. apply MySqlRevised_binary_run_fails. Qed.

End Aborts.

Section AbortRuns.
#[local] Existing Instance IdentifierCollation.collation.

(** X13 at [Post] and [Tag], whose schema text has no model
    [PostToTag]. *)
Lemma run_needs_a_model_node_witness :
  Ast.findModel MoreScenarios.Post_Tag_ast "PostToTag" = None
  /\ (exists models',
        ManyToMany.extractManyToManyModels [Scenarios.Post; Scenarios.Tag]
        = inr ([MoreScenarios.PostToTag], models'))
  /\ (exists e, fst (Pg.generatePgSchema MoreScenarios.post_tag_options Pg.initial) = inl e)
  /\ fst (Pg.generatePgSchema MoreScenarios.post_tag_options Pg.initial)
     = inl (Error "Model PostToTag not found in schema").
Proof.
  assert (E : exists models',
             ManyToMany.extractManyToManyModels [Scenarios.Post; Scenarios.Tag]
             = inr ([MoreScenarios.PostToTag], models'))
    by (eexists; vm_compute; reflexivity).
  split; [reflexivity|]. split; [exact E|]. destruct E as [models' E]. split.
  - exact (proj1 (run_needs_a_model_node MoreScenarios.post_tag_options
                    MoreScenarios.PostToTag
                    (or_intror (ex_intro _ _ (ex_intro _ _
                                  (conj E (or_introl eq_refl)))))
                    eq_refl) Pg.initial).
  - vm_compute. reflexivity.
Defined.

(** X14 at the relation of [Order] to its customer over two columns,
    with [onDelete: SetDefault], in the first MySQL module. *)
Lemma unknown_delete_action_aborts_witness :
  Common.deleteAction_of false (Field.relationOnDelete (Scenarios.customer (Some "SetDefault")))
  = None
  /\ (exists e, fst (MySql.generateMySqlSchema MoreScenarios.order_options MySql.initial)
                = inl e)
  /\ fst (MySql.generateMySqlSchema MoreScenarios.order_options MySql.initial)
     = inl (GeneratorError
              "Unknown delete action on relation Order_customer_fkey: SetDefault").
Proof.
  split; [reflexivity|]. split.
  - exact (proj1 (proj1 (proj2
             (unknown_delete_action_aborts MoreScenarios.order_options
                (Scenarios.Order (Some "SetDefault")) (Scenarios.customer (Some "SetDefault"))
                (or_introl eq_refl)
                (or_intror (or_intror (or_intror (or_introl eq_refl))))
                eq_refl eq_refl eq_refl)) eq_refl eq_refl) MySql.initial).
  - vm_compute. reflexivity.
Defined.

(** X15 at the field [data] of the model [File]. *)
Lemma revised_binary_field_aborts_witness :
  (exists e, fst (MySqlRevised.generateMySqlSchema Scenarios.file_options
                    MySqlRevised.initial) = inl e)
  /\ fst (MySqlRevised.generateMySqlSchema Scenarios.file_options MySqlRevised.initial)
     = inl (GeneratorError "Drizzle ORM doesn't support binary data type for MySQL").
Proof.
  split.
  - exact (revised_binary_field_aborts Scenarios.file_options Scenarios.File Scenarios.data
             (or_introl eq_refl) (or_intror (or_introl eq_refl))
             eq_refl eq_refl eq_refl MySqlRevised.initial).
  - vm_compute. reflexivity.
Defined.

End AbortRuns.

(** ** Defaults and enums that leave no trace *)

Section Traceless.
Context {C : Js.Collation}.

(** X16. A default that JavaScript takes for false (the number [0], the
    empty string, [false]) is skipped by [if (field.default)]: in every
    module the column of the field is the column it has without
    [@default], and the same names are imported. *)
Theorem falsy_default_is_no_default field defVal :
  Field.default field = Some (DefScalar defVal) ->
  Js.truthy defVal = false ->
  (forall enums st,
      MySql.prismaToDrizzleColumn field enums st
      = MySql.prismaToDrizzleColumn (Defaults.without field) enums st)
  /\ (forall enums nativeType st,
         MySqlRevised.prismaToDrizzleColumn field enums nativeType st
         = MySqlRevised.prismaToDrizzleColumn (Defaults.without field) enums nativeType st)
  /\ (forall nativeType st,
         Pg.prismaToDrizzleColumn field nativeType st
         = Pg.prismaToDrizzleColumn (Defaults.without field) nativeType st)
  /\ (forall st,
         SQLite.prismaToDrizzleColumn field st
         = SQLite.prismaToDrizzleColumn (Defaults.without field) st).
Proof.
  intros Hdef Hfalsy.
  assert (H1 : forall column,
             MySql.addColumnModifiers field column
             = MySql.addColumnModifiers (Defaults.without field) column).
  { intros column. unfold MySql.addColumnModifiers. rewrite Hdef, Hfalsy. reflexivity. }
  assert (H2 : forall column,
             MySqlRevised.addColumnModifiers field column
             = MySqlRevised.addColumnModifiers (Defaults.without field) column).
  { intros column. unfold MySqlRevised.addColumnModifiers. rewrite Hdef, Hfalsy.
    reflexivity. }
  assert (H3 : forall column,
             Pg.addColumnModifiers field column
             = Pg.addColumnModifiers (Defaults.without field) column).
  { intros column. unfold Pg.addColumnModifiers. rewrite Hdef, Hfalsy. reflexivity. }
  assert (H4 : forall column,
             SQLite.addColumnModifiers field column
             = SQLite.addColumnModifiers (Defaults.without field) column).
  { intros column. unfold SQLite.addColumnModifiers. rewrite Hdef, Hfalsy. reflexivity. }
  split; [|split; [|split]].
  - intros enums st. unfold MySql.prismaToDrizzleColumn. cbn [Defaults.without Field.name
      Field.dbName Field.kind Field.type]. unfold bind.
    destruct (MySql.prismaToDrizzleType _ _ _ st) as [[e|[drizzleType|]] st1];
      try reflexivity.
    rewrite H1. reflexivity.
  - intros enums nativeType st. unfold MySqlRevised.prismaToDrizzleColumn.
    cbn [Defaults.without Field.name Field.dbName Field.kind Field.type]. unfold bind.
    destruct (MySqlRevised.prismaToDrizzleType _ _ _ _ st) as [[e|[drizzleType|]] st1];
      try reflexivity.
    rewrite H2. reflexivity.
  - intros nativeType st. unfold Pg.prismaToDrizzleColumn.
    cbn [Defaults.without Field.name Field.dbName Field.kind Field.type Field.default].
    rewrite Hdef. destruct (FieldKind_eqb (Field.kind field) enum).
    + unfold bind. rewrite H3. reflexivity.
    + unfold bind.
      destruct (Pg.prismaToDrizzleType _ _ _ _ st) as [[e|[drizzleType|]] st1];
        try reflexivity.
      rewrite H3. reflexivity.
  - intros st. unfold SQLite.prismaToDrizzleColumn.
    cbn [Defaults.without Field.name Field.dbName Field.kind Field.type Field.default].
    unfold bind.
    destruct (SQLite.prismaToDrizzleType _ _ st) as [[e|[drizzleType|]] st1];
      try reflexivity.
    rewrite H4. reflexivity.
Qed.

Lemma mapM_somes_erase_then A B D (g : A -> M (option B)) (f : A)
  (k : list B -> M D) :
  (forall st, g f st = (inr None, st)) ->
  forall l1 l2 st,
    bind (mapM g (l1 ++ f :: l2)%list) (fun cols => k (somes cols)) st
    = bind (mapM g (l1 ++ l2)%list) (fun cols => k (somes cols)) st.
Proof.
  intros Hg l1 l2. revert k. induction l1 as [|x l1 IH]; intros k st.
  - simpl. unfold bind at 1 2. rewrite Hg.
    unfold bind, ret. destruct (mapM g l2 st) as [[e|ys] st']; reflexivity.
  - simpl. unfold bind at 1 2 4 5.
    destruct (g x st) as [[e|y] st1]; [reflexivity|].
    specialize (IH (fun cols => k (match y with
                                   | Some b => b :: cols
                                   | None => cols
                                   end)) st1).
    unfold bind, ret in *.
    destruct (mapM g (l1 ++ f :: l2)%list st1) as [[e|ys] s];
      destruct (mapM g (l1 ++ l2)%list st1) as [[e'|ys'] s'];
      destruct y; simpl; exact IH.
Qed.

(** X17. An enum without values leaves no trace in a run of the
    Postgres generator: the result and the import sets are those of the
    run without it. *)
Theorem empty_enum_leaves_no_trace models enums1 schemaEnum enums2 datamodel st :
  DatamodelEnum.values schemaEnum = [] ->
  Pg.generatePgSchema
    (GeneratorOptions.mk models (enums1 ++ schemaEnum :: enums2) datamodel) st
  = Pg.generatePgSchema (GeneratorOptions.mk models (enums1 ++ enums2) datamodel) st.
Proof.
  intros Hvalues. unfold Pg.generatePgSchema. simpl.
  destruct (ManyToMany.extractManyToManyModels models) as [e|[tables models']];
    [reflexivity|].
  apply (mapM_somes_erase_then Pg.pgEnum_step schemaEnum
           (fun pgEnums =>
              steps <- mapM (Pg.table_step datamodel) (models' ++ tables)%list ;;
              st <- get_imports ;;
              ret (Common.emit st "drizzle-orm/pg-core"
                     (pgEnums ++ map fst steps ++ somes (map snd steps))%list))).
  intros st0. unfold Pg.pgEnum_step. rewrite Hvalues. reflexivity.
Qed.

End Traceless.

Section TracelessRuns.
#[local] Existing Instance IdentifierCollation.collation.

(** X16 at [visits Int @default(0)] in the Postgres module. *)
Lemma falsy_default_is_no_default_witness :
  Js.truthy (Js.JNum 0 0) = false
  /\ Pg.prismaToDrizzleColumn MoreScenarios.visits None Pg.initial
     = Pg.prismaToDrizzleColumn (Defaults.without MoreScenarios.visits) None Pg.initial
  /\ fst (Pg.prismaToDrizzleColumn MoreScenarios.visits None Pg.initial)
     = inr (Some (Js.tab ++ "visits: integer('visits').notNull()")).
Proof.
  split; [reflexivity|]. split.
  - exact (proj1 (proj2 (proj2
             (falsy_default_is_no_default MoreScenarios.visits eq_refl eq_refl)))
             None Pg.initial).
  - vm_compute. reflexivity.
Defined.

(** X17 at the enum [Nothing] declared after [Mood]. *)
Lemma empty_enum_leaves_no_trace_witness :
  Pg.generatePgSchema
    (GeneratorOptions.mk [Scenarios.User] [Scenarios.Mood; MoreScenarios.Nothing]
       Scenarios.User_ast) Pg.initial
  = Pg.generatePgSchema
      (GeneratorOptions.mk [Scenarios.User] [Scenarios.Mood] Scenarios.User_ast) Pg.initial.
Proof.
  exact (empty_enum_leaves_no_trace [Scenarios.User] [Scenarios.Mood] MoreScenarios.Nothing
           [] Scenarios.User_ast Pg.initial eq_refl).
Defined.

End TracelessRuns.

(** ** The arguments of the relations callback *)

Section RelationArgs.

Lemma relationArgs_fold x (relFields : list Field.t) : forall s,
  In x (fold_left (fun s field =>
                     Js.set_add (if Common.owns_keys field then "one" else "many") s)
          relFields s)
  <-> In x s
      \/ exists field, In field relFields
                       /\ x = (if Common.owns_keys field then "one" else "many").
Proof.
  induction relFields as [|f l IH]; intros s; simpl.
  - split; [auto|]. intros [H|[field [[] _]]]. exact H.
  - rewrite IH. split.
    + intros [H|[field [Hin Hx]]].
      * unfold Js.set_add in H. destruct (Js.set_has _ s); [left; exact H|].
        apply in_app_or in H. destruct H as [H|[H|[]]]; [left; exact H|].
        right. exists f. split; [left; reflexivity|symmetry; exact H].
      * right. exists field. split; [right; exact Hin|exact Hx].
    + intros [H|[field [[->|Hin] Hx]]].
      * left. apply In_set_add_mono. exact H.
      * left. subst x. apply In_set_add_same.
      * right. exists field. split; assumption.
Qed.

Lemma NoDup_relationArgs_fold (relFields : list Field.t) : forall s,
  NoDup s ->
  NoDup (fold_left (fun s field =>
                      Js.set_add (if Common.owns_keys field then "one" else "many") s)
           relFields s).
Proof.
  induction relFields as [|f l IH]; intros s H; simpl; [exact H|].
  apply IH. apply NoDup_set_add. exact H.
Qed.

(** X18. The relations callback of a table destructures [one] exactly
    when one of its relation fields owns foreign-key columns and [many]
    exactly when one of them owns none; it names nothing else and
    neither of them twice. *)
Theorem relationArgs_are_the_combinators_used (relFields : list Field.t) :
  (forall x, In x (Common.relationArgs relFields)
             <-> (x = "one" /\ exists field, In field relFields
                                             /\ Common.owns_keys field = true)
                 \/ (x = "many" /\ exists field, In field relFields
                                                 /\ Common.owns_keys field = false))
  /\ NoDup (Common.relationArgs relFields).
Proof.
  split.
  - intros x. unfold Common.relationArgs. rewrite relationArgs_fold. split.
    + intros [[]|[field [Hin Hx]]].
      destruct (Common.owns_keys field) eqn:E; [left|right];
        (split; [exact Hx|exists field; split; assumption]).
    + intros [[Hx [field [Hin E]]]|[Hx [field [Hin E]]]]; right; exists field;
        rewrite E; split; assumption.
  - apply NoDup_relationArgs_fold. constructor.
Qed.

(** X18 at the owning relation field [author] of [Article]. *)
Lemma relationArgs_are_the_combinators_used_witness :
  In "one" (Common.relationArgs [Scenarios.author])
  /\ ~ In "many" (Common.relationArgs [Scenarios.author]).
Proof.
  pose proof (proj1 (relationArgs_are_the_combinators_used [Scenarios.author])) as H.
  split.
  - apply (proj2 (H "one")). left. split; [reflexivity|].
    exists Scenarios.author. split; [left; reflexivity|reflexivity].
  - intros Hin. apply (proj1 (H "many")) in Hin.
    destruct Hin as [[Hx _]|[_ [field [[<-|[]] Hown]]]]; discriminate.
Defined.

End RelationArgs.

(** ** The handler *)

Section HandlerCalls.
Context {C : Js.Collation}.
Variables generatePgSchema generateMySqlSchema generateSQLiteSchema
  : GeneratorOptions.t -> M string.
Variable defaultPath : string.
Variable env : string -> option string.
Variable resolve : string -> string.
Variable join : string -> string -> string.

(** X19. A call of the handler touches the import sets of no module but
    the one of the provider of the first datasource, and of none at all
    when there is no datasource or the provider is not supported; in
    these two cases it throws and asks for no file. *)
Theorem handler_call_is_confined options p :
  let provider := hd_error (Handler.datasources options) in
  let p' :=
    snd (Handler.onGenerate generatePgSchema generateMySqlSchema generateSQLiteSchema
           defaultPath env resolve join options p) in
  (provider <> Some "postgres" -> provider <> Some "postgresql" ->
   Handler.pgModule p' = Handler.pgModule p)
  /\ (provider <> Some "mysql" -> Handler.mySqlModule p' = Handler.mySqlModule p)
  /\ (provider <> Some "sqlite" -> Handler.sqliteModule p' = Handler.sqliteModule p)
  /\ (provider = None ->
      Handler.onGenerate generatePgSchema generateMySqlSchema generateSQLiteSchema
        defaultPath env resolve join options p = (inl Handler.undetermined, p))
  /\ (forall dbType,
        provider = Some dbType ->
        ~ In dbType ["postgres"; "postgresql"; "mysql"; "sqlite"] ->
        Handler.onGenerate generatePgSchema generateMySqlSchema generateSQLiteSchema
          defaultPath env resolve join options p = (inl (Handler.invalid dbType), p)).
Proof.
  cbv zeta. unfold Handler.onGenerate, Handler.generate.
  destruct (hd_error (Handler.datasources options)) as [dbType|].
  - destruct (String.eqb_spec dbType "postgres") as [->|H1]; simpl.
    { destruct (generatePgSchema _ _) as [[e|text] st']; simpl;
        repeat split; try reflexivity; try congruence;
        intros d Hd Hnot; inversion Hd; subst; simpl in Hnot; tauto. }
    destruct (String.eqb_spec dbType "postgresql") as [->|H2]; simpl.
    { destruct (generatePgSchema _ _) as [[e|text] st']; simpl;
        repeat split; try reflexivity; try congruence;
        intros d Hd Hnot; inversion Hd; subst; simpl in Hnot; tauto. }
    destruct (String.eqb_spec dbType "mysql") as [->|H3]; simpl.
    { destruct (generateMySqlSchema _ _) as [[e|text] st']; simpl;
        repeat split; try reflexivity; try congruence;
        intros d Hd Hnot; inversion Hd; subst; simpl in Hnot; tauto. }
    destruct (String.eqb_spec dbType "sqlite") as [->|H4]; simpl.
    { destruct (generateSQLiteSchema _ _) as [[e|text] st']; simpl;
        repeat split; try reflexivity; try congruence;
        intros d Hd Hnot; inversion Hd; subst; simpl in Hnot; tauto. }
    repeat split; try reflexivity; try congruence.
  - simpl. repeat split; try reflexivity; try congruence.
Qed.

Hypothesis pg_reads_at_end : forall o, Accumulation.reads_at_end (generatePgSchema o).
Hypothesis mysql_reads_at_end : forall o, Accumulation.reads_at_end (generateMySqlSchema o).
Hypothesis sqlite_reads_at_end :
  forall o, Accumulation.reads_at_end (generateSQLiteSchema o).

(** X20. With generators that only add names to their import sets and
    read the sets at the end of a run, as the generators of the
    repository do, a second call of the handler with the same options
    in the same process gives what the first call gave: the same file
    at the same path, or the same exception. *)
Theorem handler_second_call_repeats_first options p :
  let first :=
    Handler.onGenerate generatePgSchema generateMySqlSchema generateSQLiteSchema
      defaultPath env resolve join options p in
  Handler.onGenerate generatePgSchema generateMySqlSchema generateSQLiteSchema
    defaultPath env resolve join options (snd first) = first.
Proof.
  cbv zeta. unfold Handler.onGenerate, Handler.generate.
  destruct (hd_error (Handler.datasources options)) as [dbType|]; [|reflexivity].
  destruct (String.eqb dbType "postgres" || String.eqb dbType "postgresql").
  { pose proof (AccumulationFacts.rerun_same
                  (pg_reads_at_end (Handler.generatorOptions options))
                  (Handler.pgModule p)) as H.
    destruct (generatePgSchema _ (Handler.pgModule p)) as [[e|text] st'] eqn:E;
      simpl in *; rewrite H; reflexivity. }
  destruct (String.eqb dbType "mysql").
  { pose proof (AccumulationFacts.rerun_same
                  (mysql_reads_at_end (Handler.generatorOptions options))
                  (Handler.mySqlModule p)) as H.
    destruct (generateMySqlSchema _ (Handler.mySqlModule p)) as [[e|text] st'] eqn:E;
      simpl in *; rewrite H; reflexivity. }
  destruct (String.eqb dbType "sqlite"); [|reflexivity].
  pose proof (AccumulationFacts.rerun_same
                (sqlite_reads_at_end (Handler.generatorOptions options))
                (Handler.sqliteModule p)) as H.
  destruct (generateSQLiteSchema _ (Handler.sqliteModule p)) as [[e|text] st'] eqn:E;
    simpl in *; rewrite H; reflexivity.
Qed.

End HandlerCalls.

Section HandlerRuns.
#[local] Existing Instance IdentifierCollation.collation.

(** X19 at a datasource of the provider [mongodb]. *)
Lemma handler_call_is_confined_witness :
  ~ In "mongodb" ["postgres"; "postgresql"; "mysql"; "sqlite"]
  /\ Handler.onGenerate Pg.generatePgSchema MySqlRevised.generateMySqlSchema
       SQLite.generateSQLiteSchema "./drizzle" (fun _ => None) (fun path => path) append
       (MoreScenarios.handler_options "mongodb") MoreScenarios.fresh
     = (inl (Handler.invalid "mongodb"), MoreScenarios.fresh).
Proof.
  assert (Hnot : ~ In "mongodb" ["postgres"; "postgresql"; "mysql"; "sqlite"]).
  { simpl. intros H. repeat (destruct H as [H|H]; [discriminate H|]). exact H. }
  split; [exact Hnot|].
  exact (proj2 (proj2 (proj2 (proj2
           (handler_call_is_confined Pg.generatePgSchema MySqlRevised.generateMySqlSchema
              SQLite.generateSQLiteSchema "./drizzle" (fun _ => None) (fun path => path)
              append (MoreScenarios.handler_options "mongodb") MoreScenarios.fresh))))
           "mongodb" eq_refl Hnot).
Defined.

(** X20 at the generators of the repository and a datasource of the
    provider [mysql]. *)
Lemma handler_second_call_repeats_first_witness :
  let first :=
    Handler.onGenerate Pg.generatePgSchema MySqlRevised.generateMySqlSchema
      SQLite.generateSQLiteSchema "./drizzle" (fun _ => None) (fun path => path) append
      (MoreScenarios.handler_options "mysql") MoreScenarios.fresh in
  Handler.onGenerate Pg.generatePgSchema MySqlRevised.generateMySqlSchema
    SQLite.generateSQLiteSchema "./drizzle" (fun _ => None) (fun path => path) append
    (MoreScenarios.handler_options "mysql") (snd first)
  = first.
Proof.
  exact (@handler_second_call_repeats_first
           Pg.generatePgSchema MySqlRevised.generateMySqlSchema SQLite.generateSQLiteSchema
           "./drizzle" (fun _ => None) (fun path => path) append
           rae_generatePgSchema rae_revised_generateMySqlSchema rae_generateSQLiteSchema
           (MoreScenarios.handler_options "mysql") MoreScenarios.fresh).
Defined.

End HandlerRuns.

(** ** The recursion of the synthesizer *)

Section Recursion.
Context {C : Js.Collation}.
Import ManyToMany.

(** X21. The recursion of [generateModels] ends by itself: every call
    recurses on a list shorter than its own, so that a bound of as many
    rounds as there are many-to-many fields, or any greater one, gives
    what [extractManyToManyModels] gives. *)
Theorem synthesis_ends_within_the_fields rounds models :
  length (filterManyToManyRelationFields models) <= rounds ->
  generateModels rounds (filterManyToManyRelationFields models) models []
  = extractManyToManyModels models.
Proof.
  intros H. unfold extractManyToManyModels.
  destruct (filterManyToManyRelationFields models) as [|r l] eqn:E.
  - destruct rounds; reflexivity.
  - apply generateModels_bound_is_enough; [exact H|simpl; lia].
Qed.

End Recursion.

(** X21 at [Post] and [Tag], with two many-to-many fields and a bound of
    two rounds. *)
Lemma synthesis_ends_within_the_fields_witness :
  length (ManyToMany.filterManyToManyRelationFields [Scenarios.Post; Scenarios.Tag]) <= 2
  /\ @ManyToMany.generateModels IdentifierCollation.collation 2
       (ManyToMany.filterManyToManyRelationFields [Scenarios.Post; Scenarios.Tag])
       [Scenarios.Post; Scenarios.Tag] []
     = @ManyToMany.extractManyToManyModels IdentifierCollation.collation
         [Scenarios.Post; Scenarios.Tag].
Proof.
  assert (H : length (ManyToMany.filterManyToManyRelationFields
                        [Scenarios.Post; Scenarios.Tag]) <= 2)
    by (vm_compute; lia).
  split; [exact H|].
  exact (@synthesis_ends_within_the_fields IdentifierCollation.collation 2
           [Scenarios.Post; Scenarios.Tag] H).
Defined.

(** ** What a column imports *)

Section ColumnImports.
Import Accumulation.

Lemma prefix_app (a b c : string) : prefix b c = true -> prefix (a ++ b) (a ++ c) = true.
Proof.
  intros H. induction a as [|x a IH]; simpl; [exact H|].
  destruct (Ascii.ascii_dec x x); [exact IH|contradiction].
Qed.

Ltac mapped H :=
  repeat match type of H with
         | context [String.eqb ?a ?b] => destruct (String.eqb a b)
         | context [Js.opt_string_eqb ?a ?b] => destruct (Js.opt_string_eqb a b)
         | context [Js.truthy_str ?a] => destruct (Js.truthy_str a)
         end;
  cbv [bind add_core ret throw] in H;
  try discriminate H;
  inversion H; subst; clear H;
  match goal with
  | |- context [Js.set_add ?fn _] => exists fn
  end;
  (split; [|apply AccumulationFacts.set_has_add_same]);
  repeat first [reflexivity | apply prefix_app | progress simpl].

(** X22. Whenever a type mapper returns a column, the column calls a
    constructor of the dialect core, and the mapper has added the name
    of this constructor to the core imports. *)
Theorem column_constructor_is_imported col st st' :
  (forall type colDbName prismaEnum,
      MySql.prismaToDrizzleType type colDbName prismaEnum st = (inr (Some col), st') ->
      exists fn, prefix (fn ++ "('" ++ colDbName ++ "'") col = true
                 /\ present (Core, fn) st' = true)
  /\ (forall type colDbName prismaEnum nativeType,
         MySqlRevised.prismaToDrizzleType type colDbName prismaEnum nativeType st
         = (inr (Some col), st') ->
         exists fn, prefix (fn ++ "('" ++ colDbName ++ "'") col = true
                    /\ present (Core, fn) st' = true)
  /\ (forall type colDbName defVal nativeType,
         Pg.prismaToDrizzleType type colDbName defVal nativeType st
         = (inr (Some col), st') ->
         exists fn, prefix (fn ++ "('" ++ colDbName ++ "'") col = true
                    /\ present (Core, fn) st' = true)
  /\ (forall type colDbName,
         SQLite.prismaToDrizzleType type colDbName st = (inr (Some col), st') ->
         exists fn, prefix (fn ++ "('" ++ colDbName ++ "'") col = true
                    /\ present (Core, fn) st' = true).
Proof.
  split; [|split; [|split]].
  - intros type colDbName prismaEnum H. unfold MySql.prismaToDrizzleType in H.
    destruct prismaEnum as [prismaEnum|]; mapped H.
  - intros type colDbName prismaEnum nativeType H.
    unfold MySqlRevised.prismaToDrizzleType in H.
    destruct prismaEnum as [prismaEnum|]; cbv zeta in H; mapped H.
  - intros type colDbName defVal nativeType H. unfold Pg.prismaToDrizzleType in H.
    cbv zeta in H. mapped H.
  - intros type colDbName H. unfold SQLite.prismaToDrizzleType in H.
    cbv zeta in H. mapped H.
Qed.

End ColumnImports.

(** X22 at the type [Int] with [@default(autoincrement())] in the
    Postgres module, which maps it to [serial]. *)
Lemma column_constructor_is_imported_witness :
  Pg.prismaToDrizzleType "Int" "id" (Some "autoincrement") None Pg.initial
  = (inr (Some "serial('id')"), snd (add_core "serial" Pg.initial))
  /\ exists fn, prefix (fn ++ "('" ++ "id" ++ "'") "serial('id')" = true
                /\ Accumulation.present (Accumulation.Core, fn)
                     (snd (add_core "serial" Pg.initial)) = true.
Proof.
  split; [reflexivity|].
  exact (proj1 (proj2 (proj2
           (column_constructor_is_imported "serial('id')" Pg.initial
              (snd (add_core "serial" Pg.initial)))))
           "Int" "id" (Some "autoincrement") None eq_refl).
Defined.

(** ** The tag of SQL literals *)

Section SqlTag.
Import Accumulation Outcome.

Lemma set_has_add_other x y s :
  x <> y -> Js.set_has x (Js.set_add y s) = Js.set_has x s.
Proof.
  intros H. unfold Js.set_add. destruct (Js.set_has y s); [reflexivity|].
  unfold Js.set_has. rewrite existsb_app. simpl.
  destruct (String.eqb_spec x y); [contradiction|].
  rewrite !orb_false_r. reflexivity.
Qed.

Lemma avoids_ret e A (a : A) : avoids e (ret a).
Proof. intros st H. exact H. Qed.

Lemma avoids_throw e A (x : exn) : avoids e (@throw A x).
Proof. intros st H. exact H. Qed.

Lemma avoids_get e : avoids e get_imports.
Proof. intros st H. exact H. Qed.

Lemma avoids_add_core x y : avoids (Drizzle, x) (add_core y).
Proof. intros st H. exact H. Qed.

Lemma avoids_add_drizzle x y : x <> y -> avoids (Drizzle, x) (add_drizzle y).
Proof.
  intros Hxy st H. unfold present in *. simpl in *.
  rewrite set_has_add_other by exact Hxy. exact H.
Qed.

Lemma avoids_bind e A B (m : M A) (k : A -> M B) :
  avoids e m -> (forall a, avoids e (k a)) -> avoids e (bind m k).
Proof.
  intros Hm Hk st H. unfold bind. specialize (Hm st H).
  destruct (m st) as [[x|a] st1]; simpl in *; [exact Hm|].
  apply Hk. exact Hm.
Qed.

Lemma avoids_mapM e A B (f : A -> M B) (l : list A) :
  (forall x, In x l -> avoids e (f x)) -> avoids e (mapM f l).
Proof.
  induction l as [|x l IH]; intros Hf; simpl.
  - apply avoids_ret.
  - apply avoids_bind; [apply Hf; left; reflexivity|]. intros y.
    apply avoids_bind; [|intros ys; apply avoids_ret].
    apply IH. intros z Hz. apply Hf. right. exact Hz.
Qed.

Lemma avoids_mapAccumM e A B S (f : A -> S -> M (B * S)) (l : list A) :
  (forall x c, avoids e (f x c)) -> forall c, avoids e (mapAccumM f l c).
Proof.
  intros Hf. induction l as [|x l IH]; intros c; simpl.
  - apply avoids_ret.
  - apply avoids_bind; [apply Hf|]. intros yc.
    apply avoids_bind; [apply IH|]. intros ysc. apply avoids_ret.
Qed.

Ltac avoid :=
  repeat first
    [ apply avoids_ret
    | apply avoids_throw
    | apply avoids_get
    | apply avoids_add_core
    | apply avoids_add_drizzle; discriminate
    | apply avoids_bind; [|intros ?]
    | apply avoids_mapAccumM; intros ? ?
    | match goal with
      | |- avoids _ (match ?x with _ => _ end) => destruct x
      | |- avoids _ (let _ := _ in _) => cbv zeta
      end ].

Section PlainField.
Variable field : Field.t.
Hypothesis Hplain : Defaults.plain field = true.

Ltac plain_default :=
  unfold Defaults.plain in Hplain;
  destruct (Field.default field) as [[defVal|defVal|name args]|];
  try discriminate Hplain;
  try (destruct (String.eqb name "now"); [|destruct (String.eqb name "autoincrement");
                                            [|discriminate Hplain]]);
  avoid.

Lemma MySql_plain_modifiers column :
  avoids (Drizzle, "sql") (MySql.addColumnModifiers field column).
Proof. unfold MySql.addColumnModifiers. cbv zeta. plain_default. Qed.

Lemma MySqlRevised_plain_modifiers column :
  avoids (Drizzle, "sql") (MySqlRevised.addColumnModifiers field column).
Proof. unfold MySqlRevised.addColumnModifiers. cbv zeta. plain_default. Qed.

Lemma SQLite_plain_modifiers column :
  avoids (Drizzle, "sql") (SQLite.addColumnModifiers field column).
Proof. unfold SQLite.addColumnModifiers. cbv zeta. plain_default. Qed.

Lemma MySql_plain_column enums :
  avoids (Drizzle, "sql") (MySql.prismaToDrizzleColumn field enums).
Proof.
  unfold MySql.prismaToDrizzleColumn, MySql.prismaToDrizzleType. cbv zeta.
  avoid; apply MySql_plain_modifiers.
Qed.

Lemma MySqlRevised_plain_column enums nativeType :
  avoids (Drizzle, "sql") (MySqlRevised.prismaToDrizzleColumn field enums nativeType).
Proof.
  unfold MySqlRevised.prismaToDrizzleColumn, MySqlRevised.prismaToDrizzleType. cbv zeta.
  avoid; apply MySqlRevised_plain_modifiers.
Qed.

Lemma SQLite_plain_column : avoids (Drizzle, "sql") (SQLite.prismaToDrizzleColumn field).
Proof.
  unfold SQLite.prismaToDrizzleColumn, SQLite.prismaToDrizzleType. cbv zeta.
  avoid; apply SQLite_plain_modifiers.
Qed.

End PlainField.

Section PlainModel.
Variable schemaTable : Model.t.
Hypothesis Hplain : forall field, In field (Model.fields schemaTable) ->
                                  Defaults.plain field = true.

Lemma MySql_plain_table enums :
  avoids (Drizzle, "sql") (MySql.table_step enums schemaTable).
Proof.
  unfold MySql.table_step, MySql.column_entries. cbv zeta.
  apply avoids_bind.
  { apply avoids_bind; [|intros; apply avoids_ret].
    apply avoids_mapM. intros field Hin.
    apply avoids_bind; [|intros; apply avoids_ret].
    apply MySql_plain_column, Hplain, Hin. }
  intros entries.
  unfold MySql.relation_decl, MySql.uniques, MySql.primaryKey. avoid.
Qed.

Lemma SQLite_plain_table : avoids (Drizzle, "sql") (SQLite.table_step schemaTable).
Proof.
  unfold SQLite.table_step, SQLite.column_entries. cbv zeta.
  apply avoids_bind.
  { apply avoids_bind; [|intros; apply avoids_ret].
    apply avoids_mapM. intros field Hin.
    apply avoids_bind; [|intros; apply avoids_ret].
    apply SQLite_plain_column, Hplain, Hin. }
  intros entries.
  unfold SQLite.relation_decl, SQLite.uniques, SQLite.primaryKey,
    Common.escaped_uniques, Common.escaped_primaryKey. avoid.
Qed.

Lemma MySqlRevised_plain_table enums schema :
  avoids (Drizzle, "sql") (MySqlRevised.table_step enums schema schemaTable).
Proof.
  unfold MySqlRevised.table_step, MySqlRevised.column_entries.
  destruct (Ast.findModel schema (Model.name schemaTable)) as [modelAst|];
    [|apply avoids_throw].
  cbv zeta. apply avoids_bind.
  { apply avoids_bind; [|intros; apply avoids_ret].
    apply avoids_mapM. intros field Hin. unfold MySqlRevised.column_entry.
    destruct (Ast.findField _ _); [|apply avoids_throw].
    apply avoids_bind; [|intros; apply avoids_ret].
    apply MySqlRevised_plain_column, Hplain, Hin. }
  intros entries. apply avoids_bind.
  { apply avoids_mapM. intros field _.
    unfold MySqlRevised.relation_decl, Pg.relation_decl. avoid. }
  intros rels.
  unfold MySqlRevised.uniques, MySqlRevised.primaryKey,
    Common.escaped_uniques, Common.escaped_primaryKey. avoid.
Qed.

End PlainModel.

End SqlTag.

Section SqlTagRuns.
Context {C : Js.Collation}.
Import Accumulation Outcome.

Lemma plain_after_extract models tables models' :
  ManyToMany.extractManyToManyModels models = inr (tables, models') ->
  (forall model field, In model models -> In field (Model.fields model) ->
                       Defaults.plain field = true) ->
  forall model field, In model (models' ++ tables)%list ->
                      In field (Model.fields model) ->
                      Defaults.plain field = true.
Proof.
  intros E Hplain model field Hm Hf. apply in_app_or in Hm. destruct Hm as [Hm|Hm].
  - pose proof (kept_extract _ E) as Hk.
    assert (Hin : In (Kept.model model) (map Kept.model models)).
    { rewrite <- Hk. apply in_map. exact Hm. }
    apply in_map_iff in Hin. destruct Hin as [model0 [Heq Hm0]].
    assert (Hfields : map Kept.field (Model.fields model0)
                      = map Kept.field (Model.fields model)).
    { unfold Kept.model in Heq. congruence. }
    assert (Hin : In (Kept.field field) (map Kept.field (Model.fields model0))).
    { rewrite Hfields. apply in_map. exact Hf. }
    apply in_map_iff in Hin. destruct Hin as [field0 [Heqf Hf0]].
    specialize (Hplain model0 field0 Hm0 Hf0).
    unfold Defaults.plain in *. unfold Kept.field in Heqf.
    replace (Field.default field) with (Field.default field0) by congruence.
    exact Hplain.
  - pose proof (extract_join_models _ E) as Hjoin.
    rewrite Forall_forall in Hjoin. specialize (Hjoin model Hm).
    destruct Hjoin as [_ [_ [a [b [aType [aId [bType [bId [many [_ [_ Hfields]]]]]]]]]]].
    rewrite Hfields in Hf. simpl in Hf.
    destruct Hf as [<-|[<-|[<-|[<-|[]]]]]; reflexivity.
Qed.

(** X23. For [@default(now())] the two MySQL modules and the SQLite
    module write a literal with the tag [sql] and add no import for it;
    and a run over models whose fields have no default other than
    scalars, [now()] and [autoincrement()] leaves a set of imports from
    [drizzle-orm] that lacks [sql] without it. *)
Theorem now_default_has_no_sql_import :
  (forall field args column st,
      Field.default field = Some (DefCall "now" args) ->
      MySql.addColumnModifiers field column st
      = (inr (Common.flag_modifiers field column ++ ".default(sql`CURRENT_TIMESTAMP`)"), st)
      /\ MySqlRevised.addColumnModifiers field column st
         = (inr (Common.flag_modifiers field column ++ ".default(sql`CURRENT_TIMESTAMP`)"),
            st)
      /\ SQLite.addColumnModifiers field column st
         = (inr (Common.flag_modifiers field column ++ ".default(sql`DATE('now')`)"), st))
  /\ (forall options st,
         (forall model field,
             In model (GeneratorOptions.models options) ->
             In field (Model.fields model) ->
             Defaults.plain field = true) ->
         present (Drizzle, "sql") st = false ->
         present (Drizzle, "sql") (snd (MySql.generateMySqlSchema options st)) = false
         /\ present (Drizzle, "sql")
              (snd (MySqlRevised.generateMySqlSchema options st)) = false
         /\ present (Drizzle, "sql")
              (snd (SQLite.generateSQLiteSchema options st)) = false).
Proof.
  split.
  - intros field args column st Hdef.
    unfold MySql.addColumnModifiers, MySqlRevised.addColumnModifiers,
      SQLite.addColumnModifiers.
    rewrite Hdef. repeat split; reflexivity.
  - intros options st Hplain Hst.
    assert (Hafter : forall tables models',
               ManyToMany.extractManyToManyModels (GeneratorOptions.models options)
               = inr (tables, models') ->
               forall model, In model (models' ++ tables)%list ->
                             forall field, In field (Model.fields model) ->
                                           Defaults.plain field = true).
    { intros tables models' E model Hm field Hf.
      eapply plain_after_extract; eassumption. }
    unfold MySql.generateMySqlSchema, MySqlRevised.generateMySqlSchema,
      SQLite.generateSQLiteSchema.
    destruct (ManyToMany.extractManyToManyModels _) as [e|[tables models']] eqn:E;
      [repeat split; exact Hst|].
    specialize (Hafter _ _ eq_refl). split; [|split].
    + revert st Hst. apply avoids_bind.
      * apply avoids_mapM. intros model Hm. apply MySql_plain_table. apply Hafter, Hm.
      * intros steps. apply avoids_bind; [apply avoids_get|]. intros st0. apply avoids_ret.
    + revert st Hst. apply avoids_bind.
      * apply avoids_mapM. intros model Hm. apply MySqlRevised_plain_table.
        apply Hafter, Hm.
      * intros steps. apply avoids_bind; [apply avoids_get|]. intros st0. apply avoids_ret.
    + revert st Hst. apply avoids_bind.
      * apply avoids_mapM. intros model Hm. apply SQLite_plain_table. apply Hafter, Hm.
      * intros steps. apply avoids_bind; [apply avoids_get|]. intros st0. apply avoids_ret.
Qed.

End SqlTagRuns.

(** X23 at [model Event { id Int @id  at DateTime @default(now()) }] in
    the first MySQL module: the text uses the tag [sql] and imports
    nothing from [drizzle-orm]. *)
Lemma now_default_has_no_sql_import_witness :
  Accumulation.present (Accumulation.Drizzle, "sql") MySql.initial = false
  /\ Accumulation.present (Accumulation.Drizzle, "sql")
       (snd (@MySql.generateMySqlSchema IdentifierCollation.collation
               (GeneratorOptions.mk [MoreScenarios.Event] [] []) MySql.initial)) = false
  /\ fst (@MySql.generateMySqlSchema IdentifierCollation.collation
            (GeneratorOptions.mk [MoreScenarios.Event] [] []) MySql.initial)
     = inr ("import { datetime, int, mysqlTable } from 'drizzle-orm/mysql-core'"
            ++ Js.nl ++ Js.nl
            ++ "export const Event = mysqlTable('Event', {" ++ Js.nl
            ++ Js.tab ++ "id: int('id').notNull().primaryKey()," ++ Js.nl
            ++ Js.tab ++ "at: datetime('at', { fsp: 3 }).notNull()"
            ++ ".default(sql`CURRENT_TIMESTAMP`)" ++ Js.nl
            ++ "});").
Proof.
  assert (Hplain : forall model field,
             In model [MoreScenarios.Event] -> In field (Model.fields model) ->
             Defaults.plain field = true).
  { intros model field [<-|[]] [<-|[<-|[]]]; reflexivity. }
  split; [reflexivity|]. split.
  - exact (proj1 (proj2 (@now_default_has_no_sql_import IdentifierCollation.collation)
                    (GeneratorOptions.mk [MoreScenarios.Event] [] []) MySql.initial
                    Hplain eq_refl)).
  - vm_compute. reflexivity.
Defined.

(** ** Which fields the synthesizer takes for many-to-many *)

Section Candidates.
Import ManyToMany.

Lemma set_has_fold_add_inv x : forall l s,
  Js.set_has x (fold_left (fun s y => Js.set_add y s) l s) = true ->
  Js.set_has x s = true \/ In x l.
Proof.
  induction l as [|y l IH]; intros s H; simpl in *; [left; exact H|].
  destruct (IH _ H) as [H'|H']; [|right; right; exact H'].
  destruct (String.eqb_spec x y) as [->|Hxy]; [right; left; reflexivity|].
  left. rewrite set_has_add_other in H' by exact Hxy. exact H'.
Qed.

Lemma truthy_names_agree (a b : option string) :
  Js.truthy_str a = true ->
  Js.nullish b EmptyString = Js.nullish a EmptyString -> b = a.
Proof.
  destruct a as [a|]; [|discriminate]. simpl. intros Ha Hb.
  destruct b as [b|]; simpl in Hb; [congruence|].
  subst a. discriminate Ha.
Qed.

(** X24. The fields that the synthesizer takes for the sides of a
    many-to-many relation are exactly the fields with a relation name
    that no field other than lists carries: a list whose relation has
    no other side is among them. *)
Theorem many_to_many_fields_are_the_list_only_relations models r :
  In r (filterManyToManyRelationFields models)
  <-> exists f, deref models r = Some f
                /\ Js.truthy_str (Field.relationName f) = true
                /\ forall r' f', deref models r' = Some f' ->
                                 Field.relationName f' = Field.relationName f ->
                                 Field.isList f' = true.
Proof.
  split.
  - intros Hin. pose proof Hin as Hin'. unfold filterManyToManyRelationFields in Hin'.
    apply filter_In in Hin'. destruct Hin' as [Hin' _].
    apply filter_In in Hin'. destruct Hin' as [_ Ht].
    unfold relationName_of in Ht.
    destruct (deref models r) as [f|] eqn:Hd; [|discriminate Ht].
    exists f. split; [reflexivity|]. split; [exact Ht|].
    intros r' f' Hd' Hname. destruct (Field.isList f') eqn:Hlist; [reflexivity|].
    exfalso. apply (not_many_to_many models r Hd); [|exact Hin].
    right. exists r', f'. auto.
  - intros [f [Hd [Ht Hall]]]. unfold filterManyToManyRelationFields.
    apply filter_In. split.
    + apply filter_In. split; [eapply deref_in_all_fields; exact Hd|].
      unfold relationName_of. rewrite Hd. exact Ht.
    + apply negb_true_iff.
      destruct (Js.set_has _ _) eqn:Hset; [|reflexivity]. exfalso.
      unfold Js.set_of_list in Hset. apply set_has_fold_add_inv in Hset.
      destruct Hset as [Hset|Hset]; [discriminate Hset|].
      apply in_map_iff in Hset. destruct Hset as [r' [Hname Hr']].
      apply filter_In in Hr'. destruct Hr' as [_ Hlist].
      unfold relationName_of in Hname. rewrite Hd in Hname.
      destruct (deref models r') as [f'|] eqn:Hd'; [|discriminate Hlist].
      apply truthy_names_agree in Hname; [|exact Ht].
      rewrite (Hall r' f' Hd' Hname) in Hlist. discriminate Hlist.
Qed.

End Candidates.

(** X24 at the model [Lone], whose list has no other side. *)
Lemma many_to_many_fields_are_the_list_only_relations_witness :
  In (0, 1) (ManyToMany.filterManyToManyRelationFields [Scenarios.Lone]).
Proof.
  apply (proj2 (many_to_many_fields_are_the_list_only_relations [Scenarios.Lone] (0, 1))).
  exists (Scenarios.list_relation "tags" "Tag" "LoneToTag").
  split; [reflexivity|]. split; [reflexivity|].
  intros [i j] f' Hd Hname.
  destruct i as [|i]; [|destruct i; discriminate Hd].
  destruct j as [|[|j]]; [| |destruct j; discriminate Hd].
  - inversion Hd; subst f'. discriminate Hname.
  - inversion Hd. reflexivity.
Defined.

(** ** A many-to-many relation of a model with itself *)

Section SelfRelation.
Context {C : Js.Collation}.
Import ManyToMany.

Lemma generateModels_extends : forall fuel l models tables tables' models',
  generateModels fuel l models tables = inr (tables', models') ->
  exists more, tables' = (tables ++ more)%list.
Proof.
  induction fuel as [|fuel IH]; intros l models tables tables' models' H; simpl in H.
  - inversion H; subst. exists []. rewrite app_nil_r. reflexivity.
  - destruct l as [|manyFirst rest];
      [inversion H; subst; exists []; rewrite app_nil_r; reflexivity|].
    destruct (find _ rest) as [manySecond|];
      [|inversion H; subst; exists []; rewrite app_nil_r; reflexivity].
    destruct (generateJoinFields (manyFirst, manySecond) models)
      as [e|[fields models1]]; [discriminate|].
    apply IH in H. destruct H as [more ->].
    rewrite <- app_assoc. eexists. reflexivity.
Qed.

Lemma generateJoinFields_self f1 f2 models fields models' :
  generateJoinFields (f1, f2) models = inr (fields, models') ->
  type_of models f1 = type_of models f2 ->
  let T := type_of models f1 in
  exists aType aId bType bId,
    fields = [ join_scalar (T ++ "Id") "A" aType;
               join_object T (T ++ "To" ++ T ++ "To" ++ T) (T ++ "Id") aId;
               join_scalar (T ++ "Id") "B" bType;
               join_object T (T ++ "To" ++ T ++ "To" ++ T) (T ++ "Id") bId ].
Proof.
  intros H Hsame. cbv zeta. unfold generateJoinFields in H. simpl fst in H. simpl snd in H.
  assert (Htypes : forall A B, sorted_pair models f1 f2 = (A, B) ->
            type_of models A = type_of models f1
            /\ type_of models B = type_of models f1).
  { intros A B HAB.
    destruct (sorted_pair_cases models f1 f2) as [E|E]; rewrite E in HAB;
      inversion HAB; subst; auto. }
  destruct (sorted_pair models f1 f2) as [A B].
  destruct (Htypes A B eq_refl) as [HA HB]. cbv zeta in H. rewrite HA, HB in H.
  repeat match type of H with
         | match ?x with _ => _ end = _ => destruct x; try discriminate
         end.
  inversion H; subst. do 4 eexists. reflexivity.
Qed.

(** X25. When the two sides of a many-to-many relation have the same
    type (a relation of a model with itself), the join model gets two
    scalar fields of the same name, [<Model>Id], and two relation
    fields of the same name and the same relation name: its columns
    [A] and [B] are entered under one key. *)
Theorem self_relation_fields_collide models manyFirst manySecond rest tables models' :
  filterManyToManyRelationFields models = manyFirst :: rest ->
  find (fun field => Js.opt_string_eqb (relationName_of models field)
                       (relationName_of models manyFirst)) rest = Some manySecond ->
  type_of models manyFirst = type_of models manySecond ->
  extractManyToManyModels models = inr (tables, models') ->
  let T := type_of models manyFirst in
  exists join more aType aId bType bId,
    tables = join :: more
    /\ Model.name join = T ++ "To" ++ T
    /\ Model.fields join
       = [ join_scalar (T ++ "Id") "A" aType;
           join_object T (T ++ "To" ++ T ++ "To" ++ T) (T ++ "Id") aId;
           join_scalar (T ++ "Id") "B" bType;
           join_object T (T ++ "To" ++ T ++ "To" ++ T) (T ++ "Id") bId ].
Proof.
  intros Hfilter Hfind Hsame H. cbv zeta.
  unfold extractManyToManyModels in H. rewrite Hfilter in H.
  destruct (generateJoinFields (manyFirst, manySecond) models)
    as [e|[fields models1]] eqn:Hjoin.
  { simpl in H. rewrite Hfind, Hjoin in H. discriminate H. }
  destruct (@generateModels_names_in_list_order C (length (manyFirst :: rest))
              manyFirst manySecond rest models [] fields models1 Hfind Hjoin)
    as [rest' Hstep].
  rewrite Hstep in H.
  destruct (generateJoinFields_self _ _ _ Hjoin Hsame)
    as [aType [aId [bType [bId Hfields]]]].
  destruct (generateModels_extends _ _ _ _ H) as [more Hmore].
  eexists. exists more, aType, aId, bType, bId.
  split; [exact Hmore|]. simpl. rewrite <- Hsame. split; [reflexivity|exact Hfields].
Qed.

End SelfRelation.

Section SelfRelationRuns.
#[local] Existing Instance IdentifierCollation.collation.

(** X25 at the model [Person] with [followers] and [following]: the
    join model has two fields [PersonId], and the table that the
    SQLite generator declares for it has the column [B] only. *)
Lemma self_relation_fields_collide_witness :
  (exists join more aType aId bType bId models',
      ManyToMany.extractManyToManyModels [MoreScenarios.Person]
      = inr (join :: more, models')
      /\ Model.name join = "PersonToPerson"
      /\ Model.fields join
         = [ ManyToMany.join_scalar "PersonId" "A" aType;
             ManyToMany.join_object "Person" "PersonToPersonToPerson" "PersonId" aId;
             ManyToMany.join_scalar "PersonId" "B" bType;
             ManyToMany.join_object "Person" "PersonToPersonToPerson" "PersonId" bId ])
  /\ match SQLite.generateSQLiteSchema (GeneratorOptions.mk [MoreScenarios.Person] [] [])
             SQLite.initial with
     | (inr text, _) =>
         Js.includes
           ("export const PersonToPerson = sqliteTable('_Follows', {" ++ Js.nl
            ++ Js.tab ++ "PersonId: int('B').notNull()"
            ++ ".references(() => Person.id).references(() => Person.id)" ++ Js.nl
            ++ "});") text = true
         /\ Js.includes "int('A')" text = false
     | _ => False
     end.
Proof.
  split.
  - destruct (ManyToMany.extractManyToManyModels [MoreScenarios.Person])
      as [e|[tables models']] eqn:E; [vm_compute in E; discriminate E|].
    destruct (self_relation_fields_collide [MoreScenarios.Person]
                (manyFirst := (0, 1)) (manySecond := (0, 2)) (rest := [(0, 2)])
                eq_refl eq_refl eq_refl E)
      as [join [more [aType [aId [bType [bId [Ht [Hn Hf]]]]]]]].
    exists join, more, aType, aId, bType, bId, models'.
    rewrite Ht. split; [reflexivity|]. split; [exact Hn|exact Hf].
  - vm_compute. split; reflexivity.
Defined.

End SelfRelationRuns.

(** ** Binary fields *)

Section Succeeding.
Import Outcome.

Lemma succeeds_ret A (a : A) : succeeds (ret a).
Proof. intros st. exists a, st. reflexivity. Qed.

Lemma succeeds_add_core x : succeeds (add_core x).
Proof. intros st. eexists. eexists. reflexivity. Qed.

Lemma succeeds_add_drizzle x : succeeds (add_drizzle x).
Proof. intros st. eexists. eexists. reflexivity. Qed.

Lemma succeeds_get : succeeds get_imports.
Proof. intros st. exists st, st. reflexivity. Qed.

Lemma succeeds_bind A B (m : M A) (k : A -> M B) :
  succeeds m -> (forall a, succeeds (k a)) -> succeeds (bind m k).
Proof.
  intros Hm Hk st. destruct (Hm st) as [a [st1 E]].
  destruct (Hk a st1) as [b [st2 E2]].
  exists b, st2. unfold bind. rewrite E. exact E2.
Qed.

Lemma succeeds_mapM A B (f : A -> M B) (l : list A) :
  (forall x, In x l -> succeeds (f x)) -> succeeds (mapM f l).
Proof.
  induction l as [|x l IH]; intros Hf; simpl.
  - apply succeeds_ret.
  - apply succeeds_bind; [apply Hf; left; reflexivity|]. intros y.
    apply succeeds_bind; [|intros ys; apply succeeds_ret].
    apply IH. intros z Hz. apply Hf. right. exact Hz.
Qed.

Lemma succeeds_mapAccumM A B S (f : A -> S -> M (B * S)) (l : list A) :
  (forall x c, In x l -> succeeds (f x c)) -> forall c, succeeds (mapAccumM f l c).
Proof.
  induction l as [|x l IH]; intros Hf c; simpl.
  - apply succeeds_ret.
  - apply succeeds_bind; [apply Hf; left; reflexivity|]. intros yc.
    apply succeeds_bind; [|intros ysc; apply succeeds_ret].
    apply IH. intros z c' Hz. apply Hf. right. exact Hz.
Qed.

Ltac succeed :=
  repeat first
    [ apply succeeds_ret
    | apply succeeds_add_core
    | apply succeeds_add_drizzle
    | apply succeeds_get
    | apply succeeds_bind; [|intros ?]
    | match goal with
      | |- succeeds (if ?x then _ else _) => destruct x
      | |- succeeds (let _ := _ in _) => cbv zeta
      end ].

Lemma append_empty_r (s : string) : s ++ EmptyString = s.
Proof. induction s as [|c s IH]; simpl; congruence. Qed.

Lemma SQLite_type_mapper_succeeds type colDbName :
  succeeds (SQLite.prismaToDrizzleType type colDbName).
Proof. unfold SQLite.prismaToDrizzleType. cbv zeta. succeed. Qed.

(** The modifiers are appended to the column, and they are returned
    unless the escaper is given something that is no string. *)
Lemma SQLite_modifiers_append field column :
  Defaults.escapable field = true ->
  forall st, exists rest st',
    SQLite.addColumnModifiers field column st = (inr (column ++ rest), st').
Proof.
  intros Hesc st. unfold SQLite.addColumnModifiers. cbv zeta.
  assert (Hflags : exists flags, Common.flag_modifiers field column = column ++ flags).
  { unfold Common.flag_modifiers.
    destruct (Field.isRequired field), (Field.isId field), (Field.isUnique field);
      rewrite ?append_assoc;
      first [eexists; reflexivity
            | exists EmptyString; symmetry; apply append_empty_r]. }
  destruct Hflags as [flags ->].
  unfold Defaults.escapable in Hesc.
  destruct (Field.default field) as [[defVal|defVal|name args]|].
  - destruct (Js.truthy defVal); eexists; eexists; unfold ret;
      rewrite ?append_assoc; reflexivity.
  - eexists. eexists. unfold bind, add_drizzle, ret. rewrite !append_assoc. reflexivity.
  - destruct (String.eqb name "now");
      [eexists; eexists; unfold ret; rewrite append_assoc; reflexivity|].
    destruct (String.eqb name "autoincrement");
      [eexists; eexists; unfold ret; reflexivity|].
    destruct (String.eqb name "dbgenerated").
    + destruct args as [|[m e|a|b] args]; try discriminate Hesc.
      eexists. eexists. unfold bind, Common.escaped_first_arg, add_drizzle, ret.
      rewrite !append_assoc. reflexivity.
    + cbv zeta. eexists. eexists. unfold bind, add_drizzle, ret.
      rewrite !append_assoc. reflexivity.
  - eexists. eexists. unfold ret. reflexivity.
Qed.

Lemma SQLite_column_succeeds field :
  Defaults.escapable field = true -> succeeds (SQLite.prismaToDrizzleColumn field).
Proof.
  intros Hesc. unfold SQLite.prismaToDrizzleColumn. cbv zeta.
  apply succeeds_bind; [apply SQLite_type_mapper_succeeds|].
  intros [drizzleType|]; [|apply succeeds_ret].
  apply succeeds_bind; [|intros; apply succeeds_ret].
  intros st.
  match goal with
  | |- context [SQLite.addColumnModifiers field ?column] =>
      destruct (SQLite_modifiers_append field column Hesc st) as [rest [st' E]]
  end.
  eexists. eexists. exact E.
Qed.

Lemma SQLite_relation_succeeds schemaTable field columnFields :
  Common.is_relField field = true ->
  Relations.declarable field = true ->
  succeeds (SQLite.relation_decl schemaTable field columnFields).
Proof.
  unfold Relations.declarable, Common.is_relField, Common.owns_keys, Common.one_column,
    SQLite.relation_decl.
  destruct (Field.relationToFields field) as [toFields|]; [|discriminate].
  destruct (Field.relationFromFields field) as [[|x l]|]; try discriminate;
    intros _ Hdecl; try apply succeeds_ret.
  destruct l as [|y l]; [destruct toFields as [|z [|z' t]]|];
    try apply succeeds_ret;
    simpl in Hdecl;
    destruct (Common.deleteAction_of false (Field.relationOnDelete field));
    try discriminate Hdecl; succeed.
Qed.

Lemma SQLite_table_succeeds schemaTable :
  (forall field, In field (Model.fields schemaTable) ->
                 Defaults.escapable field = true /\ Relations.declarable field = true) ->
  succeeds (SQLite.table_step schemaTable).
Proof.
  intros Hfields. unfold SQLite.table_step, SQLite.column_entries. cbv zeta.
  apply succeeds_bind.
  { apply succeeds_bind; [|intros; apply succeeds_ret].
    apply succeeds_mapM. intros field Hin.
    apply succeeds_bind; [|intros; apply succeeds_ret].
    apply SQLite_column_succeeds. apply Hfields, Hin. }
  intros entries. apply succeeds_bind.
  { apply succeeds_mapAccumM. intros field c Hin.
    apply filter_In in Hin. destruct Hin as [Hin Hrel].
    apply SQLite_relation_succeeds; [exact Hrel|apply Hfields, Hin]. }
  intros rels. apply succeeds_bind.
  { unfold SQLite.uniques, Common.escaped_uniques.
    destruct (Model.uniqueIndexes schemaTable); succeed. }
  intros uniq. apply succeeds_bind.
  { unfold SQLite.primaryKey, Common.escaped_primaryKey.
    destruct (Model.primaryKey schemaTable); succeed. }
  intros pk. destruct (filter Common.is_relField (Model.fields schemaTable)); succeed.
Qed.

End Succeeding.

Section Rewritten.
Context {C : Js.Collation}.
Import ManyToMany.

Lemma rewritten_refl f : Relations.rewritten f f.
Proof. split; [reflexivity|left; split; reflexivity]. Qed.

Lemma rewritten_trans f g h :
  Relations.rewritten f g -> Relations.rewritten g h -> Relations.rewritten f h.
Proof.
  intros [Hk1 H1] [Hk2 H2]. split; [congruence|].
  destruct H2 as [[Ha Hb]|H2]; [|right; exact H2].
  destruct H1 as [[Hc Hd]|[Hc Hd]]; [left|right]; split; congruence.
Qed.

Lemma Forall2_same A (Q : A -> A -> Prop) (l : list A) :
  (forall x, Q x x) -> Forall2 Q l l.
Proof. intros H. induction l; constructor; auto. Qed.

Lemma Forall2_chain A (Q : A -> A -> Prop) :
  (forall x y z, Q x y -> Q y z -> Q x z) ->
  forall l1 l2 l3, Forall2 Q l1 l2 -> Forall2 Q l2 l3 -> Forall2 Q l1 l3.
Proof.
  intros Ht l1 l2 l3 H12. revert l3.
  induction H12 as [|x y l1 l2 Hxy _ IH]; intros l3 H23; inversion H23; subst;
    constructor; eauto.
Qed.

Lemma Forall2_update_nth A (Q : A -> A -> Prop) (g : A -> A) (l : list A) n :
  (forall x, Q x x) -> (forall x, Q x (g x)) -> Forall2 Q l (update_nth n g l).
Proof.
  intros Hr Hg. revert n. induction l as [|x l IH]; intros [|n]; simpl;
    try constructor; auto using Forall2_same.
Qed.

Lemma rewritten_models_refl models : Relations.rewritten_models models models.
Proof.
  apply Forall2_same. intros m. apply Forall2_same. apply rewritten_refl.
Qed.

Lemma rewritten_models_trans m1 m2 m3 :
  Relations.rewritten_models m1 m2 -> Relations.rewritten_models m2 m3 ->
  Relations.rewritten_models m1 m3.
Proof.
  apply Forall2_chain. intros x y z. apply Forall2_chain. apply rewritten_trans.
Qed.

Lemma rewritten_assign r g models :
  (forall f, Relations.rewritten f (g f)) ->
  Relations.rewritten_models models (assign r g models).
Proof.
  intros Hg. unfold assign, Relations.rewritten_models.
  apply Forall2_update_nth.
  - intros m. apply Forall2_same. apply rewritten_refl.
  - intros m. simpl. apply Forall2_update_nth; [apply rewritten_refl|exact Hg].
Qed.

Lemma rewritten_generateJoinFields pair models fields models' :
  generateJoinFields pair models = inr (fields, models') ->
  Relations.rewritten_models models models'.
Proof.
  unfold generateJoinFields.
  destruct (sorted_pair models (fst pair) (snd pair)) as [A B]. cbv zeta.
  intros H.
  repeat match type of H with
         | match ?x with _ => _ end = _ => destruct x; try discriminate
         end.
  inversion H; subst.
  eapply rewritten_models_trans; [|apply rewritten_assign].
  - eapply rewritten_models_trans; [|apply rewritten_assign].
    + apply rewritten_assign. intros f. split; [reflexivity|right; split; reflexivity].
    + intros f. split; [reflexivity|left; split; reflexivity].
  - intros f. split; [reflexivity|right; split; reflexivity].
Qed.

Lemma rewritten_generateModels : forall fuel l models tables tables' models',
  generateModels fuel l models tables = inr (tables', models') ->
  Relations.rewritten_models models models'.
Proof.
  induction fuel as [|fuel IH]; intros l models tables tables' models' H; simpl in H.
  - inversion H; subst. apply rewritten_models_refl.
  - destruct l as [|manyFirst rest];
      [inversion H; subst; apply rewritten_models_refl|].
    destruct (find _ rest) as [manySecond|];
      [|inversion H; subst; apply rewritten_models_refl].
    destruct (generateJoinFields (manyFirst, manySecond) models)
      as [e|[fields models1]] eqn:Hjoin; [discriminate|].
    eapply rewritten_models_trans; [eapply rewritten_generateJoinFields; exact Hjoin|].
    eapply IH. exact H.
Qed.

Lemma rewritten_extract models tables models' :
  extractManyToManyModels models = inr (tables, models') ->
  Relations.rewritten_models models models'.
Proof.
  unfold extractManyToManyModels.
  destruct (filterManyToManyRelationFields models) as [|r l].
  - intros H. inversion H; subst. apply rewritten_models_refl.
  - apply rewritten_generateModels.
Qed.

Lemma Forall2_In_r A B (R : A -> B -> Prop) l l' y :
  Forall2 R l l' -> In y l' -> exists x, In x l /\ R x y.
Proof.
  induction 1 as [|a b l l' Hab _ IH]; intros Hin; [contradiction|].
  destruct Hin as [->|Hin].
  - exists a. split; [left; reflexivity|exact Hab].
  - destruct (IH Hin) as [x [Hx HR]]. exists x. split; [right; exact Hx|exact HR].
Qed.

Lemma escapable_rewritten f f' :
  Relations.rewritten f f' -> Defaults.escapable f = true -> Defaults.escapable f' = true.
Proof.
  intros [Hk _]. unfold Defaults.escapable, Kept.field in *.
  replace (Field.default f') with (Field.default f) by congruence. auto.
Qed.

Lemma declarable_rewritten f f' :
  Relations.rewritten f f' -> Relations.declarable f = true ->
  Relations.declarable f' = true.
Proof.
  intros [Hk H]. unfold Relations.declarable, Common.is_relField, Common.owns_keys,
    Common.one_column, Kept.field in *.
  replace (Field.relationOnDelete f') with (Field.relationOnDelete f) by congruence.
  destruct H as [[-> ->]|[-> ->]]; [auto|].
  intros _. reflexivity.
Qed.

(** The conditions under which a field can be printed carry over from
    the models of the input to the models the generators go through. *)
Lemma printable_after_extract models tables models' :
  extractManyToManyModels models = inr (tables, models') ->
  (forall model field, In model models -> In field (Model.fields model) ->
                       Defaults.escapable field = true
                       /\ Relations.declarable field = true) ->
  forall model field, In model (models' ++ tables)%list ->
                      In field (Model.fields model) ->
                      Defaults.escapable field = true
                      /\ Relations.declarable field = true.
Proof.
  intros E Hok model field Hm Hf. apply in_app_or in Hm. destruct Hm as [Hm|Hm].
  - destruct (Forall2_In_r _ (rewritten_extract _ E) Hm) as [model0 [Hm0 Hfields]].
    destruct (Forall2_In_r _ Hfields Hf) as [field0 [Hf0 Hrw]].
    destruct (Hok model0 field0 Hm0 Hf0) as [He Hd].
    split; [eapply escapable_rewritten|eapply declarable_rewritten]; eassumption.
  - pose proof (extract_join_models _ E) as Hjoin.
    rewrite Forall_forall in Hjoin. specialize (Hjoin model Hm).
    destruct Hjoin as [_ [_ [a [b [aType [aId [bType [bId [many [_ [_ Hfields]]]]]]]]]]].
    rewrite Hfields in Hf. simpl in Hf.
    destruct Hf as [<-|[<-|[<-|[<-|[]]]]]; split; reflexivity.
Qed.

(** A run of the SQLite generator returns whenever the synthesis
    returns, the escaper can take every default and the [switch] knows
    every delete action it is asked for: the types of the fields do not
    matter. *)
Lemma SQLite_run_succeeds options :
  (exists r, extractManyToManyModels (GeneratorOptions.models options) = inr r) ->
  (forall model field,
      In model (GeneratorOptions.models options) -> In field (Model.fields model) ->
      Defaults.escapable field = true /\ Relations.declarable field = true) ->
  Outcome.succeeds (SQLite.generateSQLiteSchema options).
Proof.
  intros [[tables models'] E] Hok. unfold SQLite.generateSQLiteSchema. rewrite E.
  cbv zeta. apply succeeds_bind.
  - apply succeeds_mapM. intros model Hm. apply SQLite_table_succeeds.
    intros field Hf. eapply printable_after_extract; eassumption.
  - intros steps. apply succeeds_bind; [apply succeeds_get|].
    intros st0. apply succeeds_ret.
Qed.

End Rewritten.

Section FirstThrow.
Context {C : Js.Collation}.

(** A [map] throws what its callback throws at the first element at
    which it throws. *)
Lemma mapM_throws_at A B (f : A -> M B) (x : A) (l2 : list A) e st2 :
  forall l1 st ys st1,
    mapM f l1 st = (inr ys, st1) ->
    f x st1 = (inl e, st2) ->
    mapM f (l1 ++ x :: l2)%list st = (inl e, st2).
Proof.
  induction l1 as [|y l1 IH]; intros st ys st1 Hl1 Hx; simpl in *.
  - inversion Hl1; subst. unfold bind. rewrite Hx. reflexivity.
  - unfold bind in *. destruct (f y st) as [[e'|b] st'] eqn:Ey; [discriminate|].
    destruct (mapM f l1 st') as [[e'|bs] st''] eqn:El; [discriminate|].
    inversion Hl1; subst.
    rewrite (IH _ _ _ El Hx). reflexivity.
Qed.

Variable field : Field.t.
Hypothesis Hkind : Field.kind field = scalar.
Hypothesis Htype : Field.type field = "Bytes".

Lemma MySql_binary_column_throws enums st :
  (c <- MySql.prismaToDrizzleColumn field enums ;;
   ret (option_map (fun c => (Field.name field, c)) c)) st
  = (inl (GeneratorError "Drizzle ORM doesn't support binary data type for MySQL"), st).
Proof.
  unfold MySql.prismaToDrizzleColumn. rewrite Hkind, Htype. reflexivity.
Qed.

Lemma MySql_binary_table_throws enums schemaTable before after st1 entries st2 :
  Model.fields schemaTable = (before ++ field :: after)%list ->
  MySql.column_entries before enums st1 = (inr entries, st2) ->
  MySql.table_step enums schemaTable st1
  = (inl (GeneratorError "Drizzle ORM doesn't support binary data type for MySQL"), st2).
Proof.
  intros Hfields Hbefore. unfold MySql.column_entries in Hbefore.
  destruct (bind_returned _ _ _ Hbefore) as [cols [st' [Hcols Hret]]].
  inversion Hret; subst st'.
  unfold MySql.table_step, MySql.column_entries. cbv zeta. rewrite Hfields.
  unfold bind at 1. unfold bind at 1.
  rewrite (mapM_throws_at _ field after _ _ Hcols (MySql_binary_column_throws enums st2)).
  reflexivity.
Qed.

Lemma MySql_binary_run_throws options tables models' pre schemaTable post before after
  st steps st1 entries st2 :
  ManyToMany.extractManyToManyModels (GeneratorOptions.models options)
  = inr (tables, models') ->
  (models' ++ tables)%list = (pre ++ schemaTable :: post)%list ->
  Model.fields schemaTable = (before ++ field :: after)%list ->
  mapM (MySql.table_step (GeneratorOptions.enums options)) pre st = (inr steps, st1) ->
  MySql.column_entries before (GeneratorOptions.enums options) st1 = (inr entries, st2) ->
  MySql.generateMySqlSchema options st
  = (inl (GeneratorError "Drizzle ORM doesn't support binary data type for MySQL"), st2).
Proof.
  intros E Hmodels Hfields Hpre Hbefore. unfold MySql.generateMySqlSchema.
  rewrite E. cbv zeta. rewrite Hmodels. unfold bind at 1.
  erewrite mapM_throws_at;
    [reflexivity|exact Hpre|eapply MySql_binary_table_throws; eassumption].
Qed.

Lemma Pg_binary_column_throws modelAst fieldAst st :
  Ast.findField (Ast.properties modelAst) (Field.name field) = Some fieldAst ->
  Pg.column_entry modelAst field st
  = (inl (GeneratorError "Drizzle ORM doesn't support binary data type for PostgreSQL"),
     st).
Proof.
  intros Hast. unfold Pg.column_entry. rewrite Hast.
  unfold Pg.prismaToDrizzleColumn. rewrite Hkind. cbv zeta. simpl FieldKind_eqb. cbv iota.
  unfold Pg.prismaToDrizzleType. rewrite Htype. reflexivity.
Qed.

Lemma Pg_binary_table_throws schema schemaTable modelAst fieldAst before after
  st1 entries st2 :
  Ast.findModel schema (Model.name schemaTable) = Some modelAst ->
  Ast.findField (Ast.properties modelAst) (Field.name field) = Some fieldAst ->
  Model.fields schemaTable = (before ++ field :: after)%list ->
  Pg.column_entries modelAst before st1 = (inr entries, st2) ->
  Pg.table_step schema schemaTable st1
  = (inl (GeneratorError "Drizzle ORM doesn't support binary data type for PostgreSQL"),
     st2).
Proof.
  intros Hmodel Hast Hfields Hbefore. unfold Pg.column_entries in Hbefore.
  destruct (bind_returned _ _ _ Hbefore) as [cols [st' [Hcols Hret]]].
  inversion Hret; subst st'.
  unfold Pg.table_step. rewrite Hmodel. unfold Pg.column_entries. cbv zeta.
  rewrite Hfields. unfold bind at 1. unfold bind at 1.
  rewrite (mapM_throws_at _ field after _ _ Hcols
             (Pg_binary_column_throws modelAst st2 Hast)).
  reflexivity.
Qed.

Lemma Pg_binary_run_throws options tables models' pre schemaTable post modelAst fieldAst
  before after st enumSteps st0 steps st1 entries st2 :
  ManyToMany.extractManyToManyModels (GeneratorOptions.models options)
  = inr (tables, models') ->
  (models' ++ tables)%list = (pre ++ schemaTable :: post)%list ->
  Model.fields schemaTable = (before ++ field :: after)%list ->
  Ast.findModel (GeneratorOptions.datamodel options) (Model.name schemaTable)
  = Some modelAst ->
  Ast.findField (Ast.properties modelAst) (Field.name field) = Some fieldAst ->
  mapM Pg.pgEnum_step (GeneratorOptions.enums options) st = (inr enumSteps, st0) ->
  mapM (Pg.table_step (GeneratorOptions.datamodel options)) pre st0 = (inr steps, st1) ->
  Pg.column_entries modelAst before st1 = (inr entries, st2) ->
  Pg.generatePgSchema options st
  = (inl (GeneratorError "Drizzle ORM doesn't support binary data type for PostgreSQL"),
     st2).
Proof.
  intros E Hmodels Hfields Hmodel Hast Henums Hpre Hbefore. unfold Pg.generatePgSchema.
  rewrite E. cbv zeta. rewrite Hmodels. unfold bind at 1. rewrite Henums.
  unfold bind at 1.
  erewrite mapM_throws_at;
    [reflexivity|exact Hpre|eapply Pg_binary_table_throws; eassumption].
Qed.

Lemma MySqlRevised_binary_column_throws enums modelAst fieldAst st :
  Ast.findField (Ast.properties modelAst) (Field.name field) = Some fieldAst ->
  MySqlRevised.column_entry enums modelAst field st
  = (inl (GeneratorError "Drizzle ORM doesn't support binary data type for MySQL"), st).
Proof.
  intros Hast. unfold MySqlRevised.column_entry. rewrite Hast.
  unfold MySqlRevised.prismaToDrizzleColumn. rewrite Hkind, Htype. reflexivity.
Qed.

Lemma MySqlRevised_binary_table_throws enums schema schemaTable modelAst fieldAst
  before after st1 entries st2 :
  Ast.findModel schema (Model.name schemaTable) = Some modelAst ->
  Ast.findField (Ast.properties modelAst) (Field.name field) = Some fieldAst ->
  Model.fields schemaTable = (before ++ field :: after)%list ->
  MySqlRevised.column_entries enums modelAst before st1 = (inr entries, st2) ->
  MySqlRevised.table_step enums schema schemaTable st1
  = (inl (GeneratorError "Drizzle ORM doesn't support binary data type for MySQL"), st2).
Proof.
  intros Hmodel Hast Hfields Hbefore. unfold MySqlRevised.column_entries in Hbefore.
  destruct (bind_returned _ _ _ Hbefore) as [cols [st' [Hcols Hret]]].
  inversion Hret; subst st'.
  unfold MySqlRevised.table_step. rewrite Hmodel.
  unfold MySqlRevised.column_entries. cbv zeta.
  rewrite Hfields. unfold bind at 1. unfold bind at 1.
  erewrite mapM_throws_at;
    [reflexivity|exact Hcols|eapply MySqlRevised_binary_column_throws; exact Hast].
Qed.

Lemma MySqlRevised_binary_run_throws options tables models' pre schemaTable post
  modelAst fieldAst before after st steps st1 entries st2 :
  ManyToMany.extractManyToManyModels (GeneratorOptions.models options)
  = inr (tables, models') ->
  (models' ++ tables)%list = (pre ++ schemaTable :: post)%list ->
  Model.fields schemaTable = (before ++ field :: after)%list ->
  Ast.findModel (GeneratorOptions.datamodel options) (Model.name schemaTable)
  = Some modelAst ->
  Ast.findField (Ast.properties modelAst) (Field.name field) = Some fieldAst ->
  mapM (MySqlRevised.table_step (GeneratorOptions.enums options)
          (GeneratorOptions.datamodel options)) pre st = (inr steps, st1) ->
  MySqlRevised.column_entries (GeneratorOptions.enums options) modelAst before st1
  = (inr entries, st2) ->
  MySqlRevised.generateMySqlSchema options st
  = (inl (GeneratorError "Drizzle ORM doesn't support binary data type for MySQL"), st2).
Proof.
  intros E Hmodels Hfields Hmodel Hast Hpre Hbefore.
  unfold MySqlRevised.generateMySqlSchema.
  rewrite E. cbv zeta. rewrite Hmodels. unfold bind at 1.
  erewrite mapM_throws_at;
    [reflexivity|exact Hpre|eapply MySqlRevised_binary_table_throws; eassumption].
Qed.

End FirstThrow.

(** ** The column object *)

Section ColumnObject.

Lemma get_has k o v : JsObject.get k o = Some v -> JsObject.has k o = true.
Proof.
  induction o as [|[k' v'] o IH]; simpl; [discriminate|].
  destruct (String.eqb k k'); [reflexivity|]. exact IH.
Qed.

Lemma get_In k o v : JsObject.get k o = Some v -> In (k, v) o.
Proof.
  induction o as [|[k' v'] o IH]; simpl; [discriminate|].
  destruct (String.eqb_spec k k') as [->|Hk].
  - intros H. inversion H. left. reflexivity.
  - intros H. right. apply IH. exact H.
Qed.

Lemma get_replace_same k v o :
  JsObject.has k o = true -> JsObject.get k (JsObject.replace k v o) = Some v.
Proof.
  induction o as [|[k' v'] o IH]; simpl; [discriminate|].
  destruct (String.eqb k k') eqn:E; simpl.
  - intros _. rewrite E. reflexivity.
  - intros H. rewrite E. apply IH. exact H.
Qed.

Lemma get_replace_other k k' v o :
  k <> k' -> JsObject.get k (JsObject.replace k' v o) = JsObject.get k o.
Proof.
  intros Hk. induction o as [|[k0 v0] o IH]; simpl; [reflexivity|].
  destruct (String.eqb_spec k' k0) as [->|H0]; simpl.
  - destruct (String.eqb_spec k k0); [contradiction|reflexivity].
  - destruct (String.eqb k k0); [reflexivity|exact IH].
Qed.

Lemma get_app k o o' :
  JsObject.get k (o ++ o')%list
  = match JsObject.get k o with
    | Some v => Some v
    | None => JsObject.get k o'
    end.
Proof.
  induction o as [|[k0 v0] o IH]; simpl; [reflexivity|].
  destruct (String.eqb k k0); [reflexivity|exact IH].
Qed.

Lemma has_get_none k o : JsObject.has k o = false -> JsObject.get k o = None.
Proof.
  induction o as [|[k' v'] o IH]; simpl; [reflexivity|].
  destruct (String.eqb k k'); [discriminate|exact IH].
Qed.

Lemma get_set_same k v o : JsObject.get k (JsObject.set k v o) = Some v.
Proof.
  unfold JsObject.set. destruct (JsObject.has k o) eqn:E.
  - apply get_replace_same. exact E.
  - rewrite get_app, (has_get_none _ _ E). simpl. rewrite String.eqb_refl. reflexivity.
Qed.

Lemma get_set_other k k' v o :
  k <> k' -> JsObject.get k (JsObject.set k' v o) = JsObject.get k o.
Proof.
  intros Hk. unfold JsObject.set. destruct (JsObject.has k' o).
  - apply get_replace_other. exact Hk.
  - rewrite get_app. destruct (JsObject.get k o); [reflexivity|]. simpl.
    destruct (String.eqb_spec k k'); [contradiction|reflexivity].
Qed.

Lemma get_assign_other k k' v o :
  k <> k' -> JsObject.get k (JsObject.assign k' v o) = JsObject.get k o.
Proof.
  intros Hk. unfold JsObject.assign. destruct (JsObject.has k' o).
  - apply get_replace_other. exact Hk.
  - destruct (String.eqb k' "__proto__"); [reflexivity|].
    rewrite get_app. destruct (JsObject.get k o); [reflexivity|]. simpl.
    destruct (String.eqb_spec k k'); [contradiction|reflexivity].
Qed.

Lemma get_fold_other k (entries : list (string * string)) : forall o,
  ~ In k (map fst entries) ->
  JsObject.get k (fold_left (fun o e => JsObject.set (fst e) (snd e) o) entries o)
  = JsObject.get k o.
Proof.
  induction entries as [|e entries IH]; intros o Hnot; simpl; [reflexivity|].
  rewrite IH by (intros H; apply Hnot; right; exact H).
  apply get_set_other. intros ->. apply Hnot. left. reflexivity.
Qed.

(** An entry under a key of its own is the value of the key in
    [Object.fromEntries(entries)]. *)
Lemma get_fromEntries k v (entries : list (string * string)) :
  NoDup (map fst entries) -> In (k, v) entries ->
  JsObject.get k (JsObject.fromEntries entries) = Some v.
Proof.
  unfold JsObject.fromEntries. generalize (@nil (string * string)) as o.
  induction entries as [|e entries IH]; intros o Hnd Hin; [contradiction|].
  simpl in *. inversion Hnd as [|? ? Hnot Hnd']; subst.
  destruct Hin as [->|Hin].
  - simpl. rewrite get_fold_other by exact Hnot. apply get_set_same.
  - apply IH; assumption.
Qed.

Lemma In_insert_index e e' l : In e (JsObject.insert_index e' l) <-> e = e' \/ In e l.
Proof.
  induction l as [|x l IH]; simpl.
  - intuition congruence.
  - destruct (fst e' <=? fst x)%N; simpl; rewrite ?IH; intuition congruence.
Qed.

(** [Object.values] lists the value of every property. *)
Lemma In_values k v o : In (k, v) o -> In v (JsObject.values o).
Proof.
  unfold JsObject.values. intros Hin. apply in_or_app.
  induction o as [|[k' v'] o IH]; [contradiction|]. simpl.
  destruct Hin as [Heq|Hin].
  - inversion Heq; subst. destruct (JsObject.array_index k) as [n|].
    + left. apply in_map_iff. exists (n, v). split; [reflexivity|].
      apply In_insert_index. left. reflexivity.
    + right. left. reflexivity.
  - destruct (IH Hin) as [H|H]; destruct (JsObject.array_index k') as [n|].
    + left. apply in_map_iff in H. destruct H as [[n' v0] [Hv H]]. simpl in Hv. subst v0.
      apply in_map_iff. exists (n', v). split; [reflexivity|].
      apply In_insert_index. right. exact H.
    + left. exact H.
    + right. exact H.
    + right. right. exact H.
Qed.

End ColumnObject.

(** ** The column of a binary field in the SQLite module *)

Section BlobColumn.
Import Outcome.

Lemma returns_modifiers_append field column :
  returns (SQLite.addColumnModifiers field column)
    (fun c => exists rest, c = column ++ rest).
Proof.
  intros st c st' H. unfold SQLite.addColumnModifiers in H. cbv zeta in H.
  assert (Hflags : exists flags, Common.flag_modifiers field column = column ++ flags).
  { unfold Common.flag_modifiers.
    destruct (Field.isRequired field), (Field.isId field), (Field.isUnique field);
      rewrite ?append_assoc;
      first [eexists; reflexivity
            | exists EmptyString; symmetry; apply append_empty_r]. }
  destruct Hflags as [flags Hf]. rewrite Hf in H.
  destruct (Field.default field) as [[defVal|defVal|name args]|].
  - destruct (Js.truthy defVal); inversion H; eexists; rewrite ?append_assoc; reflexivity.
  - inversion H. eexists. rewrite !append_assoc. reflexivity.
  - destruct (String.eqb name "now");
      [inversion H; eexists; rewrite append_assoc; reflexivity|].
    destruct (String.eqb name "autoincrement"); [inversion H; eexists; reflexivity|].
    destruct (String.eqb name "dbgenerated").
    + destruct args as [|[m e|a|b] args]; try discriminate H.
      inversion H. eexists. rewrite !append_assoc. reflexivity.
    + inversion H. eexists. rewrite !append_assoc. reflexivity.
  - inversion H. eexists. reflexivity.
Qed.

Variable field : Field.t.
Hypothesis Htype : Field.type field = "Bytes".

Lemma returns_blob_column :
  returns (SQLite.prismaToDrizzleColumn field)
    (fun r => exists rest, r = Some (blob_column field ++ rest)).
Proof.
  intros st r st' H.
  unfold SQLite.prismaToDrizzleColumn, SQLite.prismaToDrizzleType in H.
  rewrite Htype in H. cbv zeta in H.
  change (Js.toLowerCase "Bytes") with "bytes" in H. cbn [String.eqb Ascii.eqb Bool.eqb] in H.
  destruct (bind_returned _ _ _ H) as [drizzleType [st1 [Ht Hk]]].
  inversion Ht; subst drizzleType st1. clear Ht.
  destruct (bind_returned _ _ _ Hk) as [c [st2 [Hc Hr]]].
  inversion Hr; subst.
  apply returns_modifiers_append in Hc. destruct Hc as [rest ->].
  exists rest. reflexivity.
Qed.

(** The callback of the [map] over the fields. *)
Lemma returns_column_entry e :
  returns (c <- SQLite.prismaToDrizzleColumn e ;;
           ret (option_map (fun c => (Field.name e, c)) c))
    (fun c => (forall kv, c = Some kv -> fst kv = Field.name e)
              /\ (e = field ->
                  exists rest, c = Some (Field.name field, blob_column field ++ rest))).
Proof.
  intros st c st' H. destruct (bind_returned _ _ _ H) as [r [st1 [Hr Hret]]].
  inversion Hret; subst. split.
  - intros kv Hkv. destruct r; inversion Hkv. reflexivity.
  - intros ->. apply returns_blob_column in Hr. destruct Hr as [rest ->].
    exists rest. reflexivity.
Qed.

Lemma keys_of_entries (l : list Field.t) (cols : list (option (string * string))) :
  Forall2 (fun e c => (forall kv, c = Some kv -> fst kv = Field.name e)
                      /\ (e = field ->
                          exists rest,
                            c = Some (Field.name field, blob_column field ++ rest)))
    l cols ->
  (forall k, In k (map fst (somes cols)) -> In k (map Field.name l))
  /\ (NoDup (map Field.name l) -> NoDup (map fst (somes cols)))
  /\ (In field l ->
      exists rest, In (Field.name field, blob_column field ++ rest) (somes cols)).
Proof.
  induction 1 as [|e c l cols [Hkey Hfield] _ [IHk [IHn IHf]]]; simpl.
  - split; [tauto|]. split; [intros; constructor|intros []].
  - split; [|split].
    + intros k Hk. destruct c as [kv|]; simpl in Hk.
      * destruct Hk as [<-|Hk]; [left; symmetry; apply Hkey; reflexivity|].
        right. apply IHk, Hk.
      * right. apply IHk, Hk.
    + intros Hnd. inversion Hnd as [|? ? Hnot Hnd']; subst.
      destruct c as [kv|]; simpl; [|apply IHn, Hnd'].
      constructor; [|apply IHn, Hnd'].
      intros Hin. apply Hnot. rewrite <- (Hkey kv eq_refl). apply IHk, Hin.
    + intros [Heq|Hin].
      * destruct (Hfield Heq) as [rest ->]. exists rest. left. reflexivity.
      * destruct (IHf Hin) as [rest Hrest]. exists rest.
        destruct c; [right|]; exact Hrest.
Qed.

Lemma returns_column_entries fields :
  In field fields -> NoDup (map Field.name fields) ->
  returns (SQLite.column_entries fields)
    (fun entries =>
       exists rest,
         JsObject.get (Field.name field) (JsObject.fromEntries entries)
         = Some (blob_column field ++ rest)).
Proof.
  intros Hin Hnd st entries st' H. unfold SQLite.column_entries in H.
  destruct (bind_returned _ _ _ H) as [cols [st1 [Hcols Hret]]].
  inversion Hret; subst.
  assert (HF : Forall2
                 (fun e c =>
                    (forall kv, c = Some kv -> fst kv = Field.name e)
                    /\ (e = field ->
                        exists rest,
                          c = Some (Field.name field, blob_column field ++ rest)))
                 fields cols).
  { eapply mapM_returned; [|exact Hcols]. intros e. apply returns_column_entry. }
  destruct (keys_of_entries HF) as [_ [Hn Hf]].
  destruct (Hf Hin) as [rest Hrest]. exists rest.
  apply get_fromEntries; [apply Hn, Hnd|exact Hrest].
Qed.

Lemma returns_relation_decl schemaTable f columnFields :
  (exists rest, JsObject.get (Field.name field) columnFields
                = Some (blob_column field ++ rest)) ->
  returns (SQLite.relation_decl schemaTable f columnFields)
    (fun r => exists rest, JsObject.get (Field.name field) (snd r)
                           = Some (blob_column field ++ rest)).
Proof.
  intros [rest Hget] st r st' H. unfold SQLite.relation_decl in H.
  destruct (Field.relationFromFields f) as [[|thisField moreFrom]|];
    try (inversion H; subst; exists rest; exact Hget).
  destruct moreFrom as [|y l];
    [destruct (Field.relationToFields f) as [[|otherField [|z t]]|]|].
  all: try (destruct (Common.deleteAction_of false (Field.relationOnDelete f));
            [|discriminate H];
            unfold bind, add_core, ret, throw in H;
            first [discriminate H
                  | destruct (Field.relationToFields f); [|discriminate H]
                  | idtac];
            inversion H; subst; exists rest; exact Hget).
  inversion H; subst. simpl.
  destruct (String.eqb_spec (Field.name field) thisField) as [<-|Hk].
  - unfold JsObject.assign, JsObject.read. rewrite (get_has _ _ Hget), Hget.
    rewrite get_replace_same by (eapply get_has; exact Hget).
    eexists. rewrite append_assoc. reflexivity.
  - rewrite get_assign_other by exact Hk. exists rest. exact Hget.
Qed.

Lemma returns_mapAccumM_keeps A B S (f : A -> S -> M (B * S)) (I : S -> Prop)
  (l : list A) :
  (forall x c, I c -> returns (f x c) (fun r => I (snd r))) ->
  forall c, I c -> returns (mapAccumM f l c) (fun r => I (snd r)).
Proof.
  intros Hf. induction l as [|x l IH]; intros c Hc; simpl.
  - apply returns_ret. exact Hc.
  - apply returns_bind with (Q := fun r => I (snd r)); [apply Hf; exact Hc|].
    intros yc Hyc.
    apply returns_bind with (Q := fun r => I (snd r)); [apply IH; exact Hyc|].
    intros ysc Hysc. apply returns_ret. exact Hysc.
Qed.

Lemma table_decl_includes ctor name tableDbName columns indexes needle :
  Js.includes needle (Js.join ("," ++ Js.nl) columns) = true ->
  Js.includes needle (Common.table_decl ctor name tableDbName columns indexes) = true.
Proof.
  intros H. unfold Common.table_decl.
  do 8 apply includes_append_r. apply includes_append_l. exact H.
Qed.

(** The table of a model with the field has the column. *)
Lemma returns_table_with_blob schemaTable :
  In field (Model.fields schemaTable) ->
  NoDup (map Field.name (Model.fields schemaTable)) ->
  returns (SQLite.table_step schemaTable)
    (fun step => Js.includes (blob_column field) (fst step) = true).
Proof.
  intros Hin Hnd. unfold SQLite.table_step. cbv zeta.
  eapply returns_bind; [apply returns_column_entries; assumption|].
  intros entries Hentries. cbv beta in Hentries.
  eapply returns_bind.
  { apply returns_mapAccumM_keeps
      with (I := fun o => exists rest, JsObject.get (Field.name field) o
                                       = Some (blob_column field ++ rest)).
    - intros f c Hc. apply returns_relation_decl. exact Hc.
    - exact Hentries. }
  intros rels [rest Hget]. cbv beta in Hget.
  apply returns_then. intros uniq. apply returns_then. intros pk.
  assert (Htable : forall indexes,
             Js.includes (blob_column field)
               (Common.table_decl "sqliteTable" (Model.name schemaTable)
                  (Escape.s (Js.nullish (Model.dbName schemaTable) (Model.name schemaTable))
                     Escape.Quote)
                  (JsObject.values (snd rels)) indexes) = true).
  { intros indexes. apply table_decl_includes.
    apply includes_join with (b := blob_column field ++ rest).
    - eapply In_values. apply get_In. exact Hget.
    - apply includes_append_l, includes_refl. }
  destruct (filter Common.is_relField (Model.fields schemaTable));
    [|apply returns_then; intros ?]; apply returns_ret; apply Htable.
Qed.

End BlobColumn.

Section BinaryRun.
Context {C : Js.Collation}.
Import ManyToMany Outcome.

Lemma Forall2_nth_error A B (R : A -> B -> Prop) l l' :
  Forall2 R l l' ->
  forall i x y, nth_error l i = Some x -> nth_error l' i = Some y -> R x y.
Proof.
  induction 1 as [|a b l l' Hab _ IH]; intros [|i] x y Hx Hy; simpl in *;
    try discriminate.
  - inversion Hx; inversion Hy; subst. exact Hab.
  - eapply IH; eassumption.
Qed.

Lemma names_rewritten l l' :
  Forall2 Relations.rewritten l l' -> map Field.name l' = map Field.name l.
Proof.
  induction 1 as [|f f' l l' [Hk _] _ IH]; simpl; [reflexivity|].
  rewrite IH. unfold Kept.field in Hk. f_equal. congruence.
Qed.

(** A field without a relation name is, after the synthesis, a field of
    the model it was a field of, whose fields have the names they
    had. *)
Lemma unrelated_field_in_its_model models tables models' model field :
  extractManyToManyModels models = inr (tables, models') ->
  In model models -> In field (Model.fields model) ->
  Field.relationName field = None ->
  exists model',
    In model' (models' ++ tables)%list
    /\ In field (Model.fields model')
    /\ map Field.name (Model.fields model') = map Field.name (Model.fields model).
Proof.
  intros E Hm Hf Hrel.
  apply In_nth_error in Hm. destruct Hm as [i Hi].
  apply In_nth_error in Hf. destruct Hf as [j Hj].
  assert (Hd : deref models (i, j) = Some field).
  { unfold deref. simpl. rewrite Hi. exact Hj. }
  pose proof (extract_keeps_unrelated _ _ E Hd Hrel) as Hd'.
  unfold deref in Hd'. simpl in Hd'.
  destruct (nth_error models' i) as [model'|] eqn:Hi'; [|discriminate Hd'].
  exists model'. split; [|split].
  - apply in_or_app. left. eapply nth_error_In. exact Hi'.
  - eapply nth_error_In. exact Hd'.
  - apply names_rewritten.
    exact (Forall2_nth_error (rewritten_extract _ E) _ Hi Hi').
Qed.

(** The text of a run of the SQLite generator that returns has the
    column of the field. *)
Lemma SQLite_run_has_blob options model field st text st' :
  In model (GeneratorOptions.models options) ->
  In field (Model.fields model) ->
  Field.type field = "Bytes" ->
  Field.relationName field = None ->
  NoDup (map Field.name (Model.fields model)) ->
  SQLite.generateSQLiteSchema options st = (inr text, st') ->
  Js.includes (blob_column field) text = true.
Proof.
  intros Hm Hf Htype Hrel Hnd H. unfold SQLite.generateSQLiteSchema in H.
  destruct (extractManyToManyModels _) as [e|[tables models']] eqn:E; [discriminate H|].
  cbv zeta in H.
  destruct (emitted _ _ (fun steps => (map fst steps ++ somes (map snd steps))%list) _ H)
    as [steps [Hsteps ->]].
  destruct (@unrelated_field_in_its_model _ _ _ _ _ E Hm Hf Hrel)
    as [model' [Hm' [Hf' Hnames]]].
  assert (HF : Forall2 (fun m step => In field (Model.fields m) ->
                                      NoDup (map Field.name (Model.fields m)) ->
                                      Js.includes (blob_column field) (fst step) = true)
                 (models' ++ tables)%list steps).
  { eapply mapM_returned; [|exact Hsteps]. intros m st0 step st1 Hstep Hin Hn.
    eapply returns_table_with_blob; eassumption. }
  destruct (Forall2_In_l model' HF Hm') as [step [Hstep Hinc]].
  apply includes_emit with (b := fst step).
  - apply in_or_app. left. apply in_map. exact Hstep.
  - apply Hinc; [exact Hf'|]. rewrite Hnames. exact Hnd.
Qed.

End BinaryRun.

(** C5, as amended. For every scalar field of type [Bytes] in a model
    of the input (a scalar field carries no relation name).

    In the MySQL and the Postgres module the type mapper throws the
    generator error that names the unsupported binary type, and a run
    ends in an exception, so that no text is returned: in this
    generator error whenever everything before the field returns (the
    synthesis, the enum declarations, the models before its model, the
    fields before it in its model and, for Postgres and the later MySQL
    module, the look-up of model and field in the schema text), and
    otherwise in the exception of the step that throws first.

    In the SQLite module the type mapper throws for no type and returns
    a [blob] column for the field; the column mapper returns this column
    with the modifiers appended, when the escaper can take the default
    of the field; a run returns whenever the synthesis returns, the
    escaper can take every default and the [switch] knows every delete
    action it is asked for, whatever the types of the fields; and the
    text of every run that returns has the column, when the fields of
    the model have names of their own. *)
Theorem C5_binary_fields :
  forall (C : Js.Collation) (options : GeneratorOptions.t) (model : Model.t)
         (field : Field.t) (st : Imports),
    In model (GeneratorOptions.models options) ->
    In field (Model.fields model) ->
    Field.kind field = scalar ->
    Field.type field = "Bytes" ->
    Field.relationName field = None ->
    let mysql_error :=
      GeneratorError "Drizzle ORM doesn't support binary data type for MySQL" in
    let pg_error :=
      GeneratorError "Drizzle ORM doesn't support binary data type for PostgreSQL" in
    (forall colDbName,
        MySql.prismaToDrizzleType (Field.type field) colDbName None st
        = (inl mysql_error, st))
    /\ (forall colDbName defVal nativeType,
          Pg.prismaToDrizzleType (Field.type field) colDbName defVal nativeType st
          = (inl pg_error, st))
    /\ (forall colDbName nativeType,
          MySqlRevised.prismaToDrizzleType (Field.type field) colDbName None nativeType st
          = (inl mysql_error, st))
    /\ (exists e, fst (MySql.generateMySqlSchema options st) = inl e)
    /\ (exists e, fst (Pg.generatePgSchema options st) = inl e)
    /\ (exists e, fst (MySqlRevised.generateMySqlSchema options st) = inl e)
    /\ (forall tables models' pre schemaTable post before after steps st1 entries st2,
          ManyToMany.extractManyToManyModels (GeneratorOptions.models options)
          = inr (tables, models') ->
          (models' ++ tables)%list = (pre ++ schemaTable :: post)%list ->
          Model.fields schemaTable = (before ++ field :: after)%list ->
          mapM (MySql.table_step (GeneratorOptions.enums options)) pre st
          = (inr steps, st1) ->
          MySql.column_entries before (GeneratorOptions.enums options) st1
          = (inr entries, st2) ->
          MySql.generateMySqlSchema options st = (inl mysql_error, st2))
    /\ (forall tables models' pre schemaTable post modelAst fieldAst before after
               enumSteps st0 steps st1 entries st2,
          ManyToMany.extractManyToManyModels (GeneratorOptions.models options)
          = inr (tables, models') ->
          (models' ++ tables)%list = (pre ++ schemaTable :: post)%list ->
          Model.fields schemaTable = (before ++ field :: after)%list ->
          Ast.findModel (GeneratorOptions.datamodel options) (Model.name schemaTable)
          = Some modelAst ->
          Ast.findField (Ast.properties modelAst) (Field.name field) = Some fieldAst ->
          mapM Pg.pgEnum_step (GeneratorOptions.enums options) st = (inr enumSteps, st0) ->
          mapM (Pg.table_step (GeneratorOptions.datamodel options)) pre st0
          = (inr steps, st1) ->
          Pg.column_entries modelAst before st1 = (inr entries, st2) ->
          Pg.generatePgSchema options st = (inl pg_error, st2))
    /\ (forall tables models' pre schemaTable post modelAst fieldAst before after
               steps st1 entries st2,
          ManyToMany.extractManyToManyModels (GeneratorOptions.models options)
          = inr (tables, models') ->
          (models' ++ tables)%list = (pre ++ schemaTable :: post)%list ->
          Model.fields schemaTable = (before ++ field :: after)%list ->
          Ast.findModel (GeneratorOptions.datamodel options) (Model.name schemaTable)
          = Some modelAst ->
          Ast.findField (Ast.properties modelAst) (Field.name field) = Some fieldAst ->
          mapM (MySqlRevised.table_step (GeneratorOptions.enums options)
                  (GeneratorOptions.datamodel options)) pre st = (inr steps, st1) ->
          MySqlRevised.column_entries (GeneratorOptions.enums options) modelAst before st1
          = (inr entries, st2) ->
          MySqlRevised.generateMySqlSchema options st = (inl mysql_error, st2))
    /\ (forall colDbName,
          SQLite.prismaToDrizzleType (Field.type field) colDbName st
          = (inr (Some ("blob('" ++ colDbName ++ "', { mode: 'buffer' })")),
             snd (add_core "blob" st)))
    /\ (forall type colDbName,
          exists r, fst (SQLite.prismaToDrizzleType type colDbName st) = inr r)
    /\ (Defaults.escapable field = true ->
        exists rest st',
          SQLite.prismaToDrizzleColumn field st
          = (inr (Some (Outcome.blob_column field ++ rest)), st'))
    /\ ((exists r, ManyToMany.extractManyToManyModels (GeneratorOptions.models options)
                   = inr r) ->
        (forall model' field',
            In model' (GeneratorOptions.models options) ->
            In field' (Model.fields model') ->
            Defaults.escapable field' = true /\ Relations.declarable field' = true) ->
        exists text st', SQLite.generateSQLiteSchema options st = (inr text, st'))
    /\ (forall text st',
          NoDup (map Field.name (Model.fields model)) ->
          SQLite.generateSQLiteSchema options st = (inr text, st') ->
          Js.includes (Outcome.blob_column field) text = true).
Proof.
  intros C options model field st Hm Hf Hkind Htype Hrel. cbv zeta.
  repeat match goal with |- _ /\ _ => split end.
  - intros colDbName. rewrite Htype. reflexivity.
  - intros colDbName defVal nativeType. rewrite Htype. reflexivity.
  - intros colDbName nativeType. rewrite Htype. reflexivity.
  - unfold MySql.generateMySqlSchema.
    destruct (ManyToMany.extractManyToManyModels _) as [e|[tables models']] eqn:E.
    + exists e. reflexivity.
    + destruct (@unrelated_field_survives C _ _ _ _ _ E Hm Hf Hrel) as [model' [Hm' Hf']].
      apply fails_bind_left.
      apply fails_mapM with (x := model'); [exact Hm'|].
      apply MySql_binary_table_fails with (field := field); assumption.
  - unfold Pg.generatePgSchema.
    destruct (ManyToMany.extractManyToManyModels _) as [e|[tables models']] eqn:E.
    + exists e. reflexivity.
    + destruct (@unrelated_field_survives C _ _ _ _ _ E Hm Hf Hrel) as [model' [Hm' Hf']].
      apply fails_bind_right. intros enumSteps.
      apply fails_bind_left.
      apply fails_mapM with (x := model'); [exact Hm'|].
      apply Pg_binary_table_fails with (field := field); assumption.
  - apply (@MySqlRevised_binary_run_fails C options model field Hm Hf Hkind Htype Hrel).
  - intros. eapply MySql_binary_run_throws; eassumption.
  - intros. eapply Pg_binary_run_throws; eassumption.
  - intros. eapply MySqlRevised_binary_run_throws; eassumption.
  - intros colDbName. rewrite Htype. reflexivity.
  - intros type colDbName. apply SQLite_type_mapper_returns.
  - intros Hesc.
    destruct (SQLite_column_succeeds field Hesc st) as [r [st' Hr]].
    pose proof Hr as Hr'. apply (@returns_blob_column field Htype) in Hr'.
    destruct Hr' as [rest ->]. exists rest, st'. exact Hr.
  - intros Hx Hok. apply SQLite_run_succeeds; assumption.
  - intros text st' Hnd H. eapply SQLite_run_has_blob; eassumption.
Qed.

Section BinaryRuns.
#[local] Existing Instance IdentifierCollation.collation.

(** C5 at the field [data] of the model [File]: the runs of the two
    MySQL generators and of the Postgres generator throw the generator
    error, and the run of the SQLite generator returns a table with the
    [blob] column. *)
Lemma C5_witness :
  MySql.generateMySqlSchema Scenarios.file_options MySql.initial
  = (inl (GeneratorError "Drizzle ORM doesn't support binary data type for MySQL"),
     snd (add_core "int" MySql.initial))
  /\ Pg.generatePgSchema Scenarios.file_options Pg.initial
     = (inl (GeneratorError "Drizzle ORM doesn't support binary data type for PostgreSQL"),
        snd (add_core "integer" Pg.initial))
  /\ MySqlRevised.generateMySqlSchema Scenarios.file_options MySqlRevised.initial
     = (inl (GeneratorError "Drizzle ORM doesn't support binary data type for MySQL"),
        snd (add_core "int" MySqlRevised.initial))
  /\ Defaults.escapable Scenarios.data = true
  /\ NoDup (map Field.name (Model.fields Scenarios.File))
  /\ (exists text st',
         SQLite.generateSQLiteSchema Scenarios.file_options SQLite.initial
         = (inr text, st')
         /\ Js.includes (Js.tab ++ "data: blob('data', { mode: 'buffer' })") text = true)
  /\ fst (SQLite.generateSQLiteSchema Scenarios.file_options SQLite.initial)
     = inr ("import { blob, int, sqliteTable } from 'drizzle-orm/sqlite-core'"
            ++ Js.nl ++ Js.nl
            ++ "export const File = sqliteTable('File', {" ++ Js.nl
            ++ Js.tab ++ "id: int('id').notNull().primaryKey()," ++ Js.nl
            ++ Js.tab ++ "data: blob('data', { mode: 'buffer' }).notNull()" ++ Js.nl
            ++ "});").
Proof.
  assert (Hnd : NoDup (map Field.name (Model.fields Scenarios.File))).
  { simpl. constructor; [simpl; intros [H|[]]; discriminate H|].
    constructor; [simpl; tauto|constructor]. }
  assert (Hok : forall model' field',
             In model' (GeneratorOptions.models Scenarios.file_options) ->
             In field' (Model.fields model') ->
             Defaults.escapable field' = true /\ Relations.declarable field' = true).
  { intros model' field' [<-|[]] [<-|[<-|[]]]; split; reflexivity. }
  pose proof (fun st =>
                C5_binary_fields IdentifierCollation.collation Scenarios.file_options
                  Scenarios.File Scenarios.data st
                  (or_introl eq_refl) (or_intror (or_introl eq_refl))
                  eq_refl eq_refl eq_refl) as H.
  cbv zeta in H.
  split; [|split; [|split; [|split; [reflexivity|split; [exact Hnd|split]]]]].
  - destruct (H MySql.initial) as [_ [_ [_ [_ [_ [_ [Hmysql _]]]]]]].
    apply (Hmysql [] [Scenarios.File] [] Scenarios.File [] [Scenarios.id_int] [] []
             MySql.initial
             [("id", Js.tab ++ "id: int('id').notNull().primaryKey()")]);
      reflexivity.
  - destruct (H Pg.initial) as [_ [_ [_ [_ [_ [_ [_ [Hpg _]]]]]]]].
    apply (Hpg [] [Scenarios.File] [] Scenarios.File []
             (Ast.mkModel "File" [Scenarios.id_node; Ast.mkField "data" None])
             (Ast.mkField "data" None) [Scenarios.id_int] [] [] Pg.initial [] Pg.initial
             [("id", Js.tab ++ "id: integer('id').notNull().primaryKey()")]);
      reflexivity.
  - destruct (H MySqlRevised.initial) as [_ [_ [_ [_ [_ [_ [_ [_ [Hlater _]]]]]]]]].
    apply (Hlater [] [Scenarios.File] [] Scenarios.File []
             (Ast.mkModel "File" [Scenarios.id_node; Ast.mkField "data" None])
             (Ast.mkField "data" None) [Scenarios.id_int] [] [] MySqlRevised.initial
             [("id", Js.tab ++ "id: int('id').notNull().primaryKey()")]);
      reflexivity.
  - destruct (H SQLite.initial)
      as [_ [_ [_ [_ [_ [_ [_ [_ [_ [_ [_ [_ [Hrun Hhas]]]]]]]]]]]]].
    destruct (Hrun (ex_intro _ ([], [Scenarios.File]) eq_refl) Hok) as [text [st' E]].
    exists text, st'. split; [exact E|].
    exact (Hhas text st' Hnd E).
  - vm_compute. reflexivity.
Defined.

(** C5, as stated, fails in both halves where a default that the
    escaper cannot take comes first. The argument of [dbgenerated] is
    optional: for [data Bytes @default(dbgenerated())] the run of the
    SQLite generator throws a type error; and for a model whose id has
    such a default before the field [data Bytes], the run of the
    Postgres generator throws this type error, not the generator error
    of the binary type. *)
Lemma C5_default_without_argument_throws :
  In MoreScenarios.generated_data (Model.fields MoreScenarios.Blob)
  /\ Field.kind MoreScenarios.generated_data = scalar
  /\ Field.type MoreScenarios.generated_data = "Bytes"
  /\ In Scenarios.data (Model.fields MoreScenarios.Doc)
  /\ fst (SQLite.generateSQLiteSchema MoreScenarios.blob_options SQLite.initial)
     = inl (TypeError "Cannot read properties of undefined (reading 'replace')")
  /\ fst (Pg.generatePgSchema MoreScenarios.doc_options Pg.initial)
     = inl (TypeError "Cannot read properties of undefined (reading 'replace')").
Proof.
  split; [right; left; reflexivity|]. split; [reflexivity|]. split; [reflexivity|].
  split; [right; left; reflexivity|]. split; vm_compute; reflexivity.
Qed.

End BinaryRuns.
